(** * FreeNAS GUI storage forms and the cron job service

  A shallow embedding of the validation code of
  [gui/storage/forms.py] (vdev rows, the vdev formset, volume names,
  ZFS size fields, [VolumeManagerForm.save]) and of
  [middlewared/plugins/cron.py] ([CronJobService.validate_data] and
  [do_create]).

  Conventions.  A Python [str] is a [string]; its characters are the
  code points below 256.  A [dict] read with [.get] is a record of
  [option] fields when its keys are fixed by the form or the schema, and
  a [gmap] when the code indexes it with computed keys.  A function that
  may raise returns a [result].  [ugettext_lazy] (written [_] in the
  source) is the identity on messages. *)

From Stdlib Require Import ZArith Ascii Bool Lia.
From stdpp Require Import gmap strings list pretty.

(** ** Python values and exceptions *)

Module Py.

(** The exceptions the modelled code raises or lets through. *)
Inductive exn : Type :=
| ValidationError (msg : string)
| TypeError (msg : string)
| KeyError (key : string)
| UnboundLocalError (name : string)
| ExternalError (what : string).

Inductive result (A : Type) : Type :=
| Return (a : A)
| Raise (e : exn).
Arguments Return {A} a.
Arguments Raise {A} e.

Definition bind {A B : Type} (m : result A) (k : A -> result B) : result B :=
  match m with
  | Return a => k a
  | Raise e => Raise e
  end.

Definition raises {A : Type} (m : result A) : Prop :=
  match m with
  | Return _ => False
  | Raise _ => True
  end.

(** Truth value of an optional string: [None] and [''] are falsy. *)
Definition truthy (o : option string) : bool :=
  match o with
  | Some s => negb (bool_decide (s = ""))
  | None => false
  end.

(** [x in (a, b, ...)] for a value that may be [None]. *)
Definition is_in (o : option string) (l : list string) : bool :=
  match o with
  | Some s => bool_decide (s ∈ l)
  | None => false
  end.

(** [len(x)]: a [TypeError] on [None]. *)
Definition len {A : Type} (o : option (list A)) : result nat :=
  match o with
  | Some l => Return (length l)
  | None => Raise (TypeError "object of type 'NoneType' has no len()")
  end.

End Py.

Import Py.

Notation "'try!' x ':=' m 'in' k" := (bind m (fun x => k))
(at level 10, x pattern, m at level 100, k at level 200).

(** ** Vdev rows: [VolumeVdevForm] *)

Module VdevForm.

(** [cleaned_data] of one row.  A key is absent ([None]) when its field
    failed validation or the row was left blank. *)
Record cleaned_data : Type := {
  vdevtype : option string;
  disks : option (list string)
}.

(** [errmsg % n] *)
Definition errmsg (n : nat) : string :=
  "You need at least " +:+ pretty n +:+ " disks".

(** [VolumeVdevForm.clean_disks]; [disks] is the value of
    [eval(self.cleaned_data.get("disks"))], a list of device names. *)
Definition clean_disks (vdev : option string) (disks : list string)
  : result (list string) :=
  if bool_decide (vdev = Some "mirror") && (length disks <? 2)%nat then
    Raise (ValidationError (errmsg 2))
  else if bool_decide (vdev = Some "raidz") && (length disks <? 3)%nat then
    Raise (ValidationError (errmsg 3))
  else if bool_decide (vdev = Some "raidz2") && (length disks <? 4)%nat then
    Raise (ValidationError (errmsg 4))
  else if bool_decide (vdev = Some "raidz3") && (length disks <? 5)%nat then
    Raise (ValidationError (errmsg 5))
  else Return disks.

(** [VolumeVdevForm.clean].  The framework calls it after the field
    cleaners whether or not they failed, so ["disks"] may be absent. *)
Definition clean (cd : cleaned_data) : result cleaned_data :=
  if bool_decide (vdevtype cd = Some "log") then
    try! n := len (disks cd) in
    if (1 <? n)%nat then
      Return {| vdevtype := Some "log mirror"; disks := disks cd |}
    else Return cd
  else Return cd.

(** The minimum number of disks per vdev type, as the specification
    tabulates it; [None] for a type without a minimum. *)
Definition min_disks_spec (vdev : option string) : option nat :=
  if bool_decide (vdev = Some "mirror") then Some 2
  else if bool_decide (vdev = Some "raidz") then Some 3
  else if bool_decide (vdev = Some "raidz2") then Some 4
  else if bool_decide (vdev = Some "raidz3") then Some 5
  else None.

End VdevForm.

(** ** The formset: [VdevFormSet] *)

Module VdevFormSet.
Import VdevForm.

(** One form of the set: its error dict (field, message) and its
    cleaned data. *)
Record form : Type := {
  errors : list (string * string);
  cleaned : cleaned_data
}.

(** A data vdev of the parsed pool ([zpool.data]): [vdev.type] and the
    devices [iter(vdev)] yields. *)
Record pool_vdev : Type := {
  vdev_type : string;
  vdev_devs : list string
}.

Definition DATA_TYPES : list string :=
  ["mirror"; "stripe"; "raidz"; "raidz2"; "raidz3"].

Definition AUX_TYPES : list string :=
  ["cache"; "log"; "log mirror"; "spare"].

Definition only_one_msg (name : string) : string :=
  "Only one row for the vitual device of type " +:+ name +:+ " is allowed.".

Definition different_types_msg (vdev1 vdev2 : string) : string :=
  "You are not allowed to create a volume with different data vdev types ("
    +:+ vdev1 +:+ " and " +:+ vdev2 +:+ ")".

Definition no_data_msg : string := "You need a data disk group".

Definition type_mismatch_msg (addtype vdevtype : string) : string :=
  "You are trying to add a virtual device of type '" +:+ addtype
    +:+ "' in a pool that has a virtual device of type '" +:+ vdevtype +:+ "'".

Definition count_mismatch_msg (addnum vdevnum : nat) : string :=
  "You are trying to add a virtual device consisting of " +:+ pretty addnum
    +:+ " device(s) in a pool that has a virtual device consisting of "
    +:+ pretty vdevnum +:+ " device(s)".

(** [VdevFormSet._clean_vdevtype]; [vdevfound] is a
    [defaultdict(lambda: False)], returned as updated. *)
Definition _clean_vdevtype (vdevfound : gmap string bool)
    (vdevtype : option string) : result (gmap string bool) :=
  match vdevtype with
  | Some t =>
      if bool_decide (t ∈ AUX_TYPES) then
        let name := if bool_decide (t = "log mirror") then "log" else t in
        if default false (vdevfound !! name) then
          Raise (ValidationError (only_one_msg name))
        else Return (<[name := true]> vdevfound)
      else Return vdevfound
  | None => Return vdevfound
  end.

(** The loop of the branch that creates a volume; returns
    [has_datavdev]. *)
Fixpoint create_loop (forms : list form) (vdevfound : gmap string bool)
    (has_datavdev : bool) (datatype : option string) : result bool :=
  match forms with
  | [] => Return has_datavdev
  | f :: rest =>
      let vt := vdevtype (cleaned f) in
      if is_in vt DATA_TYPES then
        match datatype, vt with
        | Some d, Some t =>
            if bool_decide (d ≠ t) then
              Raise (ValidationError (different_types_msg d t))
            else create_loop rest vdevfound true vt
        | _, _ => create_loop rest vdevfound true vt
        end
      else
        try! vf := _clean_vdevtype vdevfound vt in
        create_loop rest vf has_datavdev datatype
  end.

(** First loop of the branch that extends a pool. *)
Fixpoint add_aux_loop (forms : list form) (vdevfound : gmap string bool)
  : result (gmap string bool) :=
  match forms with
  | [] => Return vdevfound
  | f :: rest =>
      let vt := vdevtype (cleaned f) in
      if negb (truthy vt) then add_aux_loop rest vdevfound
      else if is_in vt AUX_TYPES then
        try! vf := _clean_vdevtype vdevfound vt in
        add_aux_loop rest vf
      else add_aux_loop rest vdevfound
  end.

(** Body of the inner loop: one pool vdev against one form. *)
Definition check_form (vdev : pool_vdev) (f : form) : result unit :=
  match vdevtype (cleaned f) with
  | None => Return tt
  | Some t =>
      if bool_decide (t = "") then Return tt
      else if bool_decide (t ∈ AUX_TYPES) then Return tt
      else
        let errors1 :=
          if bool_decide (vdev_type vdev ≠ t)
          then [type_mismatch_msg t (vdev_type vdev)] else [] in
        try! n := len (disks (cleaned f)) in
        let errors2 :=
          if bool_decide (n ≠ length (vdev_devs vdev))
          then errors1 ++ [count_mismatch_msg n (length (vdev_devs vdev))]
          else errors1 in
        match errors2 with
        | e :: _ => Raise (ValidationError e)
        | [] => Return tt
        end
  end.

Fixpoint forms_loop (vdev : pool_vdev) (forms : list form) : result unit :=
  match forms with
  | [] => Return tt
  | f :: rest => try! _ := check_form vdev f in forms_loop vdev rest
  end.

Fixpoint pool_loop (data : list pool_vdev) (forms : list form)
  : result unit :=
  match data with
  | [] => Return tt
  | vdev :: rest => try! _ := forms_loop vdev forms in pool_loop rest forms
  end.

(** [any(self.errors)] *)
Definition any_errors (forms : list form) : bool :=
  existsb (fun f => negb (bool_decide (errors f = []))) forms.

(** [VdevFormSet.clean].  [volume_add] is
    [self.pform.cleaned_data.get("volume_add")]; [zpool_parse] stands for
    [notifier().zpool_parse] and gives the pool's data vdevs. *)
Definition clean (volume_add : option string)
    (zpool_parse : string -> list pool_vdev) (forms : list form)
  : result unit :=
  if any_errors forms then Return tt
  else if negb (truthy volume_add) then
    try! has_datavdev := create_loop forms ∅ false None in
    if negb has_datavdev then Raise (ValidationError no_data_msg)
    else Return tt
  else
    let data := zpool_parse (default "" volume_add) in
    try! _ := add_aux_loop forms ∅ in
    pool_loop data forms.

(** *** Vocabulary of the statements *)

(** The auxiliary kind a row counts for: ['log mirror'] counts as
    ['log']; [None] for a row that is not auxiliary. *)
Definition aux_name (f : form) : option string :=
  match vdevtype (cleaned f) with
  | Some t =>
      if bool_decide (t ∈ AUX_TYPES)
      then Some (if bool_decide (t = "log mirror") then "log" else t)
      else None
  | None => None
  end.

(** The data vdev type a row carries, if any. *)
Definition data_name (f : form) : option string :=
  match vdevtype (cleaned f) with
  | Some t => if bool_decide (t ∈ DATA_TYPES) then Some t else None
  | None => None
  end.

Definition aux_names (forms : list form) : list string := omap aux_name forms.
Definition data_names (forms : list form) : list string := omap data_name forms.

(** A row the second pass of the extending branch compares with the
    pool: it has a type and the type is not auxiliary. *)
Definition compared (f : form) : Prop :=
  truthy (vdevtype (cleaned f)) = true /\ aux_name f = None.

(** The row agrees with a pool vdev in type and in number of devices. *)
Definition agrees (vdev : pool_vdev) (f : form) : Prop :=
  exists t ds, vdevtype (cleaned f) = Some t /\ disks (cleaned f) = Some ds /\
    vdev_type vdev = t /\ length ds = length (vdev_devs vdev).

(** No name of the list is marked in [vdevfound]. *)
Definition fresh (vdevfound : gmap string bool) (names : list string) : Prop :=
  forall n, n ∈ names -> default false (vdevfound !! n) = false.

(** The data types met so far ([datatype], then the rows') are one type. *)
Definition same_type (datatype : option string) (names : list string) : Prop :=
  forall d t, (datatype = Some d \/ d ∈ names) -> t ∈ names -> d = t.

(** Rows for examples. *)
Definition row (t : string) (ds : list string) : form :=
  {| errors := []; cleaned := {| vdevtype := Some t; disks := Some ds |} |}.

Definition blank_row : form :=
  {| errors := []; cleaned := {| vdevtype := None; disks := None |} |}.

Definition bad_row (t : string) : form :=
  {| errors := [("disks", "This field is required.")];
     cleaned := {| vdevtype := Some t; disks := None |} |}.

End VdevFormSet.

(** ** Python string helpers *)

Module PyStr.

(** [s.split(sep)] for a separator of one character. *)
Fixpoint split (sep : ascii) (s : string) : list string :=
  match s with
  | EmptyString => [EmptyString]
  | String c rest =>
      if Ascii.eqb c sep then EmptyString :: split sep rest
      else match split sep rest with
           | w :: ws => String c w :: ws
           | [] => [String c EmptyString]
           end
  end.

(** [c in s] for a character. *)
Fixpoint contains (c : ascii) (s : string) : bool :=
  match s with
  | EmptyString => false
  | String d rest => Ascii.eqb c d || contains c rest
  end.

Definition is_digit (c : ascii) : bool :=
  let n := nat_of_ascii c in (48 <=? n)%nat && (n <=? 57)%nat.

Definition digit_value (c : ascii) : Z := Z.of_nat (nat_of_ascii c - 48).

(** White space as [int] skips it: tab to carriage return, the space, and
    the Latin-1 characters 0x85 and 0xa0 (the separators 0x1c-0x1f are not
    skipped by [int]). *)
Definition is_space (c : ascii) : bool :=
  let n := nat_of_ascii c in
  ((9 <=? n)%nat && (n <=? 13)%nat) || (n =? 32)%nat
  || (n =? 133)%nat || (n =? 160)%nat.

Fixpoint lstrip (s : string) : string :=
  match s with
  | String c rest => if is_space c then lstrip rest else s
  | EmptyString => EmptyString
  end.

(** Strips trailing white space: a character is kept when something is
    kept after it or when it is not white space. *)
Fixpoint rstrip (s : string) : string :=
  match s with
  | EmptyString => EmptyString
  | String c rest =>
      match rstrip rest with
      | EmptyString => if is_space c then EmptyString else String c EmptyString
      | kept => String c kept
      end
  end.

(** Decimal digits with single underscores between digits; [after_digit]
    tells whether the previous character was a digit. *)
Fixpoint digits (s : string) (acc : Z) (after_digit : bool) : option Z :=
  match s with
  | EmptyString => if after_digit then Some acc else None
  | String c rest =>
      if is_digit c then digits rest (10 * acc + digit_value c) true
      else if Ascii.eqb c "_" then
        if after_digit then digits rest acc false else None
      else None
  end.

(** [int(s)] in base 10; [None] stands for [ValueError]. *)
Definition int (s : string) : option Z :=
  match rstrip (lstrip s) with
  | String "+" rest => digits rest 0 false
  | String "-" rest => Z.opp <$> digits rest 0 false
  | body => digits body 0 false
  end.

End PyStr.

(** ** The cron job service: [CronJobService] *)

Module Cron.

(** The dict [data] of schema [cron_job_create]; a key may be absent.
    [id] is the key [do_create] adds. *)
Record cron_job : Type := {
  enabled : option bool;
  stderr : option bool;
  stdout : option bool;
  command : option string;
  daymonth : option string;
  dayweek : option string;
  description : option string;
  hour : option string;
  minute : option string;
  month : option string;
  user : option string;
  id : option Z
}.

(** Modelled from the spec: [ValidationErrors] of [middlewared.service]
    is not among the sources; it is the list of the (attribute, message)
    pairs added, in order, and its truth value in [if verrors] is that of
    this list. *)
Definition ValidationErrors : Type := list (string * string).

Definition add (verrors : ValidationErrors) (attribute errmsg : string)
  : ValidationErrors :=
  verrors ++ [(attribute, errmsg)].

(** The calls made through [self.middleware.call]. *)
Inductive call : Type :=
| GetUserObject (user : string)
| DatastoreInsert (datastore : string) (data : cron_job) (prefix : string)
| ServiceRestart (service : string).

(** What the middleware answers: whether [notifier.get_user_object] finds
    the user, and the id [datastore.insert] returns. *)
Record middleware : Type := {
  get_user_object : string -> bool;
  insert_id : cron_job -> Z
}.

(** [day not in range(lo, hi)] *)
Definition not_in_range (lo hi : Z) (n : Z) : bool :=
  negb ((lo <=? n)%Z && (n <? hi)%Z).

(** [CronJobService.validate_data]: the calls made, the errors and the
    data. *)
Definition validate_data (mw : middleware) (data : cron_job) (schema : string)
  : list call * ValidationErrors * cron_job :=
  let verrors : ValidationErrors := [] in
  let weekdays := dayweek data in
  let verrors :=
    if truthy weekdays && negb (bool_decide (weekdays = Some "*")) then
      match mapM PyStr.int (PyStr.split "," (default "" weekdays)) with
      | None => add verrors (schema +:+ ".weekday") "Please specify valid week days"
      | Some weekdays =>
          if (0 <? length (filter (fun day => not_in_range 1 8 day = true) weekdays))%nat
          then add verrors (schema +:+ ".weekday")
                 "The week days should be in range of 1-7 inclusive"
          else verrors
      end
    else verrors in
  let months := month data in
  let verrors :=
    if truthy months && negb (bool_decide (months = Some "*")) then
      match mapM PyStr.int (PyStr.split "," (default "" months)) with
      | None => add verrors (schema +:+ ".month") "Please specify valid months"
      | Some months =>
          if (0 <? length (filter (fun month => not_in_range 1 13 month = true) months))%nat
          then add verrors (schema +:+ ".month")
                 "The months should be in range of 1-12 inclusive"
          else verrors
      end
    else verrors in
  let user := user data in
  if truthy user then
    if PyStr.contains " " (default "" user) then
      ([], add verrors (schema +:+ ".user") "Usernames cannot have spaces", data)
    else if negb (get_user_object mw (default "" user)) then
      ([GetUserObject (default "" user)],
       add verrors (schema +:+ ".user") "Specified user does not exist", data)
    else ([GetUserObject (default "" user)], verrors, data)
  else ([], verrors, data).

(** How [do_create] ends. *)
Inductive outcome : Type :=
| Created (data : cron_job)
| Raised (verrors : ValidationErrors).

Definition set_id (data : cron_job) (n : Z) : cron_job :=
  {| enabled := enabled data; stderr := stderr data; stdout := stdout data;
     command := command data; daymonth := daymonth data;
     dayweek := dayweek data; description := description data;
     hour := hour data; minute := minute data; month := month data;
     user := user data; id := Some n |}.

(** [CronJobService.do_create]: the calls made, in order, and the
    outcome. *)
Definition do_create (mw : middleware) (data : cron_job)
  : list call * outcome :=
  let '(calls, verrors, data) := validate_data mw data "cron_job_create" in
  if negb (bool_decide (verrors = [])) then (calls, Raised verrors)
  else
    let data' := set_id data (insert_id mw data) in
    (calls ++ [DatastoreInsert "tasks.cronjob" data "cron_";
               ServiceRestart "cron"],
     Created data').

(** Whether a call is a datastore insert or a service restart. *)
Definition changes_state (c : call) : bool :=
  match c with
  | GetUserObject _ => false
  | DatastoreInsert _ _ _ => true
  | ServiceRestart _ => true
  end.

(** A comma-separated entry of [s] that [int] rejects, or that is an
    integer outside [lo..hi]. *)
Definition bad_entry (lo hi : Z) (s : string) : Prop :=
  exists e, e ∈ PyStr.split "," s /\
    (PyStr.int e = None \/ exists n, PyStr.int e = Some n /\ ~ (lo <= n <= hi)%Z).

(** The errors one of the two range checks adds, for the value of the
    field, the half-open range [lo, hi) and the attribute and messages. *)
Definition range_errors (value : option string) (lo hi : Z)
    (attribute invalid out_of_range : string) : ValidationErrors :=
  if truthy value && negb (bool_decide (value = Some "*")) then
    match mapM PyStr.int (PyStr.split "," (default "" value)) with
    | None => [(attribute, invalid)]
    | Some ns =>
        if (0 <? length (filter (fun n => not_in_range lo hi n = true) ns))%nat
        then [(attribute, out_of_range)]
        else []
    end
  else [].

(** The errors the user check adds. *)
Definition user_errors (mw : middleware) (data : cron_job) (schema : string)
  : ValidationErrors :=
  if truthy (user data) then
    if PyStr.contains " " (default "" (user data)) then
      [(schema +:+ ".user", "Usernames cannot have spaces")]
    else if negb (get_user_object mw (default "" (user data))) then
      [(schema +:+ ".user", "Specified user does not exist")]
    else []
  else [].

(** A job for examples: only the fields given are present. *)
Definition job (dw mo us : option string) : cron_job :=
  {| enabled := None; stderr := None; stdout := None;
     command := Some "true"; daymonth := None; dayweek := dw;
     description := None; hour := None; minute := None; month := mo;
     user := us; id := None |}.

Definition any_user : middleware :=
  {| get_user_object := fun _ => true; insert_id := fun _ => 1%Z |}.

End Cron.

(** ** Regular expressions of Python's [re] *)

Module Regex.

(** The fragment of the pattern language the forms use.  [Class p] is a
    set of characters ([[a-z]], [\d], [.], a literal). *)
Inductive re : Type :=
| Void
| Eps
| Class (p : ascii -> bool)
| Cat (r1 r2 : re)
| Alt (r1 r2 : re)
| Star (r : re).

(** [r+], [r?], a literal character and a literal word. *)
Definition Plus (r : re) : re := Cat r (Star r).
Definition Opt (r : re) : re := Alt r Eps.
Definition Lit (c : ascii) : re := Class (Ascii.eqb c).

Fixpoint Word (w : list ascii) : re :=
  match w with
  | [] => Eps
  | c :: w' => Cat (Lit c) (Word w')
  end.

(** The words a pattern matches in full. *)
Inductive lang : re -> list ascii -> Prop :=
| lang_eps : lang Eps []
| lang_class p c : p c = true -> lang (Class p) [c]
| lang_cat r1 r2 u v : lang r1 u -> lang r2 v -> lang (Cat r1 r2) (u ++ v)
| lang_alt_l r1 r2 u : lang r1 u -> lang (Alt r1 r2) u
| lang_alt_r r1 r2 u : lang r2 u -> lang (Alt r1 r2) u
| lang_star_nil r : lang (Star r) []
| lang_star_app r u v : lang r u -> lang (Star r) v -> lang (Star r) (u ++ v).

(** Matching by derivatives. *)
Fixpoint nullable (r : re) : bool :=
  match r with
  | Void => false
  | Eps => true
  | Class _ => false
  | Cat r1 r2 => nullable r1 && nullable r2
  | Alt r1 r2 => nullable r1 || nullable r2
  | Star _ => true
  end.

Fixpoint deriv (c : ascii) (r : re) : re :=
  match r with
  | Void => Void
  | Eps => Void
  | Class p => if p c then Eps else Void
  | Cat r1 r2 =>
      if nullable r1 then Alt (Cat (deriv c r1) r2) (deriv c r2)
      else Cat (deriv c r1) r2
  | Alt r1 r2 => Alt (deriv c r1) (deriv c r2)
  | Star r1 => Cat (deriv c r1) (Star r1)
  end.

Fixpoint accepts (r : re) (s : list ascii) : bool :=
  match s with
  | [] => nullable r
  | c :: s' => accepts (deriv c r) s'
  end.

(** Some prefix of [s] is matched: the pattern [^r] with no anchor at
    the end. *)
Fixpoint accepts_prefix (r : re) (s : list ascii) : bool :=
  nullable r ||
  match s with
  | [] => false
  | c :: s' => accepts_prefix (deriv c r) s'
  end.

Definition newline : ascii := "010"%char.

(** [s] without its last character when that is a newline. *)
Definition before_final_newline (s : list ascii) : option (list ascii) :=
  match reverse s with
  | c :: body => if Ascii.eqb c newline then Some (reverse body) else None
  | [] => None
  end.

(** The pattern [^r$] searched in [s] (no MULTILINE flag): [$] holds at
    the end of the string and just before a newline that ends it. *)
Definition search_anchored (r : re) (s : string) : bool :=
  let cs := String.list_ascii_of_string s in
  accepts r cs ||
  match before_final_newline cs with
  | Some body => accepts r body
  | None => false
  end.

(** The pattern [^r] searched in [s]. *)
Definition search_start (r : re) (s : string) : bool :=
  accepts_prefix r (String.list_ascii_of_string s).

(** Character sets, over the code points below 256. *)
Definition in_range (lo hi : nat) (c : ascii) : bool :=
  let n := nat_of_ascii c in (lo <=? n)%nat && (n <=? hi)%nat.

Definition lower_az : ascii -> bool := in_range 97 122.
Definition upper_az : ascii -> bool := in_range 65 90.
Definition digit : ascii -> bool := in_range 48 57.

(** [.]: any character but the newline. *)
Definition dot (c : ascii) : bool := negb (Ascii.eqb c newline).

Definition to_lower (c : ascii) : ascii :=
  if upper_az c then ascii_of_nat (nat_of_ascii c + 32) else c.

Definition to_upper (c : ascii) : ascii :=
  if lower_az c then ascii_of_nat (nat_of_ascii c - 32) else c.

(** A set under the flag [re.I]: a character belongs when it or its
    other case does.  Below 256 the sets used here hold ASCII characters
    only, whose other case is the ASCII one. *)
Definition ignore_case (p : ascii -> bool) (c : ascii) : bool :=
  p c || p (to_lower c) || p (to_upper c).

End Regex.

(** ** Volume names: [VolumeMixin] *)

Module VolumeMixin.
Import Regex.

(** The double quote, for messages. *)
Definition dq : string := String (ascii_of_nat 34) EmptyString.

Definition pattern_msg : string :=
  "The volume name must start with letters and may include numbers, "
    +:+ dq +:+ "-" +:+ dq +:+ ", " +:+ dq +:+ "_" +:+ dq +:+ " and "
    +:+ dq +:+ "." +:+ dq +:+ " .".

Definition exists_msg : string := "A volume with that name already exists.".

Definition reserved_msg : string :=
  dq +:+ "log" +:+ dq +:+ " is a reserved word and thus cannot be used".

Definition prefix_msg : string :=
  "The volume name may NOT start with c[0-9], mirror, raidz or spare".

(** The set [[-_.a-z0-9]]. *)
Definition name_set (c : ascii) : bool :=
  Ascii.eqb c "-" || Ascii.eqb c "_" || Ascii.eqb c "." || lower_az c || digit c.

(** [^[a-z][-_.a-z0-9]*$] under [re.I], without its anchors. *)
Definition NAME : re :=
  Cat (Class (ignore_case lower_az)) (Star (Class (ignore_case name_set))).

(** [^c[0-9].*], [^mirror.*], [^spare.*] and [^raidz.*], without [^]. *)
Definition C_DIGIT : re := Cat (Cat (Lit "c") (Class digit)) (Star (Class dot)).
Definition MIRROR : re :=
  Cat (Word (String.list_ascii_of_string "mirror")) (Star (Class dot)).
Definition SPARE : re :=
  Cat (Word (String.list_ascii_of_string "spare")) (Star (Class dot)).
Definition RAIDZ : re :=
  Cat (Word (String.list_ascii_of_string "raidz")) (Star (Class dot)).

(** [VolumeMixin.clean_volume_name]; [volumes] are the names
    [vol_name] of the rows of [models.Volume]. *)
Definition clean_volume_name (volumes : list string) (vname : string)
  : result string :=
  if negb (bool_decide (vname = "")) && negb (search_anchored NAME vname) then
    Raise (ValidationError pattern_msg)
  else if bool_decide (vname ∈ volumes) then
    Raise (ValidationError exists_msg)
  else if bool_decide (vname ∈ ["log"]) then
    Raise (ValidationError reserved_msg)
  else if search_start C_DIGIT vname || search_start MIRROR vname
          || search_start SPARE vname || search_start RAIDZ vname then
    Raise (ValidationError prefix_msg)
  else Return vname.

(** *** Vocabulary of the statements *)

Definition letter (c : ascii) : bool := lower_az c || upper_az c.

(** A letter, a digit, ['-'], ['_'] or ['.']. *)
Definition name_char (c : ascii) : bool :=
  letter c || digit c || Ascii.eqb c "-" || Ascii.eqb c "_" || Ascii.eqb c ".".

(** A letter followed by name characters. *)
Definition well_formed (cs : list ascii) : Prop :=
  exists c rest, cs = c :: rest /\ letter c = true /\
                 Forall (fun x => name_char x = true) rest.

(** What the anchored pattern accepts: a well-formed name, or one
    followed by a single newline. *)
Definition matches_pattern (s : string) : Prop :=
  well_formed (String.list_ascii_of_string s) \/
  exists body, String.list_ascii_of_string s = body ++ [newline] /\
               well_formed body.

Definition starts_with (w s : string) : Prop :=
  exists rest,
    String.list_ascii_of_string s = String.list_ascii_of_string w ++ rest.

Definition starts_with_c_digit (s : string) : Prop :=
  exists d rest, String.list_ascii_of_string s = "c"%char :: d :: rest /\
                 digit d = true.

End VolumeMixin.

(** ** ZFS size fields: [_clean_zfssize_fields] *)

Module ZfsSize.
Import Regex.

(** The part of a form the function touches: [form.cleaned_data] and
    [form._errors], the latter from field names to lists of messages. *)
Record form : Type := {
  cleaned_data : gmap string string;
  _errors : gmap string (list string)
}.

Definition msg : string := "Specify the size with IEC suffixes or 0, e.g. 10 GiB".

Definition not_valid_msg (number : string) : string :=
  number +:+ " is not a valid number".

(** The set [[BKMGTP]]. *)
Definition unit_set (c : ascii) : bool :=
  Ascii.eqb c "B" || Ascii.eqb c "K" || Ascii.eqb c "M" || Ascii.eqb c "G"
  || Ascii.eqb c "T" || Ascii.eqb c "P".

(** [\d+(?:\.\d+)?] and [[BKMGTP](?:iB)?] under [re.I], then the whole of
    [^(\d+(?:\.\d+)?)([BKMGTP](?:iB)?)?$] without its anchors. *)
Definition NUMBER : re :=
  Cat (Plus (Class digit)) (Opt (Cat (Lit ".") (Plus (Class digit)))).

Definition SUFFIX : re :=
  Cat (Class (ignore_case unit_set))
      (Opt (Cat (Class (ignore_case (Ascii.eqb "i")))
                (Class (ignore_case (Ascii.eqb "B"))))).

Definition SIZE : re := Cat NUMBER (Opt SUFFIX).

(** The characters group 1 is made of. *)
Definition number_char (c : ascii) : bool := digit c || Ascii.eqb c ".".

(** The longest prefix of characters of a set, and the rest. *)
Fixpoint span (p : ascii -> bool) (cs : list ascii)
  : list ascii * list ascii :=
  match cs with
  | [] => ([], [])
  | c :: rest =>
      if p c then let '(u, v) := span p rest in (c :: u, v)
      else ([], cs)
  end.

(** [r.match(s)] and [match.groups()]: [None] when there is no match,
    else group 1 and group 2 ([None] when group 2 took no part).  The text
    matched ends at the end of [s] or before its final newline; group 1 is
    its leading run of digits and dots, the only split the pattern allows,
    and group 2 is what follows. *)
Definition r_match (s : string) : option (string * option string) :=
  let cs := String.list_ascii_of_string s in
  let matched :=
    if accepts SIZE cs then Some cs
    else match before_final_newline cs with
         | Some body => if accepts SIZE body then Some body else None
         | None => None
         end in
  match matched with
  | None => None
  | Some body =>
      let '(number, suffix) := span number_char body in
      Some (String.string_of_list_ascii number,
            match suffix with
            | [] => None
            | _ => Some (String.string_of_list_ascii suffix)
            end)
  end.

(** [s.replace(' ', '')] *)
Fixpoint remove_spaces (s : string) : string :=
  match s with
  | EmptyString => EmptyString
  | String c rest =>
      if Ascii.eqb c " " then remove_spaces rest
      else String c (remove_spaces rest)
  end.

(** [s.lower()] *)
Fixpoint lower (s : string) : string :=
  match s with
  | EmptyString => EmptyString
  | String c rest => String (to_lower c) (lower rest)
  end.

(** [s.endswith(w)] *)
Definition endswith (s w : string) : bool :=
  bool_decide (String.list_ascii_of_string w
               `suffix_of` String.list_ascii_of_string s).

(** [s[0]] of a non-empty string. *)
Definition first_char (s : string) : string :=
  match s with
  | String c _ => String c EmptyString
  | EmptyString => EmptyString
  end.

(** White space as [Decimal] strips it. *)
Definition decimal_space (c : ascii) : bool :=
  in_range 9 13 c || in_range 28 32 c || in_range 133 133 c
  || in_range 160 160 c.

Definition strip (s : list ascii) : list ascii :=
  reverse (snd (span decimal_space (reverse (snd (span decimal_space s))))).

(** The numeric strings of the [decimal] module:
    [[sign] (digits [. [digits]] | . digits) [e [sign] digits]], the
    infinities and the NaNs. *)
Definition DECIMAL : re :=
  let sign := Opt (Alt (Lit "+") (Lit "-")) in
  let digits := Plus (Class digit) in
  let decimal_part :=
    Alt (Cat digits (Opt (Cat (Lit ".") (Star (Class digit)))))
        (Cat (Lit ".") digits) in
  let exponent := Cat (Class (ignore_case (Ascii.eqb "e"))) (Cat sign digits) in
  let word w :=
    fold_right (fun c r => Cat (Class (ignore_case (Ascii.eqb c))) r) Eps
      (String.list_ascii_of_string w) in
  let infinity := Cat (word "inf") (Opt (word "inity")) in
  let nan := Cat (Opt (word "s")) (Cat (word "nan") (Star (Class digit))) in
  Cat sign (Alt (Cat decimal_part (Opt exponent)) (Alt infinity nan)).

(** Whether [Decimal(s)] returns rather than raises: white space around is
    dropped, underscores are skipped. *)
Definition Decimal_ok (s : string) : bool :=
  accepts DECIMAL
    (filter (fun c => c ≠ "_"%char) (strip (String.list_ascii_of_string s))).

(** The first loop: a missing field gets the empty string. *)
Fixpoint fill_missing (cdata : gmap string string) (fields : list string)
  : gmap string string :=
  match fields with
  | [] => cdata
  | field :: rest =>
      fill_missing
        (match cdata !! field with
         | None => <[field := ""]> cdata
         | Some _ => cdata
         end) rest
  end.

(** The body of the second loop, for one [attr]. *)
Definition clean_field (prefix : string) (f : form) (attr : string)
  : result form :=
  let cdata := cleaned_data f in
  let formfield := prefix +:+ attr in
  match cdata !! formfield with
  | None => Raise (KeyError formfield)
  | Some value =>
      match r_match (remove_spaces value) with
      | None =>
          if negb (bool_decide (value = "0")) then
            Return {| cleaned_data := delete formfield cdata;
                      _errors := <[formfield := [msg]]> (_errors f) |}
          else Return f
      | Some (number, suffix) =>
          let cdata :=
            if truthy suffix && endswith (lower (default "" suffix)) "ib"
            then <[formfield := number +:+ first_char (default "" suffix)]> cdata
            else cdata in
          if Decimal_ok number then
            Return {| cleaned_data := cdata; _errors := _errors f |}
          else
            Return {| cleaned_data := delete formfield cdata;
                      _errors := <[formfield := [not_valid_msg number]]>
                                   (_errors f) |}
      end
  end.

Fixpoint clean_fields (prefix : string) (f : form) (attrs : list string)
  : result form :=
  match attrs with
  | [] => Return f
  | attr :: rest =>
      try! f' := clean_field prefix f attr in clean_fields prefix f' rest
  end.

(** [_clean_zfssize_fields(form, attrs, prefix)]: the form as the call
    leaves it; the value returned is its [cleaned_data]. *)
Definition _clean_zfssize_fields (f : form) (attrs : list string)
    (prefix : string) : result form :=
  let cdata := fill_missing (cleaned_data f) (map (fun x => prefix +:+ x) attrs) in
  clean_fields prefix {| cleaned_data := cdata; _errors := _errors f |} attrs.

(** *** Vocabulary of the statements *)

Definition all_digits (cs : list ascii) : Prop :=
  cs ≠ [] /\ Forall (fun c => digit c = true) cs.

(** A decimal number, with an optional fractional part. *)
Definition decimal_number (cs : list ascii) : Prop :=
  exists whole frac, cs = whole ++ frac /\ all_digits whole /\
    (frac = [] \/ exists fd, frac = "."%char :: fd /\ all_digits fd).

(** One of B, K, M, G, T, P in either case, optionally followed by
    [iB] in any case. *)
Definition size_suffix (cs : list ascii) : Prop :=
  exists c, unit_set (to_upper c) = true /\
    (cs = [c] \/
     exists i b, cs = [c; i; b] /\ to_lower i = "i"%char /\ to_lower b = "b"%char).

Definition size_literal (cs : list ascii) : Prop :=
  exists number suffix, cs = number ++ suffix /\ decimal_number number /\
    (suffix = [] \/ size_suffix suffix).

(** The value is acceptable as the specification words it: with its
    spaces removed it is ["0"] or a size literal. *)
Definition acceptable (value : string) : Prop :=
  remove_spaces value = "0" \/
  size_literal (String.list_ascii_of_string (remove_spaces value)).

(** The other text the pattern matches, as [$] also holds before a
    newline that ends the string: with its spaces removed the value is a
    size literal followed by one newline. *)
Definition newline_ended (value : string) : Prop :=
  exists body,
    String.list_ascii_of_string (remove_spaces value) = body ++ [newline]
    /\ size_literal body.

(** The value stored on acceptance: the number and the first letter of
    the suffix when the suffix ends in [iB], else the value as submitted. *)
Definition normalized (value : string) : string :=
  let '(number, suffix) :=
    span number_char (String.list_ascii_of_string (remove_spaces value)) in
  match suffix with
  | [c; _; _] => String.string_of_list_ascii (number ++ [c])
  | _ => value
  end.

Definition empty_form (cdata : list (string * string)) : form :=
  {| cleaned_data := list_to_map cdata; _errors := ∅ |}.

End ZfsSize.

(** ** Saving a volume: [VolumeManagerForm.save] *)

Module VolumeManager.

(** Rows of [models.Volume] and [models.Scrub]. *)
Record volume : Type := {
  vol_id : nat;
  vol_name : string;
  vol_encrypt : Z
}.

Record scrub : Type := {
  scrub_id : nat;
  scrub_volume : nat
}.

(** The calls [save] makes on the notifier and on the rows' [delete]. *)
Inductive call : Type :=
| ZfsVolumeAttachGroup (vol : string) (index : nat)
| CreateVolume (vol : string) (init_rand : bool)
| ZfsSetOption (vol name value : string)
| VolumeDelete (vol : string) (destroy cascade : bool)
| ScrubDelete (id : nat)
| GeliPassphrase (vol : string)
| SyncFileSend (vol : string)
| Reload (what : string)
| Start (what : string)
| Restart (what : string).

(** The operations that may raise: queries, row saves and deletes, and the
    notifier's calls. *)
Inductive step : Type :=
| QueryVolumes
| SaveVolume
| AttachGroup (index : nat)
| DoCreateVolume
| SetDedup
| CreateScrub
| DeleteVolume
| DeleteScrub
| DoGeliPassphrase
| SaveEncrypt
| DoSyncFileSend
| ReloadDisk
| StartSyslogd
| RestartSystemDatasets
| RestartCron
| GetSmartd
| RestartSmartd.

(** What lies outside the function: which operations raise, and what the
    notifier and the services table answer. *)
Record env : Type := {
  fails : step -> bool;
  is_freenas : bool;
  failover_licensed : bool;
  smartd_enabled : bool
}.

(** [self.cleaned_data] and the cleaned rows of [self._formset]; the form
    is valid, so [volume_name] is set. *)
Record inputs : Type := {
  volume_name : string;
  encryption : bool;
  encryption_inirand : bool;
  dedup : option string;
  formset : list VdevForm.cleaned_data
}.

(** The database, the calls made so far, and the local variables
    [volume], [scrub] and [add] ([None]: not bound yet or [None]). *)
Record state : Type := {
  volumes : list volume;
  scrubs : list scrub;
  calls : list call;
  l_volume : option volume;
  l_scrub : option scrub;
  l_add : option bool
}.

Definition M (A : Type) : Type := state -> state * result A.

Definition ret {A : Type} (a : A) : M A := fun st => (st, Return a).

Definition raise {A : Type} (e : exn) : M A := fun st => (st, Raise e).

Definition mbind {A B : Type} (m : M A) (k : A -> M B) : M B :=
  fun st =>
    match m st with
    | (st', Return a) => k a st'
    | (st', Raise e) => (st', Raise e)
    end.

(** [try: body except Exception as e: handler] *)
Definition try_except {A : Type} (body : M A) (handler : exn -> M A) : M A :=
  fun st =>
    match body st with
    | (st', Return a) => (st', Return a)
    | (st', Raise e) => handler e st'
    end.

Definition get : M state := fun st => (st, Return st).

Definition update (f : state -> state) : M unit := fun st => (f st, Return tt).

End VolumeManager.

Notation "'do!' x ':=' m 'in' k" := (VolumeManager.mbind m (fun x => k))
(at level 10, x pattern, m at level 100, k at level 200).

Module VolumeManagerSave.
Import VolumeManager.

Definition step_name (s : step) : string :=
  match s with
  | QueryVolumes => "Volume.objects.filter"
  | SaveVolume => "volume.save"
  | AttachGroup _ => "zfs_volume_attach_group"
  | DoCreateVolume => "create_volume"
  | SetDedup => "zfs_set_option"
  | CreateScrub => "Scrub.objects.create"
  | DeleteVolume => "volume.delete"
  | DeleteScrub => "scrub.delete"
  | DoGeliPassphrase => "geli_passphrase"
  | SaveEncrypt => "volume.save"
  | DoSyncFileSend => "sync_file_send"
  | ReloadDisk => "reload"
  | StartSyslogd => "start"
  | RestartSystemDatasets => "restart"
  | RestartCron => "restart"
  | GetSmartd => "services.objects.get"
  | RestartSmartd => "restart"
  end.

(** An operation either raises or goes on. *)
Definition attempt (e : env) (s : step) : M unit :=
  fun st =>
    if fails e s then (st, Raise (ExternalError (step_name s)))
    else (st, Return tt).

(** A call of the notifier: it raises, or it is made. *)
Definition notify (e : env) (s : step) (c : call) : M unit :=
  do! _ := attempt e s in
  update (fun st =>
    {| volumes := volumes st; scrubs := scrubs st; calls := calls st ++ [c];
       l_volume := l_volume st; l_scrub := l_scrub st; l_add := l_add st |}).

Definition set_locals (v : option volume) (s : option scrub) (a : option bool)
  : M unit :=
  update (fun st =>
    {| volumes := volumes st; scrubs := scrubs st; calls := calls st;
       l_volume := v; l_scrub := s; l_add := a |}).

Definition set_volumes (f : list volume -> list volume) : M unit :=
  update (fun st =>
    {| volumes := f (volumes st); scrubs := scrubs st; calls := calls st;
       l_volume := l_volume st; l_scrub := l_scrub st; l_add := l_add st |}).

Definition set_scrubs (f : list scrub -> list scrub) : M unit :=
  update (fun st =>
    {| volumes := volumes st; scrubs := f (scrubs st); calls := calls st;
       l_volume := l_volume st; l_scrub := l_scrub st; l_add := l_add st |}).

(** A primary key no row has. *)
Definition fresh_id (ids : list nat) : nat := S (list_max ids).

(** [grouped]: the rows that have a vdevtype, under their index. *)
Fixpoint grouped (i : nat) (rows : list VdevForm.cleaned_data)
  : list (nat * VdevForm.cleaned_data) :=
  match rows with
  | [] => []
  | row :: rest =>
      if truthy (VdevForm.vdevtype row) then (i, row) :: grouped (S i) rest
      else grouped (S i) rest
  end.

(** The loop that attaches the groups to an existing volume. *)
Fixpoint attach_groups (e : env) (vol : string)
    (groups : list (nat * VdevForm.cleaned_data)) : M unit :=
  match groups with
  | [] => ret tt
  | (i, _) :: rest =>
      do! _ := notify e (AttachGroup i) (ZfsVolumeAttachGroup vol i) in
      attach_groups e vol rest
  end.

(** The body of the [try] statement. *)
Definition try_block (e : env) (inp : inputs) : M unit :=
  let volume_encrypt := if encryption inp then 1%Z else 0%Z in
  do! _ := attempt e QueryVolumes in
  do! st := get in
  let vols :=
    filter (fun v => vol_name v = volume_name inp) (volumes st) in
  do! _ :=
    match vols with
    | v :: _ => set_locals (Some v) None (Some true)
    | [] =>
        let v := {| vol_id := fresh_id (map vol_id (volumes st));
                    vol_name := volume_name inp;
                    vol_encrypt := volume_encrypt |} in
        do! _ := set_locals None None (Some false) in
        do! _ := set_locals (Some v) None (Some false) in
        do! _ := attempt e SaveVolume in
        set_volumes (fun rows => rows ++ [v])
    end in
  do! st := get in
  match l_volume st, l_add st with
  | Some v, Some true =>
      attach_groups e (vol_name v) (grouped 0 (formset inp))
  | Some v, _ =>
      do! _ := notify e DoCreateVolume
                 (CreateVolume (vol_name v) (encryption_inirand inp)) in
      do! _ :=
        if truthy (dedup inp) then
          notify e SetDedup
            (ZfsSetOption (vol_name v) "dedup" (default "" (dedup inp)))
        else ret tt in
      do! _ := attempt e CreateScrub in
      do! st := get in
      let s := {| scrub_id := fresh_id (map scrub_id (scrubs st));
                  scrub_volume := vol_id v |} in
      do! _ := set_scrubs (fun rows => rows ++ [s]) in
      set_locals (Some v) (Some s) (l_add st)
  | None, _ => ret tt
  end.

(** The [except Exception as e] clause.  [add] is read first: when it is
    not bound yet the clause itself raises. *)
Definition handler (e : env) (exc : exn) : M unit :=
  do! st := get in
  match l_add st with
  | None => raise (UnboundLocalError "add")
  | Some add =>
      do! _ :=
        match negb add, l_volume st with
        | true, Some v =>
            do! _ := notify e DeleteVolume
                       (VolumeDelete (vol_name v) false false) in
            set_volumes (filter (fun row => vol_id row ≠ vol_id v))
        | _, _ => ret tt
        end in
      do! _ :=
        match l_scrub st with
        | Some s =>
            do! _ := notify e DeleteScrub (ScrubDelete (scrub_id s)) in
            set_scrubs (filter (fun row => scrub_id row ≠ scrub_id s))
        | None => ret tt
        end in
      raise exc
  end.

(** The statements after the [try] statement. *)
Definition after_block (e : env) (inp : inputs) : M volume :=
  let volume_encrypt := if encryption inp then 1%Z else 0%Z in
  do! st := get in
  match l_volume st, l_add st with
  | Some v, Some add =>
      do! v :=
        if (2 <=? vol_encrypt v)%Z && add then
          do! _ := notify e DoGeliPassphrase (GeliPassphrase (vol_name v)) in
          let v' := {| vol_id := vol_id v; vol_name := vol_name v;
                       vol_encrypt := 1 |} in
          do! _ := set_locals (Some v') (l_scrub st) (l_add st) in
          do! _ := attempt e SaveEncrypt in
          do! _ := set_volumes
                     (map (fun row => if bool_decide (vol_id row = vol_id v)
                                      then v' else row)) in
          ret v'
        else ret v in
      do! _ :=
        if (0 <? volume_encrypt)%Z && negb (is_freenas e)
           && failover_licensed e
        then notify e DoSyncFileSend (SyncFileSend (vol_name v))
        else ret tt in
      do! _ := notify e ReloadDisk (Reload "disk") in
      do! _ :=
        if negb add then
          do! _ := notify e StartSyslogd (Start "ix-syslogd") in
          notify e RestartSystemDatasets (Restart "system_datasets")
        else ret tt in
      do! _ := notify e RestartCron (Restart "cron") in
      do! _ := attempt e GetSmartd in
      do! _ :=
        if smartd_enabled e then notify e RestartSmartd (Restart "smartd")
        else ret tt in
      ret v
  | _, _ => raise (TypeError "'NoneType' object has no attribute 'vol_encrypt'")
  end.

(** [VolumeManagerForm.save] *)
Definition save (e : env) (inp : inputs) : M volume :=
  do! _ := set_locals None None None in
  do! _ := try_except (try_block e inp) (handler e) in
  after_block e inp.

(** *** Vocabulary of the statements *)

Definition names (st : state) : list string := map vol_name (volumes st).

(** Some operation of the [try] statement raises while a volume is
    created. *)
Definition creation_fails (e : env) (inp : inputs) : bool :=
  fails e QueryVolumes || fails e SaveVolume || fails e DoCreateVolume
  || (truthy (dedup inp) && fails e SetDedup) || fails e CreateScrub.

Definition database (rows : list volume) (srows : list scrub) : state :=
  {| volumes := rows; scrubs := srows; calls := [];
     l_volume := None; l_scrub := None; l_add := None |}.

(** An environment where only the operations of [bad] raise. *)
Definition failing (bad : step -> bool) : env :=
  {| fails := bad; is_freenas := true; failover_licensed := false;
     smartd_enabled := false |}.

Definition new_pool (name : string) : inputs :=
  {| volume_name := name; encryption := false; encryption_inirand := false;
     dedup := None;
     formset := [{| VdevForm.vdevtype := Some "mirror";
                    VdevForm.disks := Some ["da0"; "da1"] |}] |}.

(** The [volume.delete] calls made so far, with their flags. *)
Definition deletions (st : state) : list (string * bool * bool) :=
  omap (fun c => match c with
                 | VolumeDelete vol destroy cascade =>
                     Some (vol, destroy, cascade)
                 | _ => None
                 end) (calls st).

(** Some operation after the [try] statement raises while a volume is
    created. *)
Definition later_fails (e : env) (inp : inputs) : bool :=
  (encryption inp && negb (is_freenas e) && failover_licensed e
   && fails e DoSyncFileSend)
  || fails e ReloadDisk || fails e StartSyslogd
  || fails e RestartSystemDatasets || fails e RestartCron
  || fails e GetSmartd || (smartd_enabled e && fails e RestartSmartd).

(** The state on entry of the [try] statement. *)
Definition entered (st : state) : state :=
  {| volumes := volumes st; scrubs := scrubs st; calls := calls st;
     l_volume := None; l_scrub := None; l_add := None |}.

(** Only the operation [s] raises. *)
Definition only (s : step) : step -> bool :=
  fun t =>
    match s, t with
    | QueryVolumes, QueryVolumes | SaveVolume, SaveVolume
    | DoCreateVolume, DoCreateVolume | SetDedup, SetDedup
    | CreateScrub, CreateScrub | DeleteVolume, DeleteVolume
    | DeleteScrub, DeleteScrub | DoGeliPassphrase, DoGeliPassphrase
    | SaveEncrypt, SaveEncrypt | DoSyncFileSend, DoSyncFileSend
    | ReloadDisk, ReloadDisk | StartSyslogd, StartSyslogd
    | RestartSystemDatasets, RestartSystemDatasets
    | RestartCron, RestartCron | GetSmartd, GetSmartd
    | RestartSmartd, RestartSmartd => true
    | AttachGroup i, AttachGroup j => bool_decide (i = j)
    | _, _ => false
    end.

End VolumeManagerSave.

(** ** The cron job service: [do_update] and [do_delete] *)

Module CronUpdate.
Import Cron.

(** The calls of [do_update] and [do_delete]: those [validate_data] makes,
    the calls of [self.query], and the datastore and service calls. *)
Inductive call : Type :=
| Validation (c : Cron.call)
| Query (id : Z)
| DatastoreUpdate (datastore : string) (id : Z) (data : cron_job)
    (prefix : string)
| DatastoreDelete (datastore : string) (id : Z)
| ServiceRestart (service : string).

(** What lies outside the service: the middleware of [validate_data], and
    what [self.query(filters=[('id', '=', id)], options={'get': True})]
    answers after the calls made so far ([None]: it raises). *)
Record world : Type := {
  mw : middleware;
  query : list call -> Z -> option cron_job
}.

(** [x.update(y)] on one key. *)
Definition over {A : Type} (old new : option A) : option A :=
  match new with
  | Some a => Some a
  | None => old
  end.

(** [task_data.update(data)] *)
Definition dict_update (task_data data : cron_job) : cron_job :=
  {| enabled := over (enabled task_data) (enabled data);
     stderr := over (stderr task_data) (stderr data);
     stdout := over (stdout task_data) (stdout data);
     command := over (command task_data) (command data);
     daymonth := over (daymonth task_data) (daymonth data);
     dayweek := over (dayweek task_data) (dayweek data);
     description := over (description task_data) (description data);
     hour := over (hour task_data) (hour data);
     minute := over (minute task_data) (minute data);
     month := over (month task_data) (month data);
     user := over (user task_data) (user data);
     id := over (id task_data) (id data) |}.

Definition cron_job_eqb (a b : cron_job) : bool :=
  bool_decide (enabled a = enabled b) && bool_decide (stderr a = stderr b)
  && bool_decide (stdout a = stdout b) && bool_decide (command a = command b)
  && bool_decide (daymonth a = daymonth b)
  && bool_decide (dayweek a = dayweek b)
  && bool_decide (description a = description b)
  && bool_decide (hour a = hour b) && bool_decide (minute a = minute b)
  && bool_decide (month a = month b) && bool_decide (user a = user b)
  && bool_decide (id a = id b).

(** How [do_update] ends: with what the last query answered, with the
    validation errors, or with the exception of a query. *)
Inductive outcome : Type :=
| Updated (task : cron_job)
| Raised (verrors : ValidationErrors)
| QueryFailed.

(** [CronJobService.do_update]: the calls made, in order, and the
    outcome.  [len(set(task_data.items()) ^ set(original_data.items())) > 0]
    holds when the two dicts differ. *)
Definition do_update (w : world) (id : Z) (data : cron_job)
  : list call * outcome :=
  match query w [] id with
  | None => ([Query id], QueryFailed)
  | Some task_data =>
      let original_data := task_data in
      let task_data := dict_update task_data data in
      let '(vcalls, verrors, task_data) :=
        validate_data (mw w) task_data "cron_job_update" in
      let calls := Query id :: map Validation vcalls in
      if negb (bool_decide (verrors = [])) then (calls, Raised verrors)
      else
        let calls :=
          if negb (cron_job_eqb task_data original_data) then
            calls ++ [DatastoreUpdate "tasks.cronjob" id task_data "cron_";
                      ServiceRestart "cron"]
          else calls in
        match query w calls id with
        | None => (calls ++ [Query id], QueryFailed)
        | Some task => (calls ++ [Query id], Updated task)
        end
  end.

(** [CronJobService.do_delete]: the calls made, in order; the response of
    [datastore.delete] is handed back as it is. *)
Definition do_delete (id : Z) : list call :=
  [DatastoreDelete "tasks.cronjob" id; ServiceRestart "cron"].

(** Whether a call writes to the datastore or restarts a service. *)
Definition changes_state (c : call) : bool :=
  match c with
  | Validation c => Cron.changes_state c
  | Query _ => false
  | DatastoreUpdate _ _ _ _ => true
  | DatastoreDelete _ _ => true
  | ServiceRestart _ => true
  end.

(** A stored job and a world that always answers with it. *)
Definition stored (dw : option string) : cron_job :=
  {| enabled := Some true; stderr := Some false; stdout := Some false;
     command := Some "true"; daymonth := Some "*"; dayweek := dw;
     description := Some ""; hour := Some "*"; minute := Some "0";
     month := Some "*"; user := Some "root"; id := Some 7%Z |}.

Definition answering (task : cron_job) : world :=
  {| mw := any_user; query := fun _ _ => Some task |}.

(** A patch that sets the week days only. *)
Definition patch (dw : option string) : cron_job :=
  {| enabled := None; stderr := None; stdout := None; command := None;
     daymonth := None; dayweek := dw; description := None; hour := None;
     minute := None; month := None; user := None; id := None |}.

(** A key of the patch is absent or has the stored value. *)
Definition agrees {A : Type} (old new : option A) : Prop :=
  new = None \/ new = old.

(** Every key the patch gives has the stored value. *)
Definition same_fields (task data : cron_job) : Prop :=
  agrees (enabled task) (enabled data) /\ agrees (stderr task) (stderr data)
  /\ agrees (stdout task) (stdout data)
  /\ agrees (command task) (command data)
  /\ agrees (daymonth task) (daymonth data)
  /\ agrees (dayweek task) (dayweek data)
  /\ agrees (description task) (description data)
  /\ agrees (hour task) (hour data) /\ agrees (minute task) (minute data)
  /\ agrees (month task) (month data) /\ agrees (user task) (user data)
  /\ agrees (id task) (id data).

End CronUpdate.

(** ** The volume wizard: [ZFSVolumeWizardForm] *)

Module Wizard.
Import Regex VolumeMixin.

(** [ZFSVolumeWizardForm.clean_volume_name]; [volumes] are the names
    [vol_name] of the rows of [models.Volume]. *)
Definition clean_volume_name (volumes : list string) (vname : string)
  : result string :=
  if negb (bool_decide (vname = "")) && negb (search_anchored NAME vname) then
    Raise (ValidationError pattern_msg)
  else if bool_decide (vname ∈ volumes) then
    Raise (ValidationError exists_msg)
  else Return vname.

(** The choices of [group_type] that [__init__] offers for the disks
    posted. *)
Definition grouptype_choices (disks : list string) : list (string * string) :=
  let grouptype_choices := [("mirror", "mirror"); ("stripe", "stripe")] in
  let grouptype_choices :=
    if (3 <=? length disks)%nat then grouptype_choices ++ [("raidz", "RAID-Z")]
    else grouptype_choices in
  let grouptype_choices :=
    if (4 <=? length disks)%nat
    then grouptype_choices ++ [("raidz2", "RAID-Z2")]
    else grouptype_choices in
  let grouptype_choices :=
    if (5 <=? length disks)%nat
    then grouptype_choices ++ [("raidz3", "RAID-Z3")]
    else grouptype_choices in
  grouptype_choices.

(** The keys of [cleaned_data] that the form's own cleaners read; a key
    is absent when its field failed validation. *)
Record cleaned_data : Type := {
  volume_name : option string;
  volume_add : option string;
  volume_disks : option (list string);
  group_type : option string
}.

(** [ZFSVolumeWizardForm.clean_group_type]; the value of ['group_type']
    is in [cleaned_data] when this cleaner runs. *)
Definition clean_group_type (cd : cleaned_data) (value : string)
  : result string :=
  if negb (bool_decide (is_Some (volume_disks cd)))
     || ((1 <? length (default [] (volume_disks cd)))%nat
         && bool_decide (value = ""))
  then Raise (ValidationError "This field is required.")
  else Return value.

Definition both_msg : string :=
  "You cannot select an existing ZFS volume and specify a new volume name".

Definition neither_msg : string :=
  "You must specify a new volume name or select an existing ZFS volume "
    +:+ "to append a virtual device".

Definition required_msg : string := "This field is required".

(** The form: [cleaned_data] and [_errors]. *)
Record form : Type := {
  cleaned : cleaned_data;
  _errors : gmap string (list string)
}.

Definition set_error (f : form) (key msg : string) : form :=
  {| cleaned := cleaned f; _errors := <[key := [msg]]> (_errors f) |}.

Definition del_volume_disks (f : form) : form :=
  {| cleaned := {| volume_name := volume_name (cleaned f);
                   volume_add := volume_add (cleaned f);
                   volume_disks := None;
                   group_type := group_type (cleaned f) |};
     _errors := _errors f |}.

Definition pop_volume_name (f : form) : form :=
  {| cleaned := {| volume_name := None;
                   volume_add := volume_add (cleaned f);
                   volume_disks := volume_disks (cleaned f);
                   group_type := group_type (cleaned f) |};
     _errors := _errors f |}.

(** [ZFSVolumeWizardForm.clean]; [volumes] are the names of the rows of
    [models.Volume].  The name tested at the end is the new name or, when
    that is empty, the volume chosen to append to. *)
Definition clean (volumes : list string) (f : form) : result form :=
  let cd := cleaned f in
  let volume_name := default "" (volume_name cd) in
  let disks := volume_disks cd in
  let '(f, volume_name) :=
    if negb (bool_decide (volume_name = "")) && truthy (volume_add cd) then
      (set_error f "__all__" both_msg, volume_name)
    else if negb (negb (bool_decide (volume_name = ""))
                  || truthy (volume_add cd)) then
      (set_error f "__all__" neither_msg, volume_name)
    else if bool_decide (volume_name = "") then
      (f, default "" (volume_add cd))
    else (f, volume_name) in
  try! n := len disks in
  let f :=
    if (n =? 0)%nat
       && (length (filter (fun v => v = volume_name) volumes) =? 0)%nat
    then del_volume_disks (set_error f "volume_disks" required_msg)
    else f in
  let f :=
    if bool_decide (volume_name ∈ ["log"]) then
      pop_volume_name (set_error f "volume_name" reserved_msg)
    else if search_start C_DIGIT volume_name || search_start MIRROR volume_name
            || search_start SPARE volume_name
            || search_start RAIDZ volume_name then
      pop_volume_name (set_error f "volume_name" prefix_msg)
    else f in
  Return f.

(** *** Vocabulary of the statements *)

(** The name the form is about: the new name, or the volume to append
    to. *)
Definition effective_name (cd : cleaned_data) : string :=
  if truthy (volume_name cd) then default "" (volume_name cd)
  else default "" (volume_add cd).

Definition reserved (name : string) : Prop :=
  name = "log" \/ starts_with_c_digit name \/ starts_with "mirror" name
  \/ starts_with "spare" name \/ starts_with "raidz" name.

Definition blank (disks : list string) : form :=
  {| cleaned := {| volume_name := Some "tank"; volume_add := None;
                   volume_disks := Some disks; group_type := Some "" |};
     _errors := ∅ |}.

End Wizard.

(** ** Datasets and zvols: names, record size, block size *)

Module Dataset.
Import Regex.

Definition alnum (c : ascii) : bool := lower_az c || upper_az c || digit c.

(** The set [[a-zA-Z0-9_\-:. ]]. *)
Definition dataset_set (c : ascii) : bool :=
  alnum c || Ascii.eqb c "_" || Ascii.eqb c "-" || Ascii.eqb c ":"
  || Ascii.eqb c "." || Ascii.eqb c " ".

(** The set [[a-zA-Z0-9_\-:.]]. *)
Definition zvol_set (c : ascii) : bool :=
  alnum c || Ascii.eqb c "_" || Ascii.eqb c "-" || Ascii.eqb c ":"
  || Ascii.eqb c ".".

(** [^[a-zA-Z0-9][a-zA-Z0-9_\-:. ]*$] and [^[a-zA-Z0-9][a-zA-Z0-9_\-:.]*$],
    without their anchors. *)
Definition DATASET_NAME : re := Cat (Class alnum) (Star (Class dataset_set)).
Definition ZVOL_NAME : re := Cat (Class alnum) (Star (Class zvol_set)).

Definition dataset_name_msg : string :=
  "Dataset names must begin with an alphanumeric character and may only "
    +:+ "contain " +:+ VolumeMixin.dq +:+ "-" +:+ VolumeMixin.dq +:+ ", "
    +:+ VolumeMixin.dq +:+ "_" +:+ VolumeMixin.dq +:+ ", "
    +:+ VolumeMixin.dq +:+ ":" +:+ VolumeMixin.dq +:+ ", "
    +:+ VolumeMixin.dq +:+ " " +:+ VolumeMixin.dq +:+ " and "
    +:+ VolumeMixin.dq +:+ "." +:+ VolumeMixin.dq +:+ ".".

Definition zvol_name_msg : string :=
  "ZFS Volume names must begin with an alphanumeric character and may "
    +:+ "only contain (-), (_), (:) and (.).".

(** [ZFSDatasetCommonForm.clean_dataset_name] *)
Definition clean_dataset_name (name : string) : result string :=
  if negb (search_anchored DATASET_NAME name) then
    Raise (ValidationError dataset_name_msg)
  else Return name.

(** [ZVol_CreateForm.clean_zvol_name] *)
Definition clean_zvol_name (name : string) : result string :=
  if negb (search_anchored ZVOL_NAME name) then
    Raise (ValidationError zvol_name_msg)
  else Return name.

(** How [clean_dataset_recordsize] ends: it returns ['inherit'] or an
    integer, raises [ValidationError], or lets the [ValueError] of the
    second [int] through. *)
Inductive recordsize : Type :=
| Inherit
| Bytes (n : Z)
| Invalid (msg : string)
| ValueError.

(** [rs[:-1]] and [rs[-1]] of a non-empty string. *)
Definition but_last (s : string) : string :=
  String.string_of_list_ascii
    (reverse (tail (reverse (String.list_ascii_of_string s)))).

Definition last_char (s : string) : option ascii :=
  head (reverse (String.list_ascii_of_string s)).

(** [ZFSDatasetCommonForm.clean_dataset_recordsize], from the value of
    ['dataset_recordsize'] in [cleaned_data]. *)
Definition clean_dataset_recordsize (rs : option string) : recordsize :=
  if negb (truthy rs) || bool_decide (rs = Some "inherit") then Inherit
  else
    let rs := default "" rs in
    match PyStr.int rs with
    | Some n => Bytes n
    | None =>
        if bool_decide (to_lower <$> last_char rs = Some "k"%char) then
          match PyStr.int (but_last rs) with
          | Some n => Bytes (n * 1024)
          | None => ValueError
          end
        else Invalid "invalid recordsize provided"
    end.

(** [(n).bit_length()]: the number of bits of the absolute value. *)
Definition bit_length (n : Z) : Z :=
  if (n =? 0)%Z then 0%Z else (Z.log2 (Z.abs n) + 1)%Z.

(** The loop of [ZVol_CreateForm.__init__] over [zpool.data]:
    [len(list(iter(vdev)))] is the number of devices of the vdev. *)
Fixpoint count_disks (numdisks : Z) (data : list VdevFormSet.pool_vdev) : Z :=
  match data with
  | [] => numdisks
  | vdev :: rest =>
      let type := VdevFormSet.vdev_type vdev in
      let devs := Z.of_nat (length (VdevFormSet.vdev_devs vdev)) in
      if bool_decide (type ∈ ["cache"; "spare"; "log"; "log mirror"]) then
        count_disks numdisks rest
      else
        let num :=
          if bool_decide (type = "raidz") then (devs - 1)%Z
          else if bool_decide (type = "raidz2") then (devs - 2)%Z
          else if bool_decide (type = "raidz3") then (devs - 3)%Z
          else if bool_decide (type = "mirror") then 1%Z
          else devs in
        count_disks (if (numdisks <? num)%Z then num else numdisks) rest
  end.

(** The number in [size = '%dK' % 2 ** ((numdisks * 4) - 1).bit_length()],
    and the local [size] itself. *)
Definition blocksize_k (data : list VdevFormSet.pool_vdev) : Z :=
  let numdisks := count_disks 4 data in
  (2 ^ bit_length (numdisks * 4 - 1))%Z.

Definition blocksize (data : list VdevFormSet.pool_vdev) : string :=
  pretty (blocksize_k data) +:+ "K".

(** What the last statement of [ZVol_CreateForm.__init__] does to
    [self.fields['zvol_blocksize'].initial]: [Some size] when it is set,
    [None] when it is left alone.  [ZFS_VOLBLOCKSIZE] is the tuple of
    pairs of the module [choices]. *)
Definition initial_blocksize (ZFS_VOLBLOCKSIZE : list (string * string))
    (data : list VdevFormSet.pool_vdev) : option string :=
  let size := blocksize data in
  if bool_decide (size ∈ map fst ZFS_VOLBLOCKSIZE) then Some size else None.

(** *** Vocabulary of the statements *)

(** An alphanumeric character followed by characters of the set. *)
Definition name_shape (p : ascii -> bool) (cs : list ascii) : Prop :=
  exists c rest, cs = c :: rest /\ alnum c = true /\
                 Forall (fun x => p x = true) rest.

(** What the anchored pattern accepts: a name of the shape, or one
    followed by a single newline. *)
Definition matches (p : ascii -> bool) (s : string) : Prop :=
  name_shape p (String.list_ascii_of_string s) \/
  exists body, String.list_ascii_of_string s = body ++ [newline] /\
               name_shape p body.

(** The data disks of a vdev, as the loop counts them. *)
Definition data_disks (vdev : VdevFormSet.pool_vdev) : Z :=
  let type := VdevFormSet.vdev_type vdev in
  let devs := Z.of_nat (length (VdevFormSet.vdev_devs vdev)) in
  if bool_decide (type = "raidz") then (devs - 1)%Z
  else if bool_decide (type = "raidz2") then (devs - 2)%Z
  else if bool_decide (type = "raidz3") then (devs - 3)%Z
  else if bool_decide (type = "mirror") then 1%Z
  else devs.

Definition is_data (vdev : VdevFormSet.pool_vdev) : Prop :=
  VdevFormSet.vdev_type vdev ∉ ["cache"; "spare"; "log"; "log mirror"].

End Dataset.

(** ** Dataset forms: from the cleaned data to ZFS properties *)

Module DatasetForm.
Import Dataset.

(** A value of the dict [props]: [None], a string, or the integer
    [clean_dataset_recordsize] returns. *)
Inductive prop_value : Type :=
| PNone
| PStr (s : string)
| PInt (n : Z).

(** [if value:] *)
Definition prop_truthy (v : prop_value) : bool :=
  match v with
  | PNone => false
  | PStr s => negb (bool_decide (s = ""))
  | PInt n => negb (n =? 0)%Z
  end.

Definition of_option (o : option string) : prop_value :=
  match o with
  | Some s => PStr s
  | None => PNone
  end.

Definition zfs_size_fields : list string :=
  ["quota"; "refquota"; "reservation"; "refreservation"].

Definition other_props : list string :=
  ["org.freenas:description"; "sync"; "compression"; "atime"; "dedup";
   "aclmode"; "recordsize"; "casesensitivity"; "readonly"; "exec"].

(** [props[prop] = value] on a dict kept in insertion order: a key that
    is there keeps its place. *)
Fixpoint dict_set (props : list (string * prop_value)) (prop : string)
    (value : prop_value) : list (string * prop_value) :=
  match props with
  | [] => [(prop, value)]
  | (k, v) :: rest =>
      if bool_decide (k = prop) then (k, value) :: rest
      else (k, v) :: dict_set rest prop value
  end.

(** [props.get(prop)] *)
Fixpoint dict_get (props : list (string * prop_value)) (prop : string)
  : option prop_value :=
  match props with
  | [] => None
  | (k, v) :: rest => if bool_decide (k = prop) then Some v
                      else dict_get rest prop
  end.

(** The first loop of [clean_data_to_props]. *)
Fixpoint size_props (cleaned_data : gmap string string)
    (props : list (string * prop_value)) (fields : list string)
  : list (string * prop_value) :=
  match fields with
  | [] => props
  | prop :: rest =>
      let value := cleaned_data !! ("dataset_" +:+ prop) in
      let value :=
        if truthy value && bool_decide (value = Some "0") then Some "none"
        else value in
      size_props cleaned_data (dict_set props prop (of_option value)) rest
  end.

(** How [clean_data_to_props] ends: with a value, or with an exception
    of [clean_dataset_recordsize]. *)
Inductive ending (A : Type) : Type :=
| Done (a : A)
| Invalid (msg : string)
| ValueError.
Arguments Done {A} a.
Arguments Invalid {A} msg.
Arguments ValueError {A}.

(** The value the second loop reads for [prop]. *)
Definition prop_source (cleaned_data : gmap string string) (prop : string)
  : ending prop_value :=
  if bool_decide (prop = "org.freenas:description") then
    Done (of_option (cleaned_data !! "dataset_comments"))
  else if bool_decide (prop = "recordsize") then
    match clean_dataset_recordsize (cleaned_data !! "dataset_recordsize") with
    | Inherit => Done (PStr "inherit")
    | Bytes n => Done (PInt n)
    | Dataset.Invalid msg => Invalid msg
    | Dataset.ValueError => ValueError
    end
  else if bool_decide (prop = "casesensitivity") then
    Done (of_option (cleaned_data !! "dataset_case_sensitivity"))
  else Done (of_option (cleaned_data !! ("dataset_" +:+ prop))).

(** The second loop of [clean_data_to_props]. *)
Fixpoint more_props (cleaned_data : gmap string string)
    (props : list (string * prop_value)) (names : list string)
  : ending (list (string * prop_value)) :=
  match names with
  | [] => Done props
  | prop :: rest =>
      match prop_source cleaned_data prop with
      | Done value =>
          more_props cleaned_data
            (if prop_truthy value then dict_set props prop value else props)
            rest
      | Invalid msg => Invalid msg
      | ValueError => ValueError
      end
  end.

(** [ZFSDatasetCommonForm.clean_data_to_props] *)
Definition clean_data_to_props (cleaned_data : gmap string string)
  : ending (list (string * prop_value)) :=
  more_props cleaned_data (size_props cleaned_data [] zfs_size_fields)
    other_props.

(** The notifier's calls of [ZFSDatasetEditForm.save]. *)
Inductive call : Type :=
| ZfsInheritOption (name item : string)
| ZfsSetOption (name item : string) (value : prop_value)
| ChangeDatasetShareType (name : string) (share_type : option string).

(** What the notifier answers to a call: [(success, msg)]. *)
Definition notifier : Type := call -> bool * string.

(** The state of the loop of [save]: the calls made, [error] and
    [errors]. *)
Record progress : Type := {
  calls : list call;
  error : bool;
  errors : list (string * string)
}.

(** [errors[field] = msg] on a dict kept in insertion order. *)
Fixpoint errors_set (errors : list (string * string)) (field msg : string)
  : list (string * string) :=
  match errors with
  | [] => [(field, msg)]
  | (k, v) :: rest =>
      if bool_decide (k = field) then (k, msg) :: rest
      else (k, v) :: errors_set rest field msg
  end.

(** [value == 'inherit'] *)
Definition is_inherit (value : prop_value) : bool :=
  match value with
  | PStr s => bool_decide (s = "inherit")
  | _ => false
  end.

(** The loop [for item, value in props.items()]. *)
Fixpoint set_options (n : notifier) (name : string)
    (props : list (string * prop_value)) (p : progress) : progress :=
  match props with
  | [] => p
  | (item, value) :: rest =>
      let c :=
        if is_inherit value then ZfsInheritOption name item
        else ZfsSetOption name item value in
      let '(success, msg) := n c in
      let error := error p || negb success in
      set_options n name rest
        (if negb success then
           {| calls := calls p ++ [c]; error := true;
              errors := errors_set (errors p) ("dataset_" +:+ item) msg |}
         else {| calls := calls p ++ [c]; error := error;
                 errors := errors p |})
  end.

(** [ZFSDatasetEditForm.save], once [clean_data_to_props] gave [props]:
    the calls made, the form's [_errors] and the value returned. *)
Definition save (n : notifier) (name : string)
    (cleaned_data : gmap string string)
    (props : list (string * prop_value))
    (_errors : gmap string (list string))
  : list call * gmap string (list string) * bool :=
  let p := set_options n name props
             {| calls := []; error := false; errors := [] |} in
  let calls :=
    calls p ++ [ChangeDatasetShareType name
                  (cleaned_data !! "dataset_share_type")] in
  let _errors :=
    fold_left (fun errs '(field, err) => <[field := [err]]> errs)
      (errors p) _errors in
  (calls, _errors, negb (error p)).

(** *** Vocabulary of the statements *)

(** The call [save] makes for one property. *)
Definition option_call (name : string) (entry : string * prop_value) : call :=
  if is_inherit entry.2 then ZfsInheritOption name entry.1
  else ZfsSetOption name entry.1 entry.2.

(** The notifier that refuses the properties of [bad]. *)
Definition refusing (bad : list string) : notifier :=
  fun c =>
    match c with
    | ZfsInheritOption _ item | ZfsSetOption _ item _ =>
        if bool_decide (item ∈ bad) then (false, "refused") else (true, "")
    | ChangeDatasetShareType _ _ => (true, "")
    end.

End DatasetForm.

(** ** Editing disks in bulk: [DiskEditBulkForm] *)

Module DiskBulk.

(** The attributes of a [models.Disk] row the form reads and writes. *)
Record disk : Type := {
  disk_name : string;
  disk_hddstandby : string;
  disk_advpowermgmt : string;
  disk_acousticlevel : string;
  disk_togglesmart : bool;
  disk_smartoptions : string
}.

(** The dict [initials] of [__init__]; a key is absent until the first
    disk sets it. *)
Record initials : Type := {
  i_hddstandby : option string;
  i_advpowermgmt : option string;
  i_acousticlevel : option string;
  i_smartoptions : option string;
  i_togglesmart : option bool
}.

(** One key of the first loop: set by the first disk, emptied by a disk
    that differs. *)
Definition merge (initial : option string) (value : string) : option string :=
  match initial with
  | None => Some value
  | Some current =>
      if negb (bool_decide (current = value)) then Some "" else Some current
  end.

(** The key ['disk_togglesmart']: a disk that differs turns it on. *)
Definition merge_smart (initial : option bool) (value : bool) : option bool :=
  match initial with
  | None => Some value
  | Some current =>
      if negb (Bool.eqb current value) then Some true else Some current
  end.

Definition init_step (i : initials) (d : disk) : initials :=
  {| i_hddstandby := merge (i_hddstandby i) (disk_hddstandby d);
     i_advpowermgmt := merge (i_advpowermgmt i) (disk_advpowermgmt d);
     i_acousticlevel := merge (i_acousticlevel i) (disk_acousticlevel d);
     i_smartoptions := merge (i_smartoptions i) (disk_smartoptions d);
     i_togglesmart := merge_smart (i_togglesmart i) (disk_togglesmart d) |}.

(** The loop of [DiskEditBulkForm.__init__] over [self._disks]. *)
Definition bulk_initials (disks : list disk) : initials :=
  fold_left init_step disks
    {| i_hddstandby := None; i_advpowermgmt := None; i_acousticlevel := None;
       i_smartoptions := None; i_togglesmart := None |}.

(** [cleaned_data] of a valid form: every key is there, an empty choice
    is the empty string. *)
Record cleaned_data : Type := {
  c_hddstandby : string;
  c_advpowermgmt : string;
  c_acousticlevel : string;
  c_togglesmart : bool;
  c_smartoptions : string
}.

(** [if self.cleaned_data.get(opt): setattr(disk, opt, ...)] *)
Definition set_if (value current : string) : string :=
  if negb (bool_decide (value = "")) then value else current.

(** The body of the loop of [DiskEditBulkForm.save] for one disk. *)
Definition save_disk (cd : cleaned_data) (d : disk) : disk :=
  {| disk_name := disk_name d;
     disk_hddstandby := set_if (c_hddstandby cd) (disk_hddstandby d);
     disk_advpowermgmt := set_if (c_advpowermgmt cd) (disk_advpowermgmt d);
     disk_acousticlevel := set_if (c_acousticlevel cd) (disk_acousticlevel d);
     disk_togglesmart := c_togglesmart cd;
     disk_smartoptions := c_smartoptions cd |}.

(** [DiskEditBulkForm.save]: the disks as saved and returned. *)
Definition save (cd : cleaned_data) (disks : list disk) : list disk :=
  map (save_disk cd) disks.

(** *** Vocabulary of the statements *)

(** The form posted as it was shown: every field holds its initial
    value. *)
Definition untouched (i : initials) : cleaned_data :=
  {| c_hddstandby := default "" (i_hddstandby i);
     c_advpowermgmt := default "" (i_advpowermgmt i);
     c_acousticlevel := default "" (i_acousticlevel i);
     c_togglesmart := default true (i_togglesmart i);
     c_smartoptions := default "" (i_smartoptions i) |}.

(** All the disks have the same value of an attribute. *)
Definition agree {A : Type} (attr : disk -> A) (disks : list disk) : Prop :=
  forall d d', d ∈ disks -> d' ∈ disks -> attr d = attr d'.

Definition a_disk (name standby options : string) (smart : bool) : disk :=
  {| disk_name := name; disk_hddstandby := standby; disk_advpowermgmt := "";
     disk_acousticlevel := ""; disk_togglesmart := smart;
     disk_smartoptions := options |}.

End DiskBulk.

(** ** Passphrases: [ChangePassphraseForm.clean] *)

Module Passphrase.

(** [ChangePassphraseForm.clean], on [self._errors]; [remove] is the
    truth value of [cdata.get("remove")].  [del] raises [KeyError] on a
    key that is not there. *)
Definition clean (remove : bool) (_errors : gmap string (list string))
  : result (gmap string (list string)) :=
  if remove then
    match _errors !! "passphrase" with
    | None => Raise (KeyError "passphrase")
    | Some _ =>
        let _errors := delete "passphrase" _errors in
        match _errors !! "passphrase2" with
        | None => Raise (KeyError "passphrase2")
        | Some _ => Return (delete "passphrase2" _errors)
        end
    end
  else Return _errors.

End Passphrase.

(** ** Scrub schedules: [ScrubForm] *)

Module Scrub.

(** [sep.join(items)] *)
Fixpoint join (sep : string) (items : list string) : string :=
  match items with
  | [] => ""
  | [item] => item
  | item :: rest => item +:+ sep +:+ join sep rest
  end.

(** [ScrubForm.clean_scrub_month], from [self.data.getlist('scrub_month')]. *)
Definition clean_scrub_month (m : list string) : string :=
  if (length m =? 12)%nat then "*" else join "," m.

(** [ScrubForm.clean_scrub_dayweek], from
    [self.data.getlist('scrub_dayweek')]. *)
Definition clean_scrub_dayweek (w : list string) : string :=
  if (length w =? 7)%nat then "*" else join "," w.

End Scrub.

(** ** The volume manager: [VolumeManagerForm.clean] *)

Module ManagerClean.

Record cleaned_data : Type := {
  volume_name : option string;
  volume_add : option string
}.

Definition missing_msg : string :=
  "You must specify a new volume name or select an existing ZFS volume "
    +:+ "to append a virtual device".

(** [a or b] on values that may be [None] or empty. *)
Definition or_else (a b : option string) : option string :=
  if truthy a then a else b.

(** [VolumeManagerForm.clean]: [cleaned_data] and [_errors] as the call
    leaves them. *)
Definition clean (cd : cleaned_data) (_errors : gmap string (list string))
  : cleaned_data * gmap string (list string) :=
  let vname := or_else (volume_name cd) (volume_add cd) in
  if negb (truthy vname) then
    (cd, <["__all__" := [missing_msg]]> _errors)
  else
    ({| volume_name := vname; volume_add := volume_add cd |}, _errors).

End ManagerClean.

(** ** The volume wizard: [ZFSVolumeWizardForm.done] *)

Module WizardDone.
Import VolumeManager.

(** A value of [grouped]: [{'type': ..., 'disks': [...]}]. *)
Record group : Type := {
  g_type : string;
  g_disks : list string
}.

(** [zpoolfields.match(i)] and [zpoolfields.search(i).group(1)] for
    [zpool_(.+)]: the characters after the prefix, up to a newline; there
    must be one at least. *)
Definition zpool_disk (i : string) : option string :=
  let cs := String.list_ascii_of_string i in
  let prefix := String.list_ascii_of_string "zpool_" in
  if bool_decide (take (length prefix) cs = prefix) then
    match fst (ZfsSize.span Regex.dot (drop (length prefix) cs)) with
    | [] => None
    | disk => Some (String.string_of_list_ascii disk)
    end
  else None.

(** [gtype in grouped] and the two updates of the loop, on a dict kept
    in insertion order. *)
Fixpoint has_key (grouped : list (string * group)) (key : string) : bool :=
  match grouped with
  | [] => false
  | (k, _) :: rest => bool_decide (k = key) || has_key rest key
  end.

Fixpoint add_disk (grouped : list (string * group)) (gtype disk : string)
  : list (string * group) :=
  match grouped with
  | [] => []
  | (k, g) :: rest =>
      if bool_decide (k = gtype) then
        (k, {| g_type := if bool_decide (gtype = "log") then "log mirror"
                         else g_type g;
               g_disks := g_disks g ++ [disk] |}) :: rest
      else (k, g) :: add_disk rest gtype disk
  end.

Fixpoint get_group (grouped : list (string * group)) (key : string)
  : option group :=
  match grouped with
  | [] => None
  | (k, g) :: rest => if bool_decide (k = key) then Some g
                      else get_group rest key
  end.

(** The loop over [request.POST.items()]. *)
Fixpoint group_fields (grouped : list (string * group))
    (post : list (string * string)) : list (string * group) :=
  match post with
  | [] => grouped
  | (i, gtype) :: rest =>
      match zpool_disk i with
      | None => group_fields grouped rest
      | Some disk =>
          if bool_decide (gtype = "none") then group_fields grouped rest
          else if has_key grouped gtype then
            group_fields (add_disk grouped gtype disk) rest
          else
            group_fields
              (grouped ++ [(gtype, {| g_type := gtype; g_disks := [disk] |})])
              rest
      end
  end.

(** The calls [done] makes on the notifier, on the rows and on the
    parent class. *)
Inductive call : Type :=
| ZfsVolumeAttachGroup (vol key : string) (g : option group)
| CreateVolume (vol : string) (groups : list (string * group))
    (init_rand : bool)
| ZfsSetOption (vol name value : string)
| ZpoolEnclosureSync (vol : string)
| VolumeDelete (vol : string) (destroy cascade : bool)
| ScrubDelete (id : nat)
| Reload (what : string)
| Restart (what : string)
| SuperDone.

(** The operations that may raise. *)
Inductive step : Type :=
| QueryVolumes
| SaveVolume
| Attach (key : string)
| DoCreateVolume
| SetDedup
| CreateScrub
| EnclosureSync
| DeleteVolume
| DeleteScrub
| ReloadDisk
| RestartCron
| DoSuperDone.

Definition step_name (s : step) : string :=
  match s with
  | QueryVolumes => "Volume.objects.filter"
  | SaveVolume => "volume.save"
  | Attach _ => "zfs_volume_attach_group"
  | DoCreateVolume => "create_volume"
  | SetDedup => "zfs_set_option"
  | CreateScrub => "Scrub.objects.create"
  | EnclosureSync => "zpool_enclosure_sync"
  | DeleteVolume => "volume.delete"
  | DeleteScrub => "scrub.delete"
  | ReloadDisk => "reload"
  | RestartCron => "restart"
  | DoSuperDone => "done"
  end.

(** [self.cleaned_data] of a valid form, with [volume_name] standing for
    [cleaned_data.get("volume_name") or cleaned_data.get("volume_add")],
    and [request.POST.items()]. *)
Record inputs : Type := {
  volume_name : string;
  volume_disks : list string;
  group_type : string;
  enc : bool;
  encini : bool;
  dedup : option string;
  post : list (string * string)
}.

(** The database, the calls made so far, and the local variables
    [volume], [scrub] and [add]. *)
Record state : Type := {
  volumes : list volume;
  scrubs : list scrub;
  calls : list call;
  l_volume : option volume;
  l_scrub : option scrub;
  l_add : option bool
}.

Definition M (A : Type) : Type := state -> state * result A.

Definition ret {A : Type} (a : A) : M A := fun st => (st, Return a).

Definition raise {A : Type} (e : exn) : M A := fun st => (st, Raise e).

Definition mbind {A B : Type} (m : M A) (k : A -> M B) : M B :=
  fun st =>
    match m st with
    | (st', Return a) => k a st'
    | (st', Raise e) => (st', Raise e)
    end.

(** [try: body except Exception: handler] *)
Definition try_except {A : Type} (body : M A) (handler : exn -> M A) : M A :=
  fun st =>
    match body st with
    | (st', Return a) => (st', Return a)
    | (st', Raise e) => handler e st'
    end.

Definition get : M state := fun st => (st, Return st).

Definition update (f : state -> state) : M unit := fun st => (f st, Return tt).

End WizardDone.

Notation "'run!' x ':=' m 'in' k" := (WizardDone.mbind m (fun x => k))
(at level 10, x pattern, m at level 100, k at level 200).

Module WizardDoneRun.
Import VolumeManager WizardDone.

Definition attempt (fails : step -> bool) (s : step) : M unit :=
  fun st =>
    if fails s then (st, Raise (ExternalError (step_name s)))
    else (st, Return tt).

(** A call that raises or is made. *)
Definition notify (fails : step -> bool) (s : step) (c : call) : M unit :=
  run! _ := attempt fails s in
  update (fun st =>
    {| volumes := volumes st; scrubs := scrubs st; calls := calls st ++ [c];
       l_volume := l_volume st; l_scrub := l_scrub st; l_add := l_add st |}).

Definition set_locals (v : option volume) (s : option scrub) (a : option bool)
  : M unit :=
  update (fun st =>
    {| volumes := volumes st; scrubs := scrubs st; calls := calls st;
       l_volume := v; l_scrub := s; l_add := a |}).

Definition set_volumes (f : list volume -> list volume) : M unit :=
  update (fun st =>
    {| volumes := f (volumes st); scrubs := scrubs st; calls := calls st;
       l_volume := l_volume st; l_scrub := l_scrub st; l_add := l_add st |}).

Definition set_scrubs (f : list scrub -> list scrub) : M unit :=
  update (fun st =>
    {| volumes := volumes st; scrubs := f (scrubs st); calls := calls st;
       l_volume := l_volume st; l_scrub := l_scrub st; l_add := l_add st |}).

(** [for grp_type in grouped: if grp_type in ('log', 'cache', 'spare')] *)
Fixpoint attach_aux (fails : step -> bool) (vol : string)
    (grouped keys : list (string * group)) : M unit :=
  match keys with
  | [] => ret tt
  | (grp_type, _) :: rest =>
      run! _ :=
        if bool_decide (grp_type ∈ ["log"; "cache"; "spare"]) then
          notify fails (Attach grp_type)
            (ZfsVolumeAttachGroup vol grp_type (get_group grouped grp_type))
        else ret tt in
      attach_aux fails vol grouped rest
  end.

(** The local [group_type], set before the [try] statement. *)
Definition root_type (inp : inputs) : string :=
  if (length (volume_disks inp) <? 2)%nat then "stripe" else group_type inp.

(** The local [grouped] once the loop over the posted fields is over. *)
Definition grouped (inp : inputs) : list (string * group) :=
  group_fields
    [("root", {| g_type := root_type inp; g_disks := volume_disks inp |})]
    (post inp).

(** The body of the [try] statement. *)
Definition try_block (fails : step -> bool) (inp : inputs) : M unit :=
  let volume_encrypt := if enc inp then 1%Z else 0%Z in
  run! _ := attempt fails QueryVolumes in
  run! st := get in
  let vols :=
    filter (fun v => vol_name v = volume_name inp) (volumes st) in
  run! _ :=
    match vols with
    | [v] => set_locals (Some v) None (Some true)
    | _ =>
        let v := {| vol_id := VolumeManagerSave.fresh_id
                                (map vol_id (volumes st));
                    vol_name := volume_name inp;
                    vol_encrypt := volume_encrypt |} in
        run! _ := set_locals None None (Some false) in
        run! _ := set_locals (Some v) None (Some false) in
        run! _ := attempt fails SaveVolume in
        set_volumes (fun rows => rows ++ [v])
    end in
  let grouped := grouped inp in
  let disk_list := g_disks <$> get_group grouped "root" in
  run! st := get in
  match l_volume st, l_add st with
  | Some v, Some true =>
      run! _ :=
        if (0 <? length (default [] disk_list))%nat then
          notify fails (Attach "root")
            (ZfsVolumeAttachGroup (vol_name v) "root"
               (get_group grouped "root"))
        else ret tt in
      attach_aux fails (vol_name v) grouped grouped
  | Some v, _ =>
      run! _ := notify fails DoCreateVolume
                  (CreateVolume (vol_name v) grouped (encini inp)) in
      run! _ :=
        if truthy (dedup inp) then
          notify fails SetDedup
            (ZfsSetOption (vol_name v) "dedup" (default "" (dedup inp)))
        else ret tt in
      run! _ := attempt fails CreateScrub in
      run! st := get in
      let s := {| scrub_id := VolumeManagerSave.fresh_id
                                (map scrub_id (scrubs st));
                  scrub_volume := vol_id v |} in
      run! _ := set_scrubs (fun rows => rows ++ [s]) in
      run! _ := set_locals (Some v) (Some s) (l_add st) in
      try_except
        (notify fails EnclosureSync (ZpoolEnclosureSync (vol_name v)))
        (fun e => ret tt)
  | None, _ => ret tt
  end.

(** The [except Exception] clause: the row is deleted whenever [volume]
    is set, and the exception is raised again. *)
Definition handler (fails : step -> bool) (exc : exn) : M unit :=
  run! st := get in
  run! _ :=
    match l_volume st with
    | Some v =>
        run! _ := notify fails DeleteVolume
                    (VolumeDelete (vol_name v) false false) in
        set_volumes (filter (fun row => vol_id row ≠ vol_id v))
    | None => ret tt
    end in
  run! _ :=
    match l_scrub st with
    | Some s =>
        run! _ := notify fails DeleteScrub (ScrubDelete (scrub_id s)) in
        set_scrubs (filter (fun row => scrub_id row ≠ scrub_id s))
    | None => ret tt
    end in
  raise exc.

(** The statements after the [try] statement. *)
Definition after_try (fails : step -> bool) : M unit :=
  run! _ := notify fails ReloadDisk (Reload "disk") in
  run! _ := notify fails RestartCron (Restart "cron") in
  notify fails DoSuperDone SuperDone.

(** [ZFSVolumeWizardForm.done] *)
Definition done (fails : step -> bool) (inp : inputs) : M unit :=
  run! _ := set_locals None None None in
  run! _ := try_except (try_block fails inp) (handler fails) in
  after_try fails.

(** *** Vocabulary of the statements *)

Definition names (st : state) : list string := map vol_name (volumes st).

(** The [volume.delete] calls made so far, with their flags. *)
Definition deletions (st : state) : list (string * bool * bool) :=
  omap (fun c => match c with
                 | VolumeDelete vol destroy cascade =>
                     Some (vol, destroy, cascade)
                 | _ => None
                 end) (calls st).

Definition database (rows : list volume) : state :=
  {| volumes := rows; scrubs := []; calls := [];
     l_volume := None; l_scrub := None; l_add := None |}.

(** The disks that the posted fields [zpool_<disk>] give to the group
    [key]. *)
Definition disks_of (post : list (string * string)) (key : string)
  : list string :=
  omap (fun '(i, gtype) =>
          if bool_decide (gtype = key) && negb (bool_decide (gtype = "none"))
          then zpool_disk i else None) post.

(** One of the attach calls of the loop over [keys] raises. *)
Definition aux_fails (fails : step -> bool) (keys : list (string * group))
  : bool :=
  existsb (fun '(key, _) =>
             bool_decide (key ∈ ["log"; "cache"; "spare"])
             && fails (Attach key)) keys.

(** One of the attach calls of the append branch raises. *)
Definition attach_fails (fails : step -> bool) (inp : inputs) : bool :=
  ((0 <? length (default [] (g_disks <$> get_group (grouped inp) "root")))%nat
   && fails (Attach "root"))
  || aux_fails fails (grouped inp).

(** One of the operations of the creation branch that are not guarded
    raises. *)
Definition creation_fails (fails : step -> bool) (inp : inputs) : bool :=
  fails SaveVolume || fails DoCreateVolume
  || (truthy (dedup inp) && fails SetDedup) || fails CreateScrub.

(** One of the operations after the [try] statement raises. *)
Definition closing_fails (fails : step -> bool) : bool :=
  fails ReloadDisk || fails RestartCron || fails DoSuperDone.

(** Only the operation [s] raises. *)
Definition only (s : step) : step -> bool :=
  fun t =>
    match s, t with
    | QueryVolumes, QueryVolumes | SaveVolume, SaveVolume
    | DoCreateVolume, DoCreateVolume | SetDedup, SetDedup
    | CreateScrub, CreateScrub | EnclosureSync, EnclosureSync
    | DeleteVolume, DeleteVolume | DeleteScrub, DeleteScrub
    | ReloadDisk, ReloadDisk | RestartCron, RestartCron
    | DoSuperDone, DoSuperDone => true
    | Attach i, Attach j => bool_decide (i = j)
    | _, _ => false
    end.

Definition wizard_pool (name : string) (disks : list string) : inputs :=
  {| volume_name := name; volume_disks := disks; group_type := "mirror";
     enc := false; encini := false; dedup := None; post := [] |}.

End WizardDoneRun.

(** * Properties *)

(** ** Vdev rows *)

Module VdevFormProofs.
Import VdevForm.

Ltac ltb_cases :=
  repeat match goal with
    | |- context [(?a <? ?b)%nat] => destruct (Nat.ltb_spec a b)
    end.

Example clean_disks_mirror_one :
  clean_disks (Some "mirror") ["ada0"]
  = Raise (ValidationError "You need at least 2 disks").
Proof. reflexivity. Qed.

Example clean_disks_raidz3_five :
  clean_disks (Some "raidz3") ["da0"; "da1"; "da2"; "da3"; "da4"]
  = Return ["da0"; "da1"; "da2"; "da3"; "da4"].
Proof. reflexivity. Qed.

Lemma min_disks_spec_table :
  min_disks_spec (Some "mirror") = Some 2 /\
  min_disks_spec (Some "raidz") = Some 3 /\
  min_disks_spec (Some "raidz2") = Some 4 /\
  min_disks_spec (Some "raidz3") = Some 5 /\
  Forall (fun t => min_disks_spec (Some t) = None)
    ["stripe"; "log"; "cache"; "spare"; "log mirror"] /\
  min_disks_spec None = None.
Proof. repeat split; repeat constructor. Qed.

Lemma clean_disks_unfold vdev (disks : list string) :
  clean_disks vdev disks =
  match min_disks_spec vdev with
  | Some n =>
      if (length disks <? n)%nat then Raise (ValidationError (errmsg n))
      else Return disks
  | None => Return disks
  end.
Proof.
  unfold clean_disks, min_disks_spec.
  repeat (case_bool_decide; simplify_eq; simpl; try done).
Qed.

(** C1.  [clean_disks] raises "You need at least N disks" exactly when
    the parsed disk list is shorter than the minimum of the row's vdev
    type: 2 for mirror, 3 for raidz, 4 for raidz2, 5 for raidz3.  No other
    type has a minimum, and whenever nothing is raised the parsed list is
    returned as it is. *)
Theorem clean_disks_minimum (vdev : option string) (disks : list string) :
  (vdev = Some "mirror" -> length disks < 2 ->
     clean_disks vdev disks = Raise (ValidationError "You need at least 2 disks")) /\
  (vdev = Some "raidz" -> length disks < 3 ->
     clean_disks vdev disks = Raise (ValidationError "You need at least 3 disks")) /\
  (vdev = Some "raidz2" -> length disks < 4 ->
     clean_disks vdev disks = Raise (ValidationError "You need at least 4 disks")) /\
  (vdev = Some "raidz3" -> length disks < 5 ->
     clean_disks vdev disks = Raise (ValidationError "You need at least 5 disks")) /\
  (raises (clean_disks vdev disks) <->
     (vdev = Some "mirror" /\ length disks < 2) \/
     (vdev = Some "raidz" /\ length disks < 3) \/
     (vdev = Some "raidz2" /\ length disks < 4) \/
     (vdev = Some "raidz3" /\ length disks < 5)) /\
  (~ raises (clean_disks vdev disks) -> clean_disks vdev disks = Return disks) /\
  (vdev ∈ [Some "stripe"; Some "log"; Some "cache"; Some "spare"] ->
     clean_disks vdev disks = Return disks).
Proof.
  rewrite clean_disks_unfold. unfold min_disks_spec.
  repeat split.
  1-4: intros -> Hlt; repeat (case_bool_decide; try done);
         cbv beta iota; ltb_cases; done || lia.
  - repeat (case_bool_decide; [subst vdev|]); ltb_cases; try done;
      intros _; auto 6.
  - intros [[-> ?]|[[-> ?]|[[-> ?]|[-> ?]]]];
      repeat (case_bool_decide; try done);
      cbv beta iota; ltb_cases; done || lia.
  - repeat (case_bool_decide; [subst vdev|]); ltb_cases; try done;
      intros H; by destruct H.
  - intros Hel.
    repeat (apply elem_of_cons in Hel as [->|Hel]; [done|]).
    by apply elem_of_nil in Hel.
Qed.

Lemma clean_disks_minimum_witness :
  clean_disks (Some "raidz2") ["da0"; "da1"; "da2"]
  = Raise (ValidationError "You need at least 4 disks").
Proof.
  apply (proj1 (proj2 (proj2
    (clean_disks_minimum (Some "raidz2") ["da0"; "da1"; "da2"])))).
  - reflexivity.
  - simpl. lia.
Defined.

(** With the disks present the rewrite of [clean] is as documented. *)
Lemma clean_log_rewrite cd ds :
  disks cd = Some ds ->
  clean cd =
  Return (if bool_decide (vdevtype cd = Some "log") && (1 <? length ds)%nat
          then {| vdevtype := Some "log mirror"; disks := Some ds |}
          else cd).
Proof.
  intros Hds. unfold clean. rewrite Hds. cbn [len bind].
  case_bool_decide; [|done]. by destruct (1 <? length ds)%nat.
Qed.

(** C9.  The rewrite of ['log'] into ['log mirror'] is not free of
    errors: on a ['log'] row whose disks field failed validation (no disk
    selected), ["disks"] is absent from [cleaned_data] and [clean] raises a
    [TypeError] from [len(None)]. *)
Theorem clean_log_without_disks_raises :
  clean {| vdevtype := Some "log"; disks := None |}
  = Raise (TypeError "object of type 'NoneType' has no len()").
Proof. reflexivity. Qed.

End VdevFormProofs.


(** ** The formset *)

Module VdevFormSetProofs.
Import VdevForm VdevFormSet.

Lemma clean_vdevtype_aux f vf n :
  aux_name f = Some n ->
  _clean_vdevtype vf (vdevtype (cleaned f)) =
  if default false (vf !! n) then Raise (ValidationError (only_one_msg n))
  else Return (<[n := true]> vf).
Proof.
  unfold aux_name, _clean_vdevtype.
  destruct (vdevtype (cleaned f)) as [t|]; [|done].
  case_bool_decide; [|done]. by intros [= <-].
Qed.

Lemma clean_vdevtype_other f vf :
  aux_name f = None -> _clean_vdevtype vf (vdevtype (cleaned f)) = Return vf.
Proof.
  unfold aux_name, _clean_vdevtype.
  destruct (vdevtype (cleaned f)) as [t|]; [|done].
  by case_bool_decide.
Qed.

Lemma is_in_data f :
  is_in (vdevtype (cleaned f)) DATA_TYPES =
  match data_name f with Some _ => true | None => false end.
Proof.
  unfold is_in, data_name.
  destruct (vdevtype (cleaned f)) as [t|]; [|done].
  by case_bool_decide.
Qed.

Lemma is_in_aux f :
  is_in (vdevtype (cleaned f)) AUX_TYPES =
  match aux_name f with Some _ => true | None => false end.
Proof.
  unfold is_in, aux_name.
  destruct (vdevtype (cleaned f)) as [t|]; [|done].
  by case_bool_decide.
Qed.

Lemma data_name_type f t : data_name f = Some t -> vdevtype (cleaned f) = Some t.
Proof.
  unfold data_name. destruct (vdevtype (cleaned f)); [|done].
  case_bool_decide; [|done]. by intros [= ->].
Qed.

Lemma data_name_elem f t : data_name f = Some t -> t ∈ DATA_TYPES.
Proof.
  unfold data_name. destruct (vdevtype (cleaned f)); [|done].
  case_bool_decide; [|done]. by intros [= <-].
Qed.

Lemma data_not_aux f t : data_name f = Some t -> aux_name f = None.
Proof.
  intros H. pose proof (data_name_elem _ _ H) as Hel.
  apply data_name_type in H. unfold aux_name. rewrite H.
  unfold DATA_TYPES in Hel.
  repeat (apply elem_of_cons in Hel as [->|Hel]; [done|]).
  by apply elem_of_nil in Hel.
Qed.


Lemma aux_name_truthy f n : aux_name f = Some n -> truthy (vdevtype (cleaned f)) = true.
Proof.
  unfold aux_name, truthy. destruct (vdevtype (cleaned f)) as [t|]; [|done].
  case_bool_decide as Hel; [|done]. intros _.
  case_bool_decide; [subst|done].
  exfalso. revert Hel. apply (bool_decide_eq_false_1 _). by vm_compute.
Qed.

Lemma fresh_insert vf n names :
  default false (vf !! n) = false ->
  (fresh (<[n := true]> vf) names <-> (n ∉ names) /\ fresh vf names).
Proof.
  intros Hn. unfold fresh. split.
  - intros H. split.
    + intros Hel. specialize (H n Hel). by rewrite lookup_insert_eq in H.
    + intros m Hel. specialize (H m Hel).
      destruct (decide (n = m)) as [->|Hne]; [done|].
      by rewrite lookup_insert_ne in H.
  - intros [Hnot H] m Hel.
    destruct (decide (n = m)) as [->|Hne]; [done|].
    rewrite lookup_insert_ne; auto.
Qed.

Lemma fresh_cons vf n names :
  fresh vf (n :: names) <-> (default false (vf !! n) = false) /\ fresh vf names.
Proof.
  unfold fresh. split.
  - intros H. split; [apply H; left|intros m Hm; apply H; by right].
  - intros [H1 H2] m [->|Hm]%elem_of_cons; auto.
Qed.

Lemma fresh_empty names : fresh ∅ names.
Proof. intros n _. by rewrite lookup_empty. Qed.

Lemma same_type_cons_some t names :
  same_type (Some t) (t :: names) <-> same_type (Some t) names.
Proof.
  unfold same_type. split.
  - intros H d u Hd Hu. apply H; [|by right].
    destruct Hd as [Hd|Hd]; [by left|right; by right].
  - intros H d u Hd Hu.
    assert (Hall : forall x, x ∈ t :: names -> x = t).
    { intros x [->|Hx]%elem_of_cons; [done|]. symmetry. apply H; [by left|done]. }
    transitivity t; [|symmetry; by apply Hall].
    destruct Hd as [[= ->]|Hd]; [done|by apply Hall].
Qed.

Lemma same_type_cons_none t names :
  same_type None (t :: names) <-> same_type (Some t) names.
Proof.
  rewrite <- same_type_cons_some. unfold same_type. split.
  - intros H d u [[= ->]|Hd] Hu; apply H; auto. right; by left.
  - intros H d u [Hd|Hd] Hu; [done|]. apply H; auto.
Qed.

Lemma same_type_conflict d t names :
  d ≠ t -> ~ same_type (Some d) (t :: names).
Proof. intros Hne H. apply Hne, H; [by left|by left]. Qed.

(** What the creating loop returns, from any state of its variables. *)
Lemma create_loop_cases forms :
  forall vf has dt,
  match create_loop forms vf has dt with
  | Return b =>
      NoDup (aux_names forms) /\ fresh vf (aux_names forms) /\
      same_type dt (data_names forms) /\
      b = has || negb (bool_decide (data_names forms = []))
  | Raise e =>
      (exists n, e = ValidationError (only_one_msg n) /\ n ∈ aux_names forms /\
                 ~ (NoDup (aux_names forms) /\ fresh vf (aux_names forms)))
      \/
      (exists d t, e = ValidationError (different_types_msg d t) /\ d ≠ t /\
                   t ∈ data_names forms /\
                   (dt = Some d \/ d ∈ data_names forms) /\
                   ~ same_type dt (data_names forms))
  end.
Proof.
  induction forms as [|f rest IH]; intros vf has dt.
  - simpl. repeat split.
    + constructor.
    + intros n Hn. by apply elem_of_nil in Hn.
    + intros d t _ Ht. by apply elem_of_nil in Ht.
    + by rewrite orb_false_r.
  - cbn [create_loop]. rewrite is_in_data.
    unfold aux_names, data_names. cbn [omap list_omap].
    fold (aux_names rest) (data_names rest).
    destruct (data_name f) as [t|] eqn:Hd.
    + rewrite (data_not_aux _ _ Hd), (data_name_type _ _ Hd).
      destruct dt as [d|].
      * destruct (decide (d = t)) as [->|Hne];
          [rewrite (bool_decide_false (t ≠ t)) by (intros H; by apply H)
          |rewrite (bool_decide_true (d ≠ t)) by done].
        2:{ right. exists d, t. repeat split; auto.
            - by left.
            - by apply same_type_conflict. }
        specialize (IH vf true (Some t)).
        destruct (create_loop rest vf true (Some t)) as [b|e].
        { destruct IH as (?&?&?&->). repeat split; auto.
          - by apply same_type_cons_some.
          - rewrite (bool_decide_false (t :: data_names rest = [])) by done.
            simpl. by rewrite orb_true_r. }
        destruct IH as [(n&?&?&?)|(d&u&?&?&?&Hd'&?)]; [left; eauto|].
        right. exists d, u. repeat split; auto.
        -- by right.
        -- destruct Hd' as [Hd'|Hd']; [by left|right; by right].
        -- by rewrite same_type_cons_some.
      * specialize (IH vf true (Some t)).
        destruct (create_loop rest vf true (Some t)) as [b|e].
        { destruct IH as (?&?&?&->). repeat split; auto.
          - by apply same_type_cons_none.
          - rewrite (bool_decide_false (t :: data_names rest = [])) by done.
            simpl. by rewrite orb_true_r. }
        destruct IH as [(n&?&?&?)|(d&u&?&?&?&Hd'&?)]; [left; eauto|].
        right. exists d, u. repeat split; auto.
        -- by right.
        -- right. destruct Hd' as [[= ->]|Hd']; [by left|by right].
        -- by rewrite same_type_cons_none.
    + destruct (aux_name f) as [n|] eqn:Ha.
      * rewrite (clean_vdevtype_aux _ _ _ Ha).
        destruct (default false (vf !! n)) eqn:Hseen; cbn [bind].
        { left. exists n. repeat split; [by left|].
          intros [_ Hf]. apply fresh_cons in Hf as [Hf _]. congruence. }
        specialize (IH (<[n:=true]> vf) has dt).
        destruct (create_loop rest (<[n:=true]> vf) has dt) as [b|e].
        { destruct IH as (?&Hf&?&->).
          apply fresh_insert in Hf as [? ?]; [|done].
          repeat split; auto.
          - by constructor.
          - by apply fresh_cons. }
        destruct IH as [(m&?&?&Hn)|(d&u&?&?&?&?&?)]; [left|right; eauto 10].
        exists m. repeat split; auto; [by right|].
        intros [Hnd Hf]. apply Hn.
        apply NoDup_cons in Hnd as [? ?]. apply fresh_cons in Hf as [? ?].
        split; [done|]. by apply fresh_insert.
      * rewrite (clean_vdevtype_other _ _ Ha). cbn [bind]. apply IH.
Qed.

(** What the first loop of the extending branch returns. *)
Lemma add_aux_loop_cases forms :
  forall vf,
  match add_aux_loop forms vf with
  | Return _ => NoDup (aux_names forms) /\ fresh vf (aux_names forms)
  | Raise e =>
      exists n, e = ValidationError (only_one_msg n) /\ n ∈ aux_names forms /\
                ~ (NoDup (aux_names forms) /\ fresh vf (aux_names forms))
  end.
Proof.
  induction forms as [|f rest IH]; intros vf.
  - simpl. split; [constructor|]. intros n Hn. by apply elem_of_nil in Hn.
  - cbn [add_aux_loop]. rewrite is_in_aux.
    unfold aux_names. cbn [omap list_omap]. fold (aux_names rest).
    destruct (aux_name f) as [n|] eqn:Ha.
    + rewrite (aux_name_truthy _ _ Ha). cbn [negb].
      rewrite (clean_vdevtype_aux _ _ _ Ha).
      destruct (default false (vf !! n)) eqn:Hseen; cbn [bind].
      { exists n. repeat split; [by left|].
        intros [_ Hf]. apply fresh_cons in Hf as [Hf _]. congruence. }
      specialize (IH (<[n:=true]> vf)).
      destruct (add_aux_loop rest (<[n:=true]> vf)) as [vf'|e].
      { destruct IH as (?&Hf). apply fresh_insert in Hf as [? ?]; [|done].
        split; [by constructor|by apply fresh_cons]. }
      destruct IH as (m&?&?&Hn). exists m. repeat split; auto; [by right|].
      intros [Hnd Hf]. apply Hn.
      apply NoDup_cons in Hnd as [? ?]. apply fresh_cons in Hf as [? ?].
      split; [done|]. by apply fresh_insert.
    + destruct (negb (truthy (vdevtype (cleaned f)))); apply IH.
Qed.

(** The three messages of the creating branch are pairwise distinct. *)
Lemma only_one_not_no_data n : only_one_msg n ≠ no_data_msg.
Proof. discriminate. Qed.


Lemma different_not_no_data d t : different_types_msg d t ≠ no_data_msg.
Proof. discriminate. Qed.

(** One pool vdev against one row. *)
Lemma compared_type f :
  compared f -> exists t, vdevtype (cleaned f) = Some t /\ t ≠ "" /\ t ∉ AUX_TYPES.
Proof.
  unfold compared, truthy, aux_name. intros [Ht Ha].
  destruct (vdevtype (cleaned f)) as [t|]; [|done].
  exists t. repeat split.
  - intros ->. by rewrite bool_decide_true in Ht.
  - intros Hel. by rewrite bool_decide_true in Ha.
Qed.

Lemma check_form_skip vdev f : ~ compared f -> check_form vdev f = Return tt.
Proof.
  unfold compared, check_form, truthy, aux_name. intros Hn.
  destruct (vdevtype (cleaned f)) as [t|]; [|done].
  repeat (case_bool_decide; [done|]).
  exfalso. by apply Hn.
Qed.

Lemma check_form_compared vdev f t ds :
  compared f -> vdevtype (cleaned f) = Some t -> disks (cleaned f) = Some ds ->
  check_form vdev f =
  if bool_decide (vdev_type vdev ≠ t) then
    Raise (ValidationError (type_mismatch_msg t (vdev_type vdev)))
  else if bool_decide (length ds ≠ length (vdev_devs vdev)) then
    Raise (ValidationError
             (count_mismatch_msg (length ds) (length (vdev_devs vdev))))
  else Return tt.
Proof.
  intros (t'&Ht'&Hne&Hna)%compared_type Ht Hds.
  rewrite Ht in Ht'. injection Ht' as <-.
  unfold check_form. rewrite Ht, Hds.
  rewrite (bool_decide_false (t = "")), (bool_decide_false (t ∈ AUX_TYPES)) by done.
  cbn [len bind].
  by repeat case_bool_decide.
Qed.

Lemma check_form_agrees vdev f :
  compared f -> (check_form vdev f = Return tt <-> agrees vdev f).
Proof.
  intros Hc. destruct (compared_type _ Hc) as (t&Ht&Hne&Hna). split.
  - intros Hr. destruct (disks (cleaned f)) as [ds|] eqn:Hds.
    + rewrite (check_form_compared _ _ _ _ Hc Ht Hds) in Hr.
      repeat case_bool_decide; try done.
      exists t, ds. repeat split; auto; by apply dec_stable.
    + unfold check_form in Hr. rewrite Ht, Hds in Hr.
      by rewrite (bool_decide_false (t = "")),
        (bool_decide_false (t ∈ AUX_TYPES)) in Hr by done.
  - intros (t'&ds&Ht'&Hds&Hty&Hlen). rewrite Ht in Ht'. injection Ht' as <-.
    rewrite (check_form_compared _ _ _ _ Hc Ht Hds).
    rewrite bool_decide_false by (intros H; by apply H).
    by rewrite bool_decide_false by (intros H; by apply H).
Qed.

Lemma compared_dec f : compared f \/ ~ compared f.
Proof.
  unfold compared.
  destruct (truthy (vdevtype (cleaned f))), (aux_name f);
    first [left; done | right; intros [? ?]; done].
Qed.

Lemma forms_loop_ok vdev forms :
  forms_loop vdev forms = Return tt <->
  (forall f, f ∈ forms -> compared f -> agrees vdev f).
Proof.
  induction forms as [|f rest IH]; simpl.
  - split; [|done]. intros _ f Hf. by apply elem_of_nil in Hf.
  - destruct (compared_dec f) as [Hc|Hc].
    + pose proof (check_form_agrees vdev f Hc) as Hag.
      destruct (check_form vdev f) as [[]|e]; cbn [bind].
      * rewrite IH. split.
        -- intros H g [->|Hg]%elem_of_cons; [intros _; by apply Hag|by apply H].
        -- intros H g Hg. apply H. by right.
      * split; [done|]. intros H.
        assert (agrees vdev f) as Ha by (apply H; [by left|done]).
        by apply Hag in Ha.
    + rewrite (check_form_skip _ _ Hc). cbn [bind]. rewrite IH. split.
      * intros H g [->|Hg]%elem_of_cons; [done|by apply H].
      * intros H g Hg. apply H. by right.
Qed.

Lemma forms_loop_first vdev fs1 f fs2 e :
  (forall g, g ∈ fs1 -> compared g -> agrees vdev g) ->
  check_form vdev f = Raise e ->
  forms_loop vdev (fs1 ++ f :: fs2) = Raise e.
Proof.
  intros Hok Hf. induction fs1 as [|g fs1 IH]; simpl.
  - by rewrite Hf.
  - assert (check_form vdev g = Return tt) as ->.
    { destruct (compared_dec g) as [Hc|Hc].
      - apply check_form_agrees; [done|]. apply Hok; [by left|done].
      - by apply check_form_skip. }
    cbn [bind]. apply IH. intros h Hh. apply Hok. by right.
Qed.

Lemma pool_loop_ok data forms :
  pool_loop data forms = Return tt <->
  (forall v f, v ∈ data -> f ∈ forms -> compared f -> agrees v f).
Proof.
  induction data as [|v rest IH]; simpl.
  - split; [|done]. intros _ v f Hv. by apply elem_of_nil in Hv.
  - pose proof (forms_loop_ok v forms) as Hv.
    destruct (forms_loop v forms) as [[]|e]; cbn [bind].
    + rewrite IH. split.
      * intros H w f [->|Hw]%elem_of_cons; [by apply Hv|by apply H].
      * intros H w f Hw. apply H. by right.
    + split; [done|]. intros H.
      assert (Raise e = Return tt :> result unit) as Heq; [|done].
      apply Hv. intros f. apply H. by left.
Qed.

Lemma pool_loop_first vs1 v vs2 forms e :
  (forall w f, w ∈ vs1 -> f ∈ forms -> compared f -> agrees w f) ->
  forms_loop v forms = Raise e ->
  pool_loop (vs1 ++ v :: vs2) forms = Raise e.
Proof.
  intros Hok Hv. induction vs1 as [|w vs1 IH]; simpl.
  - by rewrite Hv.
  - assert (forms_loop w forms = Return tt) as ->.
    { apply forms_loop_ok. intros f. apply Hok. by left. }
    cbn [bind]. apply IH. intros x f Hx. apply Hok. by right.
Qed.

Lemma clean_create volume_add zp forms :
  truthy volume_add = false -> any_errors forms = false ->
  clean volume_add zp forms =
  (try! has_datavdev := create_loop forms ∅ false None in
   if negb has_datavdev then Raise (ValidationError no_data_msg)
   else Return tt).
Proof. intros Hv He. unfold clean. by rewrite He, Hv. Qed.

Lemma clean_add volume_add zp forms :
  truthy volume_add = true -> any_errors forms = false ->
  clean volume_add zp forms =
  (try! _ := add_aux_loop forms ∅ in
   pool_loop (zp (default "" volume_add)) forms).
Proof. intros Hv He. unfold clean. by rewrite He, Hv. Qed.

Lemma clean_guard volume_add zp forms :
  any_errors forms = true -> clean volume_add zp forms = Return tt.
Proof. intros He. unfold clean. by rewrite He. Qed.

(** C2, as stated, fails: with two cache rows and no data row the error is
    the one about the repeated row, not "You need a data disk group". *)
Lemma two_caches_reported_first :
  let forms := [row "cache" ["ada0"]; row "cache" ["ada1"]] in
  any_errors forms = false /\ data_names forms = [] /\
  clean None (fun _ => []) forms
    = Raise (ValidationError
               "Only one row for the vitual device of type cache is allowed.") /\
  clean None (fun _ => []) forms
    ≠ Raise (ValidationError "You need a data disk group").
Proof. repeat split; try reflexivity. discriminate. Qed.

(** C2, amended.  Creating a volume with no form in error, the formset's
    [clean] raises "You need a data disk group" if and only if no row has
    a data vdev type and no auxiliary kind (cache, log, spare) is repeated. *)
Theorem no_data_group_iff volume_add zp (forms : list form) :
  truthy volume_add = false -> any_errors forms = false ->
  (clean volume_add zp forms = Raise (ValidationError no_data_msg)
   <-> data_names forms = [] /\ NoDup (aux_names forms)).
Proof.
  intros Hv He. rewrite (clean_create _ _ _ Hv He).
  pose proof (create_loop_cases forms ∅ false None) as H.
  destruct (create_loop forms ∅ false None) as [b|e]; cbn [bind].
  - destruct H as (Hnd&_&_&->). cbn [orb].
    destruct (decide (data_names forms = [])) as [Hd|Hd].
    + rewrite bool_decide_true by done. by cbn.
    + rewrite bool_decide_false by done. cbn. split; [done|]. by intros [? _].
  - split.
    + intros Heq. exfalso.
      destruct H as [(n&->&_)|(d&t&->&_)].
      * apply (only_one_not_no_data n). congruence.
      * apply (different_not_no_data d t). congruence.
    + intros [Hd Hnd]. exfalso.
      destruct H as [(n&_&_&Hn)|(d&t&_&_&Ht&_)].
      * apply Hn. split; [done|apply fresh_empty].
      * rewrite Hd in Ht. by apply elem_of_nil in Ht.
Qed.

Lemma no_data_group_iff_witness :
  clean None (fun _ => []) [row "cache" ["ada0"]; row "log" ["ada1"]]
  = Raise (ValidationError no_data_msg).
Proof.
  apply (no_data_group_iff None (fun _ => [])
           [row "cache" ["ada0"]; row "log" ["ada1"]]).
  - reflexivity.
  - reflexivity.
  - split; [reflexivity|]. apply (bool_decide_unpack _). by vm_compute.
Defined.







(** C4, as stated, fails twice.  The raidz row below does not match the
    mirror of the pool, yet [clean] reports the repeated cache row; and when
    some form is in error, [clean] returns without comparing anything. *)
Lemma mismatch_not_reported :
  let pool := fun _ : string =>
    [{| vdev_type := "mirror"; vdev_devs := ["da0"; "da1"] |}] in
  let raidz := row "raidz" ["da2"; "da3"; "da4"] in
  compared raidz /\
  (forall v, v ∈ pool "tank" -> ~ agrees v raidz) /\
  clean (Some "tank") pool [row "cache" ["ada0"]; row "cache" ["ada1"]; raidz]
    = Raise (ValidationError
               "Only one row for the vitual device of type cache is allowed.") /\
  clean (Some "tank") pool [bad_row "cache"; raidz] = Return tt.
Proof.
  repeat split; try reflexivity.
  intros v [->|Hv]%elem_of_cons; [|by apply elem_of_nil in Hv].
  intros (t&ds&Ht&_&Hty&_). cbn in Ht, Hty. congruence.
Qed.

(** C4, amended.  Extending a pool with no form in error and no auxiliary
    kind repeated: [clean] accepts exactly when every compared row (a row
    with a type that is not cache, log, log mirror or spare) agrees with
    every data vdev of the pool in type and in number of devices; and it
    raises the error of the first disagreeing pair, pool vdevs in the outer
    loop and rows in the inner one, the type mismatch being reported in
    preference to the device-count mismatch. *)
Theorem appended_rows_must_match volume_add zp (forms : list form) :
  truthy volume_add = true -> any_errors forms = false ->
  NoDup (aux_names forms) ->
  (clean volume_add zp forms = Return tt <->
   (forall v f, v ∈ zp (default "" volume_add) -> f ∈ forms ->
                compared f -> agrees v f)) /\
  (forall vs1 v vs2 fs1 f fs2 t ds,
     zp (default "" volume_add) = vs1 ++ v :: vs2 ->
     forms = fs1 ++ f :: fs2 ->
     (forall w g, w ∈ vs1 -> g ∈ forms -> compared g -> agrees w g) ->
     (forall g, g ∈ fs1 -> compared g -> agrees v g) ->
     compared f ->
     vdevtype (cleaned f) = Some t -> disks (cleaned f) = Some ds ->
     (vdev_type v ≠ t \/ length ds ≠ length (vdev_devs v)) ->
     clean volume_add zp forms =
     Raise (ValidationError
              (if bool_decide (vdev_type v ≠ t)
               then type_mismatch_msg t (vdev_type v)
               else count_mismatch_msg (length ds) (length (vdev_devs v))))).
Proof.
  intros Hv He Hnd. rewrite (clean_add _ _ _ Hv He).
  pose proof (add_aux_loop_cases forms ∅) as H.
  destruct (add_aux_loop forms ∅) as [vf|e]; cbn [bind].
  2:{ exfalso. destruct H as (n&_&_&Hn). apply Hn.
      split; [done|apply fresh_empty]. }
  clear H. split; [apply pool_loop_ok|].
  intros vs1 v vs2 fs1 f fs2 t ds -> -> Hvs Hfs Hc Ht Hds Hmis.
  apply pool_loop_first; [done|].
  apply forms_loop_first; [done|].
  rewrite (check_form_compared _ _ _ _ Hc Ht Hds).
  case_bool_decide as Hty; [done|].
  rewrite bool_decide_true; [done|].
  destruct Hmis as [Hm|Hm]; [|done]. exfalso. tauto.
Qed.

Lemma appended_rows_must_match_witness :
  clean (Some "tank")
    (fun _ => [{| vdev_type := "mirror"; vdev_devs := ["da0"; "da1"] |}])
    [row "log" ["ada0"]; row "raidz" ["da2"; "da3"; "da4"]]
  = Raise (ValidationError
      "You are trying to add a virtual device of type 'raidz' in a pool that has a virtual device of type 'mirror'").
Proof.
  refine (proj2 (appended_rows_must_match (Some "tank")
    (fun _ => [{| vdev_type := "mirror"; vdev_devs := ["da0"; "da1"] |}])
    [row "log" ["ada0"]; row "raidz" ["da2"; "da3"; "da4"]] _ _ _)
    [] {| vdev_type := "mirror"; vdev_devs := ["da0"; "da1"] |} []
    [row "log" ["ada0"]] (row "raidz" ["da2"; "da3"; "da4"]) []
    "raidz" ["da2"; "da3"; "da4"] _ _ _ _ _ _ _ _).
  - reflexivity.
  - reflexivity.
  - apply (bool_decide_unpack _). by vm_compute.
  - reflexivity.
  - reflexivity.
  - intros w g Hw. by apply elem_of_nil in Hw.
  - intros g [->|Hg]%elem_of_cons; [|by apply elem_of_nil in Hg].
    intros [_ Ha]. discriminate Ha.
  - split; reflexivity.
  - reflexivity.
  - reflexivity.
  - left. discriminate.
Defined.

End VdevFormSetProofs.

(** ** The cron job service *)

Module CronProofs.
Import Cron.

Example split_commas : PyStr.split "," "1,,7," = ["1"; ""; "7"; ""].
Proof. reflexivity. Qed.

Example split_empty : PyStr.split "," "" = [""].
Proof. reflexivity. Qed.

Example int_examples :
  PyStr.int " 5 " = Some 5%Z /\ PyStr.int "-5" = Some (-5)%Z /\
  PyStr.int "+5" = Some 5%Z /\ PyStr.int "007" = Some 7%Z /\
  PyStr.int "1_0" = Some 10%Z /\ PyStr.int "1__0" = None /\
  PyStr.int "_1" = None /\ PyStr.int "1_" = None /\ PyStr.int "" = None /\
  PyStr.int "+" = None /\ PyStr.int "+-5" = None /\ PyStr.int "0x1" = None /\
  PyStr.int "5.0" = None /\ PyStr.int "+ 5" = None /\ PyStr.int "mon" = None.
Proof. repeat split. Qed.

Lemma append_inj_l (p a b : string) : p +:+ a = p +:+ b -> a = b.
Proof. induction p as [|c p IH]; simpl; [done|]. intros [= H]. auto. Qed.

(** The two range checks and the user check add their errors one after
    the other. *)
Lemma validate_data_errors mw data schema :
  (validate_data mw data schema).1.2 =
  range_errors (dayweek data) 1 8 (schema +:+ ".weekday")
    "Please specify valid week days"
    "The week days should be in range of 1-7 inclusive"
  ++ range_errors (month data) 1 13 (schema +:+ ".month")
       "Please specify valid months"
       "The months should be in range of 1-12 inclusive"
  ++ user_errors mw data schema.
Proof.
  unfold validate_data, range_errors, user_errors, add.
  repeat match goal with
         | |- context [if ?b then _ else _] => destruct b
         | |- context [match ?o with Some _ => _ | None => _ end] => destruct o
         end; cbn; rewrite ?app_nil_r; reflexivity.
Qed.

Lemma validate_data_data mw data schema :
  (validate_data mw data schema).2 = data.
Proof.
  unfold validate_data.
  repeat match goal with
         | |- context [if ?b then _ else _] => destruct b
         end; reflexivity.
Qed.

Lemma validate_data_calls mw data schema :
  Forall (fun c => changes_state c = false) (validate_data mw data schema).1.1.
Proof.
  unfold validate_data.
  repeat match goal with
         | |- context [if ?b then _ else _] => destruct b
         end; cbn; repeat constructor.
Qed.

Lemma not_in_range_spec lo hi n :
  not_in_range lo (hi + 1) n = true <-> ~ (lo <= n <= hi)%Z.
Proof.
  unfold not_in_range. rewrite negb_true_iff, andb_false_iff.
  rewrite Z.leb_gt, Z.ltb_ge. lia.
Qed.

(** A list of entries fails the check exactly when it has a bad entry. *)
Lemma entries_checked lo hi s :
  match mapM PyStr.int (PyStr.split "," s) with
  | None => True
  | Some ns =>
      (0 <? length (filter (fun n => not_in_range lo (hi + 1) n = true) ns))%nat
      = true
  end <-> bad_entry lo hi s.
Proof.
  unfold bad_entry.
  destruct (mapM PyStr.int (PyStr.split "," s)) as [ns|] eqn:Hm.
  - apply mapM_Some in Hm. split.
    + intros Hlen%Nat.ltb_lt.
      destruct (filter _ ns) as [|n rest] eqn:Hf; [simpl in Hlen; lia|].
      assert (n ∈ filter (fun n => not_in_range lo (hi + 1) n = true) ns) as Hn
        by (rewrite Hf; left).
      apply list_elem_of_filter in Hn as [Hr Hn].
      apply list_elem_of_lookup in Hn as [i Hi].
      destruct (Forall2_lookup_r _ _ _ _ _ Hm Hi) as (e&He&Hint).
      exists e. split; [by eapply list_elem_of_lookup_2|].
      right. exists n. split; [done|]. by apply not_in_range_spec.
    + intros (e&He&Hbad).
      apply list_elem_of_lookup in He as [i Hi].
      destruct (Forall2_lookup_l _ _ _ _ _ Hm Hi) as (n&Hn&Hint).
      destruct Hbad as [Hnone|(n'&Hint'&Hr)]; [congruence|].
      assert (n' = n) as -> by congruence.
      apply Nat.ltb_lt.
      assert (n ∈ filter (fun n => not_in_range lo (hi + 1) n = true) ns) as Hel.
      { apply list_elem_of_filter. split; [by apply not_in_range_spec|].
        by eapply list_elem_of_lookup_2. }
      destruct (filter _ ns); [by apply elem_of_nil in Hel|simpl; lia].
  - split; [intros _|done].
    assert (~ Forall (is_Some ∘ PyStr.int) (PyStr.split "," s)) as Hnot.
    { intros Hall%mapM_is_Some. rewrite Hm in Hall. by destruct Hall. }
    apply not_Forall_Exists in Hnot; [|intros e; apply _].
    apply Exists_exists in Hnot as (e&He&Hn).
    exists e. split; [done|]. left.
    destruct (PyStr.int e) eqn:Hint; [|done].
    exfalso. apply Hn. simpl. rewrite Hint. eauto.
Qed.

Lemma range_errors_spec value lo hi attribute invalid out_of_range :
  (forall entry, entry ∈ range_errors value lo (hi + 1) attribute invalid out_of_range ->
                 entry.1 = attribute) /\
  (range_errors value lo (hi + 1) attribute invalid out_of_range ≠ [] <->
   exists s, value = Some s /\ s ≠ "" /\ s ≠ "*" /\ bad_entry lo hi s).
Proof.
  unfold range_errors.
  destruct value as [s|]; cbn [truthy default from_option andb];
    unfold Datatypes.id.
  2:{ split; [intros e He; by apply elem_of_nil in He|].
      split; [done|]. by intros (s&Hs&_). }
  pose proof (entries_checked lo hi s) as Hchk.
  destruct (decide (s = "")) as [->|Hne].
  { rewrite bool_decide_true by done. cbn.
    split; [intros e He; by apply elem_of_nil in He|].
    split; [done|]. intros (s&[= <-]&Hs&_). done. }
  rewrite (bool_decide_false (s = "")) by done. cbn [negb andb].
  destruct (decide (s = "*")) as [->|Hstar].
  { rewrite bool_decide_true by done. cbn.
    split; [intros e He; by apply elem_of_nil in He|].
    split; [done|]. intros (s&[= <-]&_&Hs&_). done. }
  rewrite bool_decide_false by congruence. cbn [negb].
  destruct (mapM PyStr.int (PyStr.split "," s)) as [ns|].
  - destruct (0 <? length (filter _ ns))%nat eqn:Hlen.
    + split; [intros e [->|He]%elem_of_cons; [done|by apply elem_of_nil in He]|].
      split; [intros _|done]. exists s. repeat split; auto. by apply Hchk.
    + split; [intros e He; by apply elem_of_nil in He|].
      split; [done|]. intros (s'&[= <-]&_&_&Hbad).
      apply Hchk in Hbad. congruence.
  - split; [intros e [->|He]%elem_of_cons; [done|by apply elem_of_nil in He]|].
    split; [intros _|done]. exists s. repeat split; auto. by apply Hchk.
Qed.

Lemma user_errors_key mw data schema entry :
  entry ∈ user_errors mw data schema -> entry.1 = schema +:+ ".user".
Proof.
  unfold user_errors.
  repeat match goal with
         | |- context [if ?b then _ else _] => destruct b
         end;
    intros He; try (by apply elem_of_nil in He);
    apply elem_of_cons in He as [->|He]; [done|by apply elem_of_nil in He
                                         |done|by apply elem_of_nil in He].
Qed.

Lemma range_errors_recorded value lo hi attribute invalid out_of_range :
  (exists msg, (attribute, msg)
               ∈ range_errors value lo (hi + 1) attribute invalid out_of_range)
  <-> exists s, value = Some s /\ s ≠ "" /\ s ≠ "*" /\ bad_entry lo hi s.
Proof.
  destruct (range_errors_spec value lo hi attribute invalid out_of_range)
    as [Hkey Hne].
  rewrite <- Hne. split.
  - intros (msg&Hel) Hnil. rewrite Hnil in Hel. by apply elem_of_nil in Hel.
  - intros Hnil.
    destruct (range_errors value lo (hi + 1) attribute invalid out_of_range)
      as [|[k msg] rest] eqn:Hr; [done|].
    exists msg. rewrite <- (Hkey (k, msg)) by left. left.
Qed.

Lemma do_create_unfold mw data :
  do_create mw data =
  let found := validate_data mw data "cron_job_create" in
  if negb (bool_decide (found.1.2 = [])) then (found.1.1, Raised found.1.2)
  else (found.1.1 ++ [DatastoreInsert "tasks.cronjob" found.2 "cron_";
                      ServiceRestart "cron"],
        Created (set_id found.2 (insert_id mw found.2))).
Proof.
  unfold do_create.
  by destruct (validate_data mw data "cron_job_create") as [[calls verrors] d].
Qed.

(** C10.  [validate_data] records an error for the week days exactly when
    the value of ['dayweek'] is present, not empty, not ['*'], and has a
    comma-separated entry that is not an integer or is an integer outside
    1 to 7; likewise for ['month'] and 1 to 12.  Absent, empty and ['*']
    values are accepted.  [do_create] raises the errors found, having made
    no datastore insert and no service restart; with no error it inserts
    and restarts cron. *)
Theorem cron_fields_validated mw (data : cron_job) (schema : string) :
  let verrors := (validate_data mw data schema).1.2 in
  let found := (validate_data mw data "cron_job_create").1.2 in
  ((exists msg, (schema +:+ ".weekday", msg) ∈ verrors) <->
   exists s, dayweek data = Some s /\ s ≠ "" /\ s ≠ "*" /\ bad_entry 1 7 s) /\
  ((exists msg, (schema +:+ ".month", msg) ∈ verrors) <->
   exists s, month data = Some s /\ s ≠ "" /\ s ≠ "*" /\ bad_entry 1 12 s) /\
  (dayweek data ∈ [None; Some ""; Some "*"] ->
   forall msg, (schema +:+ ".weekday", msg) ∉ verrors) /\
  (month data ∈ [None; Some ""; Some "*"] ->
   forall msg, (schema +:+ ".month", msg) ∉ verrors) /\
  (found ≠ [] ->
   (do_create mw data).2 = Raised found /\
   Forall (fun c => changes_state c = false) (do_create mw data).1) /\
  (found = [] ->
   exists calls,
     Forall (fun c => changes_state c = false) calls /\
     do_create mw data =
     (calls ++ [DatastoreInsert "tasks.cronjob" data "cron_"; ServiceRestart "cron"],
      Created (set_id data (insert_id mw data)))).
Proof.
  cbn zeta.
  assert (Hweek : (exists msg, (schema +:+ ".weekday", msg)
                               ∈ (validate_data mw data schema).1.2) <->
    exists s, dayweek data = Some s /\ s ≠ "" /\ s ≠ "*" /\ bad_entry 1 7 s).
  { rewrite <- (range_errors_recorded (dayweek data) 1 7 (schema +:+ ".weekday")
                  "Please specify valid week days"
                  "The week days should be in range of 1-7 inclusive").
    rewrite validate_data_errors. split.
    - intros (msg&[Hel|[Hel|Hel]%elem_of_app]%elem_of_app); [eauto| |].
      + apply (range_errors_spec (month data) 1 12) in Hel.
        apply append_inj_l in Hel. discriminate.
      + apply user_errors_key in Hel. apply append_inj_l in Hel. discriminate.
    - intros (msg&Hel). exists msg. apply elem_of_app. by left. }
  assert (Hmonth : (exists msg, (schema +:+ ".month", msg)
                                ∈ (validate_data mw data schema).1.2) <->
    exists s, month data = Some s /\ s ≠ "" /\ s ≠ "*" /\ bad_entry 1 12 s).
  { rewrite <- (range_errors_recorded (month data) 1 12 (schema +:+ ".month")
                  "Please specify valid months"
                  "The months should be in range of 1-12 inclusive").
    rewrite validate_data_errors. split.
    - intros (msg&[Hel|[Hel|Hel]%elem_of_app]%elem_of_app); [|eauto|].
      + apply (range_errors_spec (dayweek data) 1 7) in Hel.
        apply append_inj_l in Hel. discriminate.
      + apply user_errors_key in Hel. apply append_inj_l in Hel. discriminate.
    - intros (msg&Hel). exists msg. apply elem_of_app. right.
      apply elem_of_app. by left. }
  repeat split.
  - apply Hweek.
  - apply Hweek.
  - apply Hmonth.
  - apply Hmonth.
  - intros Hv msg Hel.
    assert (exists s, dayweek data = Some s /\ s ≠ "" /\ s ≠ "*" /\ bad_entry 1 7 s)
      as (s&Hs&Hne&Hstar&_) by (apply Hweek; eauto).
    rewrite Hs in Hv.
    repeat (apply elem_of_cons in Hv as [Hv|Hv]; [congruence|]).
    by apply elem_of_nil in Hv.
  - intros Hv msg Hel.
    assert (exists s, month data = Some s /\ s ≠ "" /\ s ≠ "*" /\ bad_entry 1 12 s)
      as (s&Hs&Hne&Hstar&_) by (apply Hmonth; eauto).
    rewrite Hs in Hv.
    repeat (apply elem_of_cons in Hv as [Hv|Hv]; [congruence|]).
    by apply elem_of_nil in Hv.
  - rewrite do_create_unfold. cbn zeta. by rewrite bool_decide_false.
  - rewrite do_create_unfold. cbn zeta. rewrite bool_decide_false by done.
    apply validate_data_calls.
  - intros Hnil. exists (validate_data mw data "cron_job_create").1.1.
    split; [apply validate_data_calls|].
    rewrite do_create_unfold. cbn zeta. rewrite bool_decide_true by done.
    by rewrite validate_data_data.
Qed.

Lemma cron_fields_validated_witness :
  (do_create any_user (job (Some "1,8") (Some "*") None)).2
  = Raised [("cron_job_create.weekday",
             "The week days should be in range of 1-7 inclusive")].
Proof.
  refine (proj1 (proj1 (proj2 (proj2 (proj2 (proj2
    (cron_fields_validated any_user (job (Some "1,8") (Some "*") None)
       "cron_job_create"))))) _)).
  discriminate.
Defined.

End CronProofs.

(** ** Regular expressions *)

Module RegexProofs.
Import Regex.

Lemma nullable_spec r : nullable r = true <-> lang r [].
Proof.
  split.
  - induction r; simpl; intros Hn; try discriminate.
    + constructor.
    + apply andb_true_iff in Hn as [H1 H2].
      change (lang (Cat r1 r2) ([] ++ [])). constructor; auto.
    + apply orb_true_iff in Hn as [H|H]; [apply lang_alt_l|apply lang_alt_r]; auto.
    + constructor.
  - intros H. remember [] as w eqn:Hw.
    induction H; simpl; try done.
    + apply app_eq_nil in Hw as [-> ->]. by rewrite IHlang1, IHlang2.
    + by rewrite IHlang.
    + rewrite IHlang; [apply orb_true_r|done].
Qed.

(** Inversions for the shapes the patterns have. *)
Lemma lang_class_inv p s : lang (Class p) s <-> exists c, s = [c] /\ p c = true.
Proof.
  split.
  - intros H. inversion H; subst. eauto.
  - intros (c&->&Hp). by constructor.
Qed.

Lemma lang_cat_inv r1 r2 s :
  lang (Cat r1 r2) s <-> exists u v, s = u ++ v /\ lang r1 u /\ lang r2 v.
Proof.
  split.
  - intros H. inversion H; subst. eauto.
  - intros (u&v&->&H1&H2). by constructor.
Qed.

Lemma star_cons_inv r c s :
  lang (Star r) (c :: s) ->
  exists u v, s = u ++ v /\ lang r (c :: u) /\ lang (Star r) v.
Proof.
  intros H. remember (Star r) as R eqn:HR. remember (c :: s) as w eqn:Hw.
  induction H; try discriminate.
  injection HR as ->.
  destruct u as [|c' u].
  - simpl in Hw. by apply IHlang2.
  - simpl in Hw. injection Hw as -> <-. by exists u, v.
Qed.

Lemma deriv_spec c r : forall s, lang (deriv c r) s <-> lang r (c :: s).
Proof.
  induction r as [| |p|r1 IH1 r2 IH2|r1 IH1 r2 IH2|r1 IH1]; intros s; simpl.
  - split; intros H; inversion H.
  - split; intros H; inversion H.
  - destruct (p c) eqn:Hp; split; intros H; inversion H; subst.
    + by constructor.
    + constructor.
    + congruence.
  - assert (Hcat : lang (Cat (deriv c r1) r2) s ->
                   lang (Cat r1 r2) (c :: s)).
    { intros H. inversion H; subst.
      change (lang (Cat r1 r2) ((c :: u) ++ v)). constructor; [|done].
      by apply IH1. }
    assert (Hinv : lang (Cat r1 r2) (c :: s) ->
                   lang (Cat (deriv c r1) r2) s \/
                   (lang r1 [] /\ lang (deriv c r2) s)).
    { intros (u&v&Heq&Hu&Hv)%lang_cat_inv.
      destruct u as [|c' u]; simpl in Heq.
      - subst v. right. split; [done|]. by apply IH2.
      - injection Heq as <- ->. left. constructor; [|done]. by apply IH1. }
    destruct (nullable r1) eqn:Hn; split.
    + intros H. inversion H; subst; [by apply Hcat|].
      change (lang (Cat r1 r2) ([] ++ c :: s)).
      constructor; [by apply nullable_spec|by apply IH2].
    + intros [H|[_ H]]%Hinv; [by apply lang_alt_l|by apply lang_alt_r].
    + apply Hcat.
    + intros [H|[H _]]%Hinv; [done|].
      apply nullable_spec in H. congruence.
  - split; intros H; inversion H; subst.
    + apply lang_alt_l. by apply IH1.
    + apply lang_alt_r. by apply IH2.
    + apply lang_alt_l. by apply IH1.
    + apply lang_alt_r. by apply IH2.
  - split.
    + intros H. inversion H; subst.
      change (lang (Star r1) ((c :: u) ++ v)). constructor; [|done].
      by apply IH1.
    + intros (u&v&->&Hu&Hv)%star_cons_inv. constructor; [|done]. by apply IH1.
Qed.

(** The derivative matcher decides the language. *)
Lemma accepts_spec r s : accepts r s = true <-> lang r s.
Proof.
  revert r. induction s as [|c s IH]; intros r; simpl.
  - apply nullable_spec.
  - rewrite IH. apply deriv_spec.
Qed.

Lemma accepts_prefix_spec r s :
  accepts_prefix r s = true <-> exists u v, s = u ++ v /\ lang r u.
Proof.
  revert r. induction s as [|c s IH]; intros r; simpl.
  - rewrite orb_false_r, nullable_spec. split.
    + intros H. by exists [], [].
    + intros (u&v&Heq&H). symmetry in Heq.
      by apply app_eq_nil in Heq as [-> _].
  - rewrite orb_true_iff, nullable_spec, IH. split.
    + intros [H|(u&v&->&H)]; [by exists [], (c :: s)|].
      exists (c :: u), v. split; [done|]. by apply deriv_spec.
    + intros (u&v&Heq&H). destruct u as [|c' u]; [by left|].
      simpl in Heq. injection Heq as <- ->. right.
      exists u, v. split; [done|]. by apply deriv_spec.
Qed.

Lemma lang_alt_inv r1 r2 s : lang (Alt r1 r2) s <-> lang r1 s \/ lang r2 s.
Proof.
  split.
  - intros H. inversion H; subst; auto.
  - intros [H|H]; [by apply lang_alt_l|by apply lang_alt_r].
Qed.

Lemma lang_eps_inv s : lang Eps s <-> s = [].
Proof.
  split.
  - intros H. by inversion H.
  - intros ->. constructor.
Qed.

Lemma lang_opt_inv r s : lang (Opt r) s <-> lang r s \/ s = [].
Proof. unfold Opt. by rewrite lang_alt_inv, lang_eps_inv. Qed.

Lemma lang_lit_inv c s : lang (Lit c) s <-> s = [c].
Proof.
  unfold Lit. rewrite lang_class_inv. split.
  - intros (d&->&Hd). apply Ascii.eqb_eq in Hd. by subst.
  - intros ->. exists c. split; [done|]. apply Ascii.eqb_refl.
Qed.

Lemma lang_word_inv w s : lang (Word w) s <-> s = w.
Proof.
  revert s. induction w as [|c w IH]; intros s; simpl.
  - apply lang_eps_inv.
  - rewrite lang_cat_inv. split.
    + intros (u&v&->&Hu%lang_lit_inv&Hv%IH). by subst.
    + intros ->. exists [c], w. split; [done|].
      split; [by apply lang_lit_inv|by apply IH].
Qed.

(** A starred set matches the words made of its characters. *)
Lemma lang_star_class p s :
  lang (Star (Class p)) s <-> Forall (fun c => p c = true) s.
Proof.
  split.
  - intros H. remember (Star (Class p)) as R eqn:HR.
    induction H; try discriminate; [constructor|].
    injection HR as ->. apply Forall_app. split; [|by apply IHlang2].
    apply lang_class_inv in H as (c&->&Hc). by constructor.
  - induction 1 as [|c s Hc _ IH]; [constructor|].
    change (lang (Star (Class p)) ([c] ++ s)).
    constructor; [by constructor|done].
Qed.

Lemma lang_plus_class p s :
  lang (Plus (Class p)) s <-> s ≠ [] /\ Forall (fun c => p c = true) s.
Proof.
  unfold Plus. rewrite lang_cat_inv. split.
  - intros (u&v&->&(c&->&Hc)%lang_class_inv&Hv%lang_star_class).
    split; [done|]. by constructor.
  - intros [Hne Hall]. destruct s as [|c s]; [done|].
    apply Forall_cons in Hall as [Hc Hall].
    exists [c], s. split; [done|].
    split; [by constructor|by apply lang_star_class].
Qed.

(** A trailing [.*] does not change which strings have a matching
    prefix. *)
Lemma accepts_prefix_dot_star r p s :
  accepts_prefix (Cat r (Star (Class p))) s = true <->
  exists u v, s = u ++ v /\ lang r u.
Proof.
  rewrite accepts_prefix_spec. split.
  - intros (u&v&->&(u1&u2&->&H1&_)%lang_cat_inv).
    exists u1, (u2 ++ v). by rewrite app_assoc.
  - intros (u&v&->&H). exists u, v. split; [done|].
    rewrite <- (app_nil_r u). constructor; [done|constructor].
Qed.

Lemma before_final_newline_spec s body :
  before_final_newline s = Some body <-> s = body ++ [newline].
Proof.
  unfold before_final_newline. split.
  - destruct (reverse s) as [|c b] eqn:Hr; [done|].
    destruct (Ascii.eqb c newline) eqn:Hc; [|done].
    intros [= <-]. apply Ascii.eqb_eq in Hc. subst c.
    rewrite <- (reverse_involutive s), Hr. by rewrite reverse_cons.
  - intros ->. rewrite reverse_app.
    change (reverse [newline]) with [newline]. cbn [app].
    rewrite Ascii.eqb_refl. by rewrite reverse_involutive.
Qed.

(** [^r$]: the whole string, or the string up to a final newline. *)
Lemma search_anchored_spec r s :
  search_anchored r s = true <->
  lang r (String.list_ascii_of_string s) \/
  exists body, String.list_ascii_of_string s = body ++ [newline] /\ lang r body.
Proof.
  unfold search_anchored. rewrite orb_true_iff, accepts_spec.
  apply or_iff_compat_l.
  destruct (before_final_newline _) as [body|] eqn:Hb.
  - apply before_final_newline_spec in Hb. rewrite accepts_spec. split.
    + intros H. by exists body.
    + intros (b'&Heq&H). rewrite Hb in Heq.
      by apply app_inj_tail in Heq as [-> _].
  - split; [done|]. intros (body&Heq&_).
    apply before_final_newline_spec in Heq. congruence.
Qed.

End RegexProofs.

(** ** Volume names *)

Module VolumeMixinProofs.
Import Regex RegexProofs VolumeMixin.

Example name_examples :
  clean_volume_name ["tank"] "Tank-2.a_b" = Return "Tank-2.a_b" /\
  clean_volume_name ["tank"] "tank" = Raise (ValidationError exists_msg) /\
  clean_volume_name [] "2tank" = Raise (ValidationError pattern_msg) /\
  clean_volume_name [] "log" = Raise (ValidationError reserved_msg) /\
  clean_volume_name [] "c0d0" = Raise (ValidationError prefix_msg) /\
  clean_volume_name [] "raidz2pool" = Raise (ValidationError prefix_msg) /\
  clean_volume_name [] "Mirror" = Return "Mirror".
Proof. repeat split. Qed.

Ltac each_char c :=
  destruct c as [[] [] [] [] [] [] [] []]; reflexivity.

Lemma ignore_case_letter c : ignore_case lower_az c = letter c.
Proof. each_char c. Qed.

Lemma ignore_case_name_set c : ignore_case name_set c = name_char c.
Proof. each_char c. Qed.

(** The pattern of names matches the well-formed names. *)
Lemma lang_NAME cs : lang NAME cs <-> well_formed cs.
Proof.
  unfold NAME, well_formed. rewrite lang_cat_inv. split.
  - intros (u&v&->&(c&->&Hc)%lang_class_inv&Hv%lang_star_class).
    exists c, v. split; [done|].
    split; [by rewrite <- ignore_case_letter|].
    eapply Forall_impl; [exact Hv|]. intros x Hx.
    by rewrite <- ignore_case_name_set.
  - intros (c&rest&->&Hc&Hrest). exists [c], rest. split; [done|]. split.
    + apply lang_class_inv. exists c. by rewrite ignore_case_letter.
    + apply lang_star_class. eapply Forall_impl; [exact Hrest|].
      intros x Hx. by rewrite ignore_case_name_set.
Qed.

Lemma search_NAME s : search_anchored NAME s = true <-> matches_pattern s.
Proof.
  rewrite search_anchored_spec. unfold matches_pattern.
  rewrite lang_NAME. apply or_iff_compat_l.
  split; intros (body&Heq&H); exists body; (split; [done|]); by apply lang_NAME.
Qed.

Lemma search_C_DIGIT s : search_start C_DIGIT s = true <-> starts_with_c_digit s.
Proof.
  unfold search_start, C_DIGIT, starts_with_c_digit.
  rewrite accepts_prefix_dot_star. split.
  - intros (u&v&->&(a&b&->&->%lang_lit_inv&(d&->&Hd)%lang_class_inv)%lang_cat_inv).
    by exists d, v.
  - intros (d&rest&->&Hd). exists ["c"%char; d], rest. split; [done|].
    apply lang_cat_inv. exists ["c"%char], [d]. split; [done|].
    split; [by apply lang_lit_inv|]. apply lang_class_inv. eauto.
Qed.

Lemma search_word w s :
  search_start (Cat (Word (String.list_ascii_of_string w)) (Star (Class dot))) s
  = true <-> starts_with w s.
Proof.
  unfold search_start, starts_with. rewrite accepts_prefix_dot_star. split.
  - intros (u&v&->&->%lang_word_inv). by exists v.
  - intros (rest&->). exists (String.list_ascii_of_string w), rest.
    split; [done|]. by apply lang_word_inv.
Qed.

(** The chain of tests, as one case distinction. *)
Lemma clean_volume_name_cases (volumes : list string) (vname : string) :
  let accepted :=
    (vname = "" \/ matches_pattern vname) /\ (vname ∉ volumes) /\
    vname ≠ "log" /\ ~ starts_with_c_digit vname /\
    ~ starts_with "mirror" vname /\ ~ starts_with "spare" vname /\
    ~ starts_with "raidz" vname in
  (clean_volume_name volumes vname = Return vname /\ accepted) \/
  (exists msg, clean_volume_name volumes vname = Raise (ValidationError msg) /\
               ~ accepted).
Proof.
  cbn zeta. unfold clean_volume_name.
  pose proof (search_NAME vname) as Hname.
  pose proof (search_C_DIGIT vname) as Hc.
  pose proof (search_word "mirror" vname) as Hm.
  pose proof (search_word "spare" vname) as Hs.
  pose proof (search_word "raidz" vname) as Hr.
  fold MIRROR in Hm. fold SPARE in Hs. fold RAIDZ in Hr.
  destruct (negb (bool_decide (vname = "")) && negb (search_anchored NAME vname))
    eqn:E1.
  { right. eexists. split; [done|].
    apply andb_true_iff in E1 as [He%negb_true_iff Hn%negb_true_iff].
    apply bool_decide_eq_false in He.
    intros [[?|Hp%Hname] _]; [done|congruence]. }
  assert (vname = "" \/ matches_pattern vname) as Hshape.
  { apply andb_false_iff in E1 as [He%negb_false_iff|Hn%negb_false_iff].
    - left. by apply bool_decide_eq_true in He.
    - right. by apply Hname. }
  clear E1. case_bool_decide as Hv.
  { right. eexists. split; [done|]. by intros (_&?&_). }
  case_bool_decide as Hl.
  { right. eexists. split; [done|]. intros (_&_&Hne&_). apply Hne.
    apply elem_of_cons in Hl as [Hl|Hl]; [done|by apply elem_of_nil in Hl]. }
  destruct (search_start C_DIGIT vname) eqn:Ec; cbn [orb].
  { right. eexists. split; [done|]. intros (_&_&_&Hn&_). by apply Hn, Hc. }
  destruct (search_start MIRROR vname) eqn:Em; cbn [orb].
  { right. eexists. split; [done|]. intros (_&_&_&_&Hn&_). by apply Hn, Hm. }
  destruct (search_start SPARE vname) eqn:Es; cbn [orb].
  { right. eexists. split; [done|]. intros (_&_&_&_&_&Hn&_). by apply Hn, Hs. }
  destruct (search_start RAIDZ vname) eqn:Er; cbn [orb].
  { right. eexists. split; [done|]. intros (_&_&_&_&_&_&Hn). by apply Hn, Hr. }
  left. split; [done|]. repeat split; try done.
  - intros ->. apply Hl. left.
  - intros H%Hc. congruence.
  - intros H%Hm. congruence.
  - intros H%Hs. congruence.
  - intros H%Hr. congruence.
Qed.

(** C6, as stated, fails: the empty name does not match the pattern and
    is accepted, because the pattern is tested only on a non-empty name. *)
Lemma empty_name_accepted :
  clean_volume_name ["tank"] "" = Return "" /\ ~ matches_pattern "".
Proof.
  split; [reflexivity|].
  intros [(c&rest&Heq&_)|(body&Heq&_)]; [discriminate|].
  by destruct body.
Qed.

(** C6, amended.  A non-empty name is accepted exactly when it matches
    the pattern (a letter followed by letters, digits, ['-'], ['_'] or
    ['.'], case ignored; the final [$] also admits one newline after it),
    is not the name of an existing volume, is not ['log'], and does not
    start with ['c'] and a digit, nor with ['mirror'], ['spare'] or
    ['raidz'].  The empty name is accepted unless a volume has it.  A name
    that is not accepted raises a validation error, and an accepted name is
    returned as it is. *)
Theorem volume_name_accepted (volumes : list string) (vname : string) :
  (vname ≠ "" ->
   (clean_volume_name volumes vname = Return vname <->
    matches_pattern vname /\ (vname ∉ volumes) /\ vname ≠ "log" /\
    ~ starts_with_c_digit vname /\ ~ starts_with "mirror" vname /\
    ~ starts_with "spare" vname /\ ~ starts_with "raidz" vname)) /\
  (vname = "" ->
   (clean_volume_name volumes vname = Return vname <-> vname ∉ volumes)) /\
  (forall r, clean_volume_name volumes vname = Return r -> r = vname) /\
  (clean_volume_name volumes vname ≠ Return vname ->
   exists msg, clean_volume_name volumes vname = Raise (ValidationError msg)).
Proof.
  assert (Hempty : vname = "" ->
            vname ≠ "log" /\ ~ starts_with_c_digit vname /\
            ~ starts_with "mirror" vname /\ ~ starts_with "spare" vname /\
            ~ starts_with "raidz" vname).
  { intros ->. split; [discriminate|].
    split; [intros (d&rest&Heq&_); discriminate Heq|].
    split; [intros (rest&Heq); discriminate Heq|].
    split; intros (rest&Heq); discriminate Heq. }
  destruct (clean_volume_name_cases volumes vname)
    as [[Hret Hacc]|(msg&Hraise&Hrej)]; cbn zeta in *.
  - rewrite Hret. destruct Hacc as (Hshape&Hnv&Hrest).
    split; [|split; [|split]].
    + intros Hne. split; [intros _|done].
      split; [by destruct Hshape|done].
    + intros _. done.
    + by intros r [= <-].
    + done.
  - rewrite Hraise. split; [|split; [|split]].
    + intros Hne. split; [done|].
      intros (Hp&Hrest). exfalso. apply Hrej. split; [by right|done].
    + intros Hv. split; [done|]. intros Hnv. exfalso. apply Hrej.
      split; [by left|]. split; [done|]. by apply Hempty.
    + done.
    + intros _. by exists msg.
Qed.

Lemma volume_name_accepted_witness :
  clean_volume_name ["tank"] "" = Return "".
Proof.
  apply (proj1 (proj2 (volume_name_accepted ["tank"] ""))).
  - reflexivity.
  - intros [Heq|Hel]%elem_of_cons; [discriminate Heq|].
    by apply elem_of_nil in Hel.
Defined.

End VolumeMixinProofs.

(** ** ZFS size fields *)

Module ZfsSizeProofs.
Import Regex RegexProofs ZfsSize.

Example r_match_examples :
  r_match "10GiB" = Some ("10", Some "GiB") /\
  r_match "10gib" = Some ("10", Some "gib") /\
  r_match "1.5T" = Some ("1.5", Some "T") /\
  r_match "10" = Some ("10", None) /\
  r_match "0" = Some ("0", None) /\
  r_match "1." = None /\ r_match ".5" = None /\ r_match "10Gi" = None /\
  r_match "10iB" = None /\ r_match "10GB" = None /\ r_match "" = None /\
  r_match "-1G" = None.
Proof. repeat split. Qed.

Example decimal_examples :
  Decimal_ok "10" = true /\ Decimal_ok "1.5" = true /\ Decimal_ok "1." = true /\
  Decimal_ok ".5" = true /\ Decimal_ok "+.5e-3" = true /\
  Decimal_ok "1__0" = true /\ Decimal_ok " 1 " = true /\
  Decimal_ok "-Infinity" = true /\ Decimal_ok "sNaN12" = true /\
  Decimal_ok "." = false /\ Decimal_ok "1e" = false /\ Decimal_ok "" = false /\
  Decimal_ok "+-1" = false /\ Decimal_ok "1 0" = false.
Proof. repeat split. Qed.

Example clean_two_fields :
  exists f,
    _clean_zfssize_fields (empty_form [("dataset_quota", "10 GiB")])
      ["quota"; "refquota"] "dataset_" = Return f /\
    cleaned_data f !! "dataset_quota" = Some "10G" /\
    _errors f !! "dataset_quota" = None /\
    cleaned_data f !! "dataset_refquota" = None /\
    _errors f !! "dataset_refquota" = Some [msg].
Proof. eexists. split; [reflexivity|]. repeat split. Qed.

Example clean_repeated_attr :
  _clean_zfssize_fields (empty_form [("zvol_volsize", "big")])
    ["volsize"; "volsize"] "zvol_" = Raise (KeyError "zvol_volsize").
Proof. reflexivity. Qed.

Ltac each_char c :=
  destruct c as [[] [] [] [] [] [] [] []]; try reflexivity; try discriminate.

Lemma ignore_case_unit c : ignore_case unit_set c = unit_set (to_upper c).
Proof. each_char c. Qed.

Lemma ignore_case_i c :
  ignore_case (Ascii.eqb "i") c = true <-> to_lower c = "i"%char.
Proof. split; revert c; intros c; each_char c. Qed.

Lemma ignore_case_b c :
  ignore_case (Ascii.eqb "B") c = true <-> to_lower c = "b"%char.
Proof. split; revert c; intros c; each_char c. Qed.

Lemma unit_not_number c : unit_set (to_upper c) = true -> number_char c = false.
Proof. each_char c. Qed.

Lemma digit_number_char c : digit c = true -> number_char c = true.
Proof. unfold number_char. by intros ->. Qed.

Lemma digit_not_space c : digit c = true -> decimal_space c = false.
Proof. each_char c. Qed.

Lemma number_char_not_underscore c : number_char c = true -> c ≠ "_"%char.
Proof. intros H ->. discriminate H. Qed.

Lemma lang_digits cs : lang (Plus (Class digit)) cs <-> all_digits cs.
Proof. apply lang_plus_class. Qed.

(** The pattern of group 1 matches the decimal numbers. *)
Lemma lang_NUMBER cs : lang NUMBER cs <-> decimal_number cs.
Proof.
  unfold NUMBER, decimal_number. rewrite lang_cat_inv. split.
  - intros (u&v&->&Hu%lang_digits&Hv%lang_opt_inv). exists u, v.
    split; [done|]. split; [done|].
    destruct Hv as [Hv|Hv]; [right|by left].
    apply lang_cat_inv in Hv as (a&fd&->&->%lang_lit_inv&Hfd%lang_digits).
    by exists fd.
  - intros (u&v&->&Hu&Hv). exists u, v. split; [done|].
    split; [by apply lang_digits|]. apply lang_opt_inv.
    destruct Hv as [->|(fd&->&Hfd)]; [by right|left].
    apply lang_cat_inv. exists ["."%char], fd. split; [done|].
    split; [by apply lang_lit_inv|by apply lang_digits].
Qed.

(** The pattern of group 2 matches the size suffixes. *)
Lemma lang_SUFFIX cs : lang SUFFIX cs <-> size_suffix cs.
Proof.
  unfold SUFFIX, size_suffix. rewrite lang_cat_inv. split.
  - intros (u&v&->&(c&->&Hc)%lang_class_inv&Hv%lang_opt_inv).
    exists c. split; [by rewrite <- ignore_case_unit|].
    destruct Hv as [Hv| ->]; [right|by left].
    apply lang_cat_inv in Hv
      as (a&b&->&(i&->&Hi)%lang_class_inv&(b'&->&Hb)%lang_class_inv).
    exists i, b'. split; [done|].
    split; [by apply ignore_case_i|by apply ignore_case_b].
  - intros (c&Hc&Hrest). exists [c].
    destruct Hrest as [->|(i&b&->&Hi&Hb)].
    + exists []. split; [done|].
      split; [|apply lang_opt_inv; by right].
      apply lang_class_inv. exists c. by rewrite ignore_case_unit.
    + exists [i; b]. split; [done|]. split.
      * apply lang_class_inv. exists c. by rewrite ignore_case_unit.
      * apply lang_opt_inv. left. apply lang_cat_inv.
        exists [i], [b]. split; [done|].
        split; apply lang_class_inv; eexists; split; try done;
          [by apply ignore_case_i|by apply ignore_case_b].
Qed.

Lemma lang_SIZE cs : lang SIZE cs <-> size_literal cs.
Proof.
  unfold SIZE, size_literal. rewrite lang_cat_inv. split.
  - intros (u&v&->&Hu%lang_NUMBER&Hv%lang_opt_inv). exists u, v.
    split; [done|]. split; [done|].
    destruct Hv as [Hv%lang_SUFFIX| ->]; [by right|by left].
  - intros (u&v&->&Hu&Hv). exists u, v. split; [done|].
    split; [by apply lang_NUMBER|]. apply lang_opt_inv.
    destruct Hv as [->|Hv]; [by right|left; by apply lang_SUFFIX].
Qed.

Lemma decimal_number_chars cs :
  decimal_number cs -> Forall (fun c => number_char c = true) cs.
Proof.
  intros (u&v&->&[_ Hu]&Hv). apply Forall_app. split.
  - eapply Forall_impl; [exact Hu|]. apply digit_number_char.
  - destruct Hv as [->|(fd&->&[_ Hfd])]; [constructor|].
    constructor; [done|].
    eapply Forall_impl; [exact Hfd|]. apply digit_number_char.
Qed.

Lemma size_suffix_head cs :
  size_suffix cs -> exists c rest, cs = c :: rest /\ number_char c = false.
Proof.
  intros (c&Hc&Hrest). exists c.
  destruct Hrest as [->|(i&b&->&_)]; eexists; split; try done;
    by apply unit_not_number.
Qed.

(** [span] cuts where the set stops. *)
Lemma span_unique p u v :
  Forall (fun c => p c = true) u ->
  (v = [] \/ exists c rest, v = c :: rest /\ p c = false) ->
  span p (u ++ v) = (u, v).
Proof.
  intros Hu Hv. induction Hu as [|c u Hc _ IH]; simpl.
  - destruct Hv as [->|(c&rest&->&Hc)]; [done|]. simpl. by rewrite Hc.
  - by rewrite Hc, IH.
Qed.

Lemma span_size_literal number suffix :
  decimal_number number -> (suffix = [] \/ size_suffix suffix) ->
  span number_char (number ++ suffix) = (number, suffix).
Proof.
  intros Hn Hs. apply span_unique; [by apply decimal_number_chars|].
  destruct Hs as [->|Hs]; [by left|right]. by apply size_suffix_head.
Qed.

Lemma size_literal_no_newline body : ~ size_literal (body ++ [newline]).
Proof.
  intros (n&suf&Heq&Hn&Hs).
  assert (Forall (fun c => c ≠ newline) (n ++ suf)) as Hall.
  { apply Forall_app. split.
    - eapply Forall_impl; [by apply decimal_number_chars|].
      intros c Hc ->. discriminate Hc.
    - destruct Hs as [->|(c&Hc&Hrest)]; [constructor|].
      assert (c ≠ newline) by (intros ->; discriminate Hc).
      destruct Hrest as [->|(i&b&->&Hi&Hb)]; repeat constructor; try done.
      + intros ->. discriminate Hi.
      + intros ->. discriminate Hb. }
  rewrite <- Heq in Hall. apply Forall_app in Hall as [_ Hnl].
  by apply Forall_cons in Hnl as [Hnl _].
Qed.

(** What [r.match] finds and what its groups are. *)
Lemma r_match_some s number suffix :
  size_literal (String.list_ascii_of_string s) ->
  span number_char (String.list_ascii_of_string s) = (number, suffix) ->
  r_match s = Some (String.string_of_list_ascii number,
                    match suffix with
                    | [] => None
                    | _ => Some (String.string_of_list_ascii suffix)
                    end).
Proof.
  intros Hlit Hspan. unfold r_match.
  apply lang_SIZE, accepts_spec in Hlit. by rewrite Hlit, Hspan.
Qed.

Lemma zero_is_size_literal : size_literal ["0"%char].
Proof.
  exists ["0"%char], []. split; [done|]. split; [|by left].
  exists ["0"%char], []. split; [done|]. split; [|by left].
  split; [done|]. by repeat constructor.
Qed.

Lemma acceptable_size_literal value :
  acceptable value <->
  size_literal (String.list_ascii_of_string (remove_spaces value)).
Proof.
  unfold acceptable. split; [|by right].
  intros [->|H]; [apply zero_is_size_literal|done].
Qed.

Lemma string_of_app_char n c :
  String.string_of_list_ascii (n ++ [c])
  = String.string_of_list_ascii n +:+ String c EmptyString.
Proof. induction n as [|d n IH]; simpl; [done|]. by rewrite IH. Qed.

Lemma filter_number_chars l :
  Forall (fun c => number_char c = true) l ->
  filter (fun c => c ≠ "_"%char) l = l.
Proof.
  induction 1 as [|c l Hc _ IH]; [done|].
  rewrite filter_cons_True by (by apply number_char_not_underscore).
  by rewrite IH.
Qed.

(** [Decimal] takes every text group 1 can hold. *)
Lemma Decimal_ok_number n :
  decimal_number n -> Decimal_ok (String.string_of_list_ascii n) = true.
Proof.
  intros Hn. unfold Decimal_ok.
  rewrite String.list_ascii_of_string_of_list_ascii.
  destruct Hn as (u&v&->&[Hune Hu]&Hv).
  assert (Hlast : exists w d, u ++ v = w ++ [d] /\ digit d = true).
  { destruct Hv as [->|(fd&->&[Hfne Hfd])].
    - rewrite app_nil_r.
      destruct (exists_last Hune) as (w&d&Heq). exists w, d. split; [done|].
      rewrite Heq in Hu. apply Forall_app in Hu as [_ Hd].
      by apply Forall_cons in Hd as [Hd _].
    - destruct (exists_last Hfne) as (w&d&Heq). rewrite Heq in *.
      exists (u ++ "."%char :: w), d.
      split; [by rewrite <- app_assoc|].
      apply Forall_app in Hfd as [_ Hd]. by apply Forall_cons in Hd as [Hd _]. }
  assert (Hstrip : strip (u ++ v) = u ++ v).
  { unfold strip. destruct u as [|c u]; [done|].
    apply Forall_cons in Hu as [Hc Hu]. simpl.
    rewrite (digit_not_space c Hc). simpl.
    destruct Hlast as (w&d&Heq&Hd). simpl in Heq. rewrite Heq.
    rewrite reverse_app. simpl.
    rewrite (digit_not_space d Hd). simpl.
    by rewrite reverse_cons, reverse_involutive. }
  rewrite Hstrip.
  assert (Hchars : Forall (fun c => number_char c = true) (u ++ v)).
  { apply decimal_number_chars. exists u, v. repeat split; auto. }
  rewrite (filter_number_chars _ Hchars). apply accepts_spec. unfold DECIMAL. cbn zeta.
  change (u ++ v) with ([] ++ (u ++ v)).
  constructor; [apply lang_opt_inv; by right|].
  apply lang_alt_l. rewrite <- (app_nil_r (u ++ v)).
  constructor; [|apply lang_opt_inv; by right].
  apply lang_alt_l. constructor; [by apply lang_digits|].
  apply lang_opt_inv. destruct Hv as [->|(fd&->&[_ Hfd])]; [by right|left].
  change ("."%char :: fd) with (["."%char] ++ fd).
  constructor; [by apply lang_lit_inv|by apply lang_star_class].
Qed.

Lemma normalized_examples :
  normalized "10 GiB" = "10G" /\ normalized "1.5 tib" = "1.5t" /\
  normalized "10 G" = "10 G" /\ normalized "0" = "0".
Proof. repeat split. Qed.

Lemma fill_missing_lookup fields : forall cdata k,
  fill_missing cdata fields !! k =
  if bool_decide (k ∈ fields) then Some (default "" (cdata !! k))
  else cdata !! k.
Proof.
  induction fields as [|field rest IH]; intros cdata k; cbn [fill_missing].
  - by rewrite bool_decide_false by apply not_elem_of_nil.
  - rewrite IH. destruct (decide (k = field)) as [->|Hne].
    + rewrite (bool_decide_true (field ∈ field :: rest)) by left.
      destruct (cdata !! field) eqn:Hc.
      * rewrite Hc. by case_bool_decide.
      * rewrite lookup_insert_eq. by case_bool_decide.
    + assert (match cdata !! field with
              | Some _ => cdata
              | None => <[field:=""]> cdata
              end !! k = cdata !! k) as ->.
      { destruct (cdata !! field); [done|]. by rewrite lookup_insert_ne. }
      destruct (decide (k ∈ rest)) as [Hin|Hnin].
      * rewrite bool_decide_true by done.
        by rewrite bool_decide_true by (by right).
      * rewrite bool_decide_false by done.
        rewrite bool_decide_false; [done|].
        by intros [?|?]%elem_of_cons.
Qed.

(** One field: the call returns and leaves every other key alone. *)
Lemma clean_field_frame prefix f attr value :
  cleaned_data f !! (prefix +:+ attr) = Some value ->
  exists f', clean_field prefix f attr = Return f' /\
    forall k, k ≠ prefix +:+ attr ->
      cleaned_data f' !! k = cleaned_data f !! k /\
      _errors f' !! k = _errors f !! k.
Proof.
  intros Hv. unfold clean_field. rewrite Hv.
  destruct (r_match (remove_spaces value)) as [[number suffix]|].
  - destruct (truthy suffix && _); destruct (Decimal_ok number);
      eexists; (split; [reflexivity|]); intros k Hk; cbn;
      rewrite ?lookup_delete_ne, ?lookup_insert_ne by done; done.
  - destruct (negb _); eexists; (split; [reflexivity|]); intros k Hk; cbn;
      rewrite ?lookup_delete_ne, ?lookup_insert_ne by done; done.
Qed.

Lemma endswith_ib_one c : endswith (lower (String c EmptyString)) "ib" = false.
Proof.
  unfold endswith. apply bool_decide_eq_false. intros H%suffix_length.
  simpl in H. lia.
Qed.

Lemma endswith_ib_three c i b :
  to_lower i = "i"%char -> to_lower b = "b"%char ->
  endswith (lower (String c (String i (String b EmptyString)))) "ib" = true.
Proof.
  intros Hi Hb. unfold endswith. apply bool_decide_eq_true. simpl.
  rewrite Hi, Hb. by exists [to_lower c].
Qed.

(** One field, accepted. *)
Lemma clean_field_accepted prefix f attr value :
  cleaned_data f !! (prefix +:+ attr) = Some value ->
  acceptable value ->
  clean_field prefix f attr =
  Return {| cleaned_data := <[prefix +:+ attr := normalized value]> (cleaned_data f);
            _errors := _errors f |}.
Proof.
  intros Hv Hacc%acceptable_size_literal. unfold clean_field. rewrite Hv.
  pose proof Hacc as (n&suf&Heq&Hn&Hs).
  pose proof (span_size_literal n suf Hn Hs) as Hspan. rewrite <- Heq in Hspan.
  rewrite (r_match_some _ _ _ Hacc Hspan).
  rewrite (Decimal_ok_number n Hn).
  unfold normalized. rewrite Hspan.
  destruct Hs as [->|(c&Hc&[->|(i&b&->&Hi&Hb)])].
  - cbn. by rewrite insert_id.
  - cbn [truthy default from_option]. unfold Datatypes.id.
    cbn [String.string_of_list_ascii]. rewrite endswith_ib_one.
    rewrite andb_false_r. by rewrite insert_id.
  - cbn [truthy default from_option]. unfold Datatypes.id.
    cbn [String.string_of_list_ascii].
    rewrite (endswith_ib_three c i b Hi Hb).
    rewrite bool_decide_false by done. cbn [negb andb first_char].
    by rewrite string_of_app_char.
Qed.

(** The loop over distinct attributes whose fields are all present. *)
Lemma clean_fields_spec prefix attrs : forall f,
  NoDup attrs ->
  (forall attr, attr ∈ attrs -> is_Some (cleaned_data f !! (prefix +:+ attr))) ->
  exists f', clean_fields prefix f attrs = Return f' /\
    (forall k, (forall attr, attr ∈ attrs -> k ≠ prefix +:+ attr) ->
       cleaned_data f' !! k = cleaned_data f !! k /\
       _errors f' !! k = _errors f !! k) /\
    (forall attr, attr ∈ attrs ->
       exists g g',
         cleaned_data g !! (prefix +:+ attr) = cleaned_data f !! (prefix +:+ attr) /\
         _errors g !! (prefix +:+ attr) = _errors f !! (prefix +:+ attr) /\
         clean_field prefix g attr = Return g' /\
         cleaned_data f' !! (prefix +:+ attr) = cleaned_data g' !! (prefix +:+ attr) /\
         _errors f' !! (prefix +:+ attr) = _errors g' !! (prefix +:+ attr)).
Proof.
  induction attrs as [|a rest IH]; intros f Hnd Hpresent.
  - exists f. split; [done|]. split; [done|].
    intros attr Hin. by apply elem_of_nil in Hin.
  - apply NoDup_cons in Hnd as [Hnotin Hnd].
    destruct (Hpresent a) as [value Hv]; [left|].
    destruct (clean_field_frame prefix f a value Hv) as (f1&Hf1&Hframe).
    assert (Hkeys : forall attr, attr ∈ rest -> prefix +:+ attr ≠ prefix +:+ a).
    { intros attr Hin Heq%CronProofs.append_inj_l. by subst. }
    destruct (IH f1 Hnd) as (f'&Hf'&Hother&Heach).
    { intros attr Hin. destruct (Hframe _ (Hkeys attr Hin)) as [-> _].
      apply Hpresent. by right. }
    exists f'. cbn [clean_fields]. rewrite Hf1. cbn [bind].
    split; [done|]. split.
    + intros k Hk.
      destruct (Hother k) as [-> ->]; [intros attr Hin; apply Hk; by right|].
      apply Hframe, Hk. left.
    + intros attr [->|Hin]%elem_of_cons.
      * exists f, f1. repeat split; try done; apply Hother;
          intros attr Hin; apply not_eq_sym; by apply Hkeys.
      * destruct (Heach attr Hin) as (g&g'&Hc&He&Hg&Hc'&He').
        destruct (Hframe _ (Hkeys attr Hin)) as [Hc1 He1].
        exists g, g'. repeat split; try done; congruence.
Qed.

(** What [normalized] stores, by the shape of the suffix. *)
Lemma normalized_spec value number suffix :
  String.list_ascii_of_string (remove_spaces value) = number ++ suffix ->
  decimal_number number -> (suffix = [] \/ size_suffix suffix) ->
  normalized value =
  match suffix with
  | [c; _; _] => String.string_of_list_ascii (number ++ [c])
  | _ => value
  end.
Proof.
  intros Heq Hn Hs. unfold normalized.
  by rewrite Heq, (span_size_literal number suffix Hn Hs).
Qed.

(** [r.match] on a size literal followed by a newline: the groups are
    those of the literal. *)
Lemma r_match_newline s body number suffix :
  String.list_ascii_of_string s = body ++ [newline] ->
  size_literal body ->
  span number_char body = (number, suffix) ->
  r_match s = Some (String.string_of_list_ascii number,
                    match suffix with
                    | [] => None
                    | _ => Some (String.string_of_list_ascii suffix)
                    end).
Proof.
  intros Heq Hlit Hspan. unfold r_match. rewrite Heq.
  destruct (accepts SIZE (body ++ [newline])) eqn:Ha.
  { exfalso. by apply accepts_spec, lang_SIZE, size_literal_no_newline in Ha. }
  rewrite (proj2 (before_final_newline_spec _ body) eq_refl).
  apply lang_SIZE, accepts_spec in Hlit. by rewrite Hlit, Hspan.
Qed.

Lemma r_match_nothing s :
  ~ size_literal (String.list_ascii_of_string s) ->
  (forall body, String.list_ascii_of_string s = body ++ [newline] ->
                ~ size_literal body) ->
  r_match s = None.
Proof.
  intros Hlit Hnl. unfold r_match.
  destruct (accepts SIZE _) eqn:Ha.
  { exfalso. by apply Hlit, lang_SIZE, accepts_spec. }
  destruct (before_final_newline _) as [body|] eqn:Hb; [|done].
  apply before_final_newline_spec in Hb.
  destruct (accepts SIZE body) eqn:Hbody; [|done].
  exfalso. by apply (Hnl body Hb), lang_SIZE, accepts_spec.
Qed.

(** One field whose value is a size literal and a final newline. *)
Lemma clean_field_newline prefix f attr value number suffix :
  cleaned_data f !! (prefix +:+ attr) = Some value ->
  String.list_ascii_of_string (remove_spaces value)
  = (number ++ suffix) ++ [newline] ->
  decimal_number number -> (suffix = [] \/ size_suffix suffix) ->
  clean_field prefix f attr =
  Return {| cleaned_data :=
              <[prefix +:+ attr :=
                  match suffix with
                  | [c; _; _] => String.string_of_list_ascii (number ++ [c])
                  | _ => value
                  end]> (cleaned_data f);
            _errors := _errors f |}.
Proof.
  intros Hv Heq Hn Hs. unfold clean_field. rewrite Hv.
  pose proof (span_size_literal number suffix Hn Hs) as Hspan.
  assert (Hlit : size_literal (number ++ suffix)) by (by exists number, suffix).
  rewrite (r_match_newline _ _ _ _ Heq Hlit Hspan).
  rewrite (Decimal_ok_number number Hn).
  destruct Hs as [->|(c&Hc&[->|(i&b&->&Hi&Hb)])].
  - cbn. by rewrite insert_id.
  - cbn [truthy default from_option]. unfold Datatypes.id.
    cbn [String.string_of_list_ascii]. rewrite endswith_ib_one.
    rewrite andb_false_r. by rewrite insert_id.
  - cbn [truthy default from_option]. unfold Datatypes.id.
    cbn [String.string_of_list_ascii].
    rewrite (endswith_ib_three c i b Hi Hb).
    rewrite bool_decide_false by done. cbn [negb andb first_char].
    by rewrite string_of_app_char.
Qed.

(** One field that the pattern does not match. *)
Lemma clean_field_refused prefix f attr value :
  cleaned_data f !! (prefix +:+ attr) = Some value ->
  ~ acceptable value -> ~ newline_ended value ->
  clean_field prefix f attr =
  Return {| cleaned_data := delete (prefix +:+ attr) (cleaned_data f);
            _errors := <[prefix +:+ attr := [msg]]> (_errors f) |}.
Proof.
  intros Hv Hrej Hnl. unfold clean_field. rewrite Hv.
  rewrite r_match_nothing.
  - rewrite bool_decide_false; [done|]. intros ->. apply Hrej. by left.
  - by rewrite <- acceptable_size_literal.
  - intros body Heq Hlit. apply Hnl. by exists body.
Qed.

(** C7, as stated, fails. The value ['10G'] followed by a newline is
    neither ["0"] nor a number with an optional suffix once its spaces are
    removed, yet Python's [$] lets the pattern match it: the field is kept
    as submitted and no error is recorded.  And an attribute listed twice
    raises [KeyError] when its value is rejected, the first pass having
    deleted the field. *)
Lemma final_newline_accepted :
  let value := String "1" (String "0" (String "G" (String newline ""))) in
  ~ acceptable value
  /\ (exists f',
        _clean_zfssize_fields (empty_form [("dataset_quota", value)])
          ["quota"] "dataset_" = Return f'
        /\ cleaned_data f' !! "dataset_quota" = Some value
        /\ _errors f' !! "dataset_quota" = None)
  /\ _clean_zfssize_fields (empty_form [("dataset_quota", "ten")])
       ["quota"; "quota"] "dataset_" = Raise (KeyError "dataset_quota").
Proof.
  cbn zeta. split.
  { intros [Hz|Hl%lang_SIZE%accepts_spec]; discriminate. }
  split; [|reflexivity].
  eexists. split; [reflexivity|]. split; reflexivity.
Qed.

(** C7, amended.  For distinct attributes, [_clean_zfssize_fields]
    returns, and for each field it processes (a missing one counts as
    empty) the value is accepted exactly when, spaces removed, it is ["0"]
    or a decimal number, optionally fractional, followed by an optional
    suffix B, K, M, G, T or P in either case, optionally followed by [iB] -
    or such a text followed by one final newline.  On acceptance the field
    holds the number and the single letter when the suffix ends in [iB]
    (as ['10 GiB'] becomes ['10G']; a final newline is then dropped), else
    the value as it was, and its errors are untouched; on rejection the
    field is deleted from the cleaned data and its error is the message
    about IEC suffixes. *)
Theorem zfssize_fields_cleaned (f : form) (attrs : list string)
    (prefix : string) :
  NoDup attrs ->
  normalized "10 GiB" = "10G" /\
  exists f', _clean_zfssize_fields f attrs prefix = Return f' /\
    forall attr, attr ∈ attrs ->
      let field := prefix +:+ attr in
      let value := default "" (cleaned_data f !! field) in
      (acceptable value ->
       cleaned_data f' !! field = Some (normalized value) /\
       _errors f' !! field = _errors f !! field /\
       exists number suffix,
         String.list_ascii_of_string (remove_spaces value) = number ++ suffix /\
         decimal_number number /\ (suffix = [] \/ size_suffix suffix) /\
         normalized value =
         match suffix with
         | [c; _; _] => String.string_of_list_ascii (number ++ [c])
         | _ => value
         end) /\
      (newline_ended value ->
       ~ acceptable value /\
       _errors f' !! field = _errors f !! field /\
       exists number suffix,
         String.list_ascii_of_string (remove_spaces value)
         = (number ++ suffix) ++ [newline] /\
         decimal_number number /\ (suffix = [] \/ size_suffix suffix) /\
         cleaned_data f' !! field =
         Some match suffix with
              | [c; _; _] => String.string_of_list_ascii (number ++ [c])
              | _ => value
              end) /\
      (~ acceptable value -> ~ newline_ended value ->
       cleaned_data f' !! field = None /\
       _errors f' !! field
       = Some ["Specify the size with IEC suffixes or 0, e.g. 10 GiB"]).
Proof.
  intros Hnd. split; [reflexivity|].
  unfold _clean_zfssize_fields.
  set (f0 := {| cleaned_data := fill_missing (cleaned_data f)
                                  (map (fun x => prefix +:+ x) attrs);
                _errors := _errors f |}).
  assert (Hfilled : forall attr, attr ∈ attrs ->
            cleaned_data f0 !! (prefix +:+ attr)
            = Some (default "" (cleaned_data f !! (prefix +:+ attr)))).
  { intros attr Hin. cbn. rewrite fill_missing_lookup.
    rewrite bool_decide_true; [done|].
    apply list_elem_of_fmap. by exists attr. }
  destruct (clean_fields_spec prefix attrs f0 Hnd) as (f'&Hf'&_&Heach).
  { intros attr Hin. rewrite (Hfilled attr Hin). eauto. }
  exists f'. split; [done|].
  intros attr Hin. cbn zeta.
  destruct (Heach attr Hin) as (g&g'&Hc&He&Hg&Hc'&He').
  rewrite (Hfilled attr Hin) in Hc. cbn in He.
  rewrite Hc', He'. split; [|split].
  - intros Hacc.
    rewrite (clean_field_accepted _ _ _ _ Hc Hacc) in Hg.
    injection Hg as <-. cbn. rewrite lookup_insert_eq.
    split; [done|]. split; [done|].
    pose proof Hacc as (n&suf&Heq&Hn&Hs)%acceptable_size_literal.
    exists n, suf. repeat split; try done. by apply normalized_spec.
  - intros (body&Heq&n&suf&->&Hn&Hs). split.
    { rewrite acceptable_size_literal, Heq. apply size_literal_no_newline. }
    rewrite (clean_field_newline _ _ _ _ n suf Hc Heq Hn Hs) in Hg.
    injection Hg as <-. cbn. rewrite lookup_insert_eq.
    split; [done|]. by exists n, suf.
  - intros Hrej Hnl.
    rewrite (clean_field_refused _ _ _ _ Hc Hrej Hnl) in Hg.
    injection Hg as <-. cbn. by rewrite lookup_delete_eq, lookup_insert_eq.
Qed.

Lemma zfssize_fields_cleaned_witness :
  exists f',
    _clean_zfssize_fields (empty_form [("dataset_quota", "10 GiB")])
      ["quota"; "refquota"] "dataset_" = Return f' /\
    cleaned_data f' !! "dataset_quota" = Some "10G" /\
    cleaned_data f' !! "dataset_refquota" = None /\
    _errors f' !! "dataset_refquota"
    = Some ["Specify the size with IEC suffixes or 0, e.g. 10 GiB"].
Proof.
  destruct (zfssize_fields_cleaned (empty_form [("dataset_quota", "10 GiB")])
              ["quota"; "refquota"] "dataset_") as (_&f'&Hf'&Hfields).
  { apply (bool_decide_unpack _). by vm_compute. }
  exists f'. split; [exact Hf'|].
  destruct (Hfields "quota") as [Hacc _].
  { left. }
  destruct (Hfields "refquota") as (_ & _ & Hrej).
  { right. left. }
  split.
  - apply Hacc. right. apply lang_SIZE, accepts_spec. reflexivity.
  - apply Hrej.
    + intros [Hz|Hl%lang_SIZE%accepts_spec]; discriminate.
    + intros (body & Heq & _). destruct body; discriminate Heq.
Defined.

End ZfsSizeProofs.

(** ** [VolumeManagerForm.save] *)

Module VolumeManagerProofs.
Import VolumeManager VolumeManagerSave.

Lemma filter_name_nil (name : string) (rows : list volume) :
  name ∉ map vol_name rows ->
  filter (fun v => vol_name v = name) rows = [].
Proof.
  induction rows as [|row rows IH]; intros Hn; [done|].
  rewrite filter_cons. destruct (decide (vol_name row = name)) as [He|He].
  - exfalso. apply Hn. rewrite <- He. simpl. left.
  - apply IH. intros Hin. apply Hn. simpl. by right.
Qed.

Lemma filter_name_cons (name : string) (rows : list volume) :
  name ∈ map vol_name rows ->
  exists v rest,
    filter (fun v => vol_name v = name) rows = v :: rest /\ v ∈ rows.
Proof.
  induction rows as [|row rows IH]; intros Hn; [by apply elem_of_nil in Hn|].
  rewrite filter_cons. destruct (decide (vol_name row = name)) as [He|He].
  - eexists _, _. split; [done|left].
  - simpl in Hn. apply elem_of_cons in Hn as [Hn|Hn]; [congruence|].
    destruct (IH Hn) as (v & rest & Hf & Hin).
    exists v, rest. split; [done|by right].
Qed.

Lemma fresh_id_above (ids : list nat) : Forall (fun k => k < fresh_id ids) ids.
Proof.
  unfold fresh_id.
  assert (H : Forall (fun k => k <= list_max ids) ids)
    by (apply list_max_le; lia).
  eapply Forall_impl; [exact H|]. simpl. intros. lia.
Qed.

Lemma delete_new_volume (rows : list volume) (v : volume) :
  vol_id v = fresh_id (map vol_id rows) ->
  filter (fun row => vol_id row ≠ vol_id v) (rows ++ [v]) = rows
  /\ filter (fun row => vol_id row ≠ vol_id v) rows = rows.
Proof.
  intros Hv.
  assert (Hall : Forall (fun row => vol_id row ≠ vol_id v) rows).
  { rewrite Hv. pose proof (fresh_id_above (map vol_id rows)) as H.
    rewrite Forall_fmap in H. eapply Forall_impl; [exact H|].
    simpl. intros. lia. }
  assert (Hkeep : filter (fun row => vol_id row ≠ vol_id v) rows = rows).
  { clear Hv. induction Hall as [|row rows Hrow _ IH]; [done|].
    rewrite filter_cons. destruct (decide (vol_id row ≠ vol_id v)); [|done].
    by rewrite IH. }
  split; [|done].
  rewrite filter_app, Hkeep, filter_cons.
  destruct (decide (vol_id v ≠ vol_id v)); [done|].
  by rewrite filter_nil, app_nil_r.
Qed.

Definition same_rows (st st' : state) : Prop :=
  volumes st' = volumes st /\ scrubs st' = scrubs st.

Ltac run :=
  cbv [try_except try_block after_block handler mbind attempt notify get
       update set_locals set_volumes set_scrubs ret raise entered];
  cbn [volumes scrubs calls l_volume l_scrub l_add fst snd negb andb orb
       raises vol_id vol_name vol_encrypt scrub_id scrub_volume].

Ltac fork e s := destruct (fails e s) eqn:?; run.

Ltac deleted :=
  unfold deletions; cbn [calls]; rewrite ?omap_app; cbn [omap];
  rewrite ?app_nil_r; try reflexivity.

Lemma attach_groups_rows (e : env) (vol : string)
    (groups : list (nat * VdevForm.cleaned_data)) (st : state) :
  same_rows st (attach_groups e vol groups st).1
  /\ deletions (attach_groups e vol groups st).1 = deletions st
  /\ l_volume (attach_groups e vol groups st).1 = l_volume st
  /\ l_scrub (attach_groups e vol groups st).1 = l_scrub st
  /\ l_add (attach_groups e vol groups st).1 = l_add st.
Proof.
  revert st. induction groups as [|[i row] groups IH]; intros st.
  - by cbv.
  - cbn [attach_groups]. run. fork e (AttachGroup i); [by cbv|].
    match goal with |- context [attach_groups e vol groups ?s] =>
      destruct (IH s) as [[H1 H2] (H3 & H4 & H5 & H6)] end.
    rewrite H3. simpl in *. repeat split; try done. deleted.
Qed.

Lemma protected_creation (e : env) (inp : inputs) (st : state) :
  volume_name inp ∉ names st ->
  (creation_fails e inp = true -> fails e DeleteVolume = false ->
     raises (try_except (try_block e inp) (handler e) (entered st)).2
     /\ same_rows st (try_except (try_block e inp) (handler e) (entered st)).1
     /\ (fails e QueryVolumes = false ->
         deletions (try_except (try_block e inp) (handler e) (entered st)).1
         = deletions st ++ [(volume_name inp, false, false)]))
  /\ (creation_fails e inp = false ->
      exists v s st',
        try_except (try_block e inp) (handler e) (entered st)
        = (st', Return tt)
        /\ volumes st' = volumes st ++ [v] /\ scrubs st' = scrubs st ++ [s]
        /\ deletions st' = deletions st
        /\ l_volume st' = Some v /\ l_add st' = Some false
        /\ vol_name v = volume_name inp
        /\ vol_encrypt v = (if encryption inp then 1 else 0)%Z
        /\ scrub_volume s = vol_id v).
Proof.
  intros Hnew. unfold creation_fails, same_rows. run.
  fork e QueryVolumes.
  { split; [|done]. intros _ _. by repeat split. }
  rewrite (filter_name_nil _ _ Hnew). run.
  set (v := {| vol_id := fresh_id (map vol_id (volumes st));
               vol_name := volume_name inp;
               vol_encrypt := if encryption inp then 1%Z else 0%Z |}).
  destruct (delete_new_volume (volumes st) v eq_refl) as [Hdel Hkeep].
  fork e SaveVolume.
  { split; [|done]. intros _ Hd. rewrite Hd. run.
    split; [done|]. split; [by split|]. intros _. deleted. }
  fork e DoCreateVolume.
  { split; [|done]. intros _ Hd. rewrite Hd. run.
    split; [done|]. split; [by split|]. intros _. deleted. }
  destruct (truthy (dedup inp)) eqn:Hdedup; run.
  - fork e SetDedup.
    { split; [|done]. intros _ Hd. rewrite Hd. run.
      split; [done|]. split; [by split|]. intros _. deleted. }
    fork e CreateScrub.
    { split; [|done]. intros _ Hd. rewrite Hd. run.
      split; [done|]. split; [by split|]. intros _. deleted. }
    split; [done|]. intros _. eexists v, _, _. split; [reflexivity|].
    repeat split. deleted.
  - fork e CreateScrub.
    { split; [|done]. intros _ Hd. rewrite Hd. run.
      split; [done|]. split; [by split|]. intros _. deleted. }
    split; [done|]. intros _. eexists v, _, _. split; [reflexivity|].
    repeat split. deleted.
Qed.

Lemma protected_append (e : env) (inp : inputs) (st : state) :
  volume_name inp ∈ names st ->
  same_rows st (try_except (try_block e inp) (handler e) (entered st)).1
  /\ deletions (try_except (try_block e inp) (handler e) (entered st)).1
     = deletions st
  /\ ((try_except (try_block e inp) (handler e) (entered st)).2 = Return tt ->
      exists v,
        v ∈ volumes st
        /\ l_volume (try_except (try_block e inp) (handler e) (entered st)).1
           = Some v
        /\ l_add (try_except (try_block e inp) (handler e) (entered st)).1
           = Some true).
Proof.
  intros Hold. unfold same_rows. run.
  fork e QueryVolumes; [by repeat split|].
  destruct (filter_name_cons _ _ Hold) as (v & rest & -> & Hv). run.
  destruct (attach_groups_rows e (vol_name v) (grouped 0 (formset inp))
    {| volumes := volumes st; scrubs := scrubs st; calls := calls st;
       l_volume := Some v; l_scrub := None; l_add := Some true |})
    as ([H1 H2] & H3 & H4 & H5 & H6).
  destruct (attach_groups _ _ _ _) as [st' [[]|exc]]; simpl in *; run.
  - repeat split; try done. intros _. by exists v.
  - rewrite H6, H4, H5. run. by repeat split.
Qed.

Lemma save_unfold (e : env) (inp : inputs) (st : state) :
  save e inp st =
    match try_except (try_block e inp) (handler e) (entered st) with
    | (st', Return _) => after_block e inp st'
    | (st', Raise exc) => (st', Raise exc)
    end.
Proof. reflexivity. Qed.

Ltac settled := repeat split; try done; deleted.

Lemma after_block_create (e : env) (inp : inputs) (st : state) (v : volume) :
  l_volume st = Some v -> l_add st = Some false ->
  same_rows st (after_block e inp st).1
  /\ deletions (after_block e inp st).1 = deletions st
  /\ (if later_fails e inp then raises (after_block e inp st).2
      else (after_block e inp st).2 = Return v).
Proof.
  destruct st as [rows srows cs lv ls la]. cbn. intros -> ->.
  unfold later_fails, same_rows. run. rewrite andb_false_r.
  assert (Hsync :
    (0 <? (if encryption inp then 1 else 0))%Z && negb (is_freenas e)
      && failover_licensed e
    = encryption inp && negb (is_freenas e) && failover_licensed e)
    by by destruct (encryption inp).
  rewrite Hsync.
  destruct (encryption inp && negb (is_freenas e) && failover_licensed e);
    run.
  - fork e DoSyncFileSend; [settled|].
    fork e ReloadDisk; [settled|].
    fork e StartSyslogd; [settled|].
    fork e RestartSystemDatasets; [settled|].
    fork e RestartCron; [settled|].
    fork e GetSmartd; [settled|].
    destruct (smartd_enabled e); run; [|settled].
    fork e RestartSmartd; settled.
  - fork e ReloadDisk; [settled|].
    fork e StartSyslogd; [settled|].
    fork e RestartSystemDatasets; [settled|].
    fork e RestartCron; [settled|].
    fork e GetSmartd; [settled|].
    destruct (smartd_enabled e); run; [|settled].
    fork e RestartSmartd; settled.
Qed.

Lemma primary_key (rows : list volume) (v row : volume) :
  NoDup (map vol_id rows) -> v ∈ rows -> row ∈ rows ->
  vol_id row = vol_id v -> row = v.
Proof.
  induction rows as [|r rows IH]; intros Hnd Hv Hrow Hid;
    [by apply elem_of_nil in Hv|].
  cbn in Hnd. apply NoDup_cons in Hnd as [Hr Hnd].
  apply elem_of_cons in Hv as [->|Hv];
    apply elem_of_cons in Hrow as [->|Hrow]; [done| | |by apply IH].
  - exfalso. apply Hr. rewrite <- Hid.
    apply (list_elem_of_fmap_2 vol_id _ _ Hrow).
  - exfalso. apply Hr. rewrite Hid.
    apply (list_elem_of_fmap_2 vol_id _ _ Hv).
Qed.

Lemma update_row (rows : list volume) (v : volume) (n : Z) :
  NoDup (map vol_id rows) -> v ∈ rows ->
  let saved :=
    map (fun row => if bool_decide (vol_id row = vol_id v)
                    then {| vol_id := vol_id v; vol_name := vol_name v;
                            vol_encrypt := n |}
                    else row) rows in
  map vol_id saved = map vol_id rows /\ map vol_name saved = map vol_name rows.
Proof.
  intros Hnd Hv. cbn zeta. rewrite !map_map. split.
  - apply map_ext_in. intros row _. by case_bool_decide.
  - apply map_ext_in. intros row Hrow%list_elem_of_In.
    case_bool_decide as Hid; [|done].
    by rewrite (primary_key rows v row Hnd Hv Hrow Hid).
Qed.

(** The statements after the [if volume.vol_encrypt >= 2 and add] block,
    when appending. *)
Definition append_tail (e : env) (inp : inputs) (v w : volume) : M volume :=
  do! _ :=
    if (0 <? (if encryption inp then 1 else 0))%Z && negb (is_freenas e)
       && failover_licensed e
    then notify e DoSyncFileSend (SyncFileSend (vol_name v))
    else ret tt in
  do! _ := notify e ReloadDisk (Reload "disk") in
  do! _ := ret tt in
  do! _ := notify e RestartCron (Restart "cron") in
  do! _ := attempt e GetSmartd in
  do! _ :=
    if smartd_enabled e then notify e RestartSmartd (Restart "smartd")
    else ret tt in
  ret w.

Lemma append_tail_rows (e : env) (inp : inputs) (v w : volume) (st : state) :
  same_rows st (append_tail e inp v w st).1
  /\ deletions (append_tail e inp v w st).1 = deletions st.
Proof.
  unfold append_tail, same_rows.
  destruct ((0 <? (if encryption inp then 1 else 0))%Z
            && negb (is_freenas e) && failover_licensed e); run.
  - fork e DoSyncFileSend; [settled|].
    fork e ReloadDisk; [settled|].
    fork e RestartCron; [settled|].
    fork e GetSmartd; [settled|].
    destruct (smartd_enabled e); run; [|settled].
    fork e RestartSmartd; settled.
  - fork e ReloadDisk; [settled|].
    fork e RestartCron; [settled|].
    fork e GetSmartd; [settled|].
    destruct (smartd_enabled e); run; [|settled].
    fork e RestartSmartd; settled.
Qed.

Lemma after_block_append (e : env) (inp : inputs) (st : state) (v : volume) :
  l_volume st = Some v -> l_add st = Some true ->
  NoDup (map vol_id (volumes st)) -> v ∈ volumes st ->
  map vol_id (volumes (after_block e inp st).1) = map vol_id (volumes st)
  /\ names (after_block e inp st).1 = names st
  /\ scrubs (after_block e inp st).1 = scrubs st
  /\ deletions (after_block e inp st).1 = deletions st.
Proof.
  destruct st as [rows srows cs lv ls la].
  cbn [l_volume l_add volumes scrubs]. intros -> -> Hnd Hv.
  destruct (update_row rows v 1 Hnd Hv) as [Hids Hnames].
  unfold names.
  set (v' := {| vol_id := vol_id v; vol_name := vol_name v;
                vol_encrypt := 1 |}).
  set (st0 := {| volumes := rows; scrubs := srows; calls := cs;
                 l_volume := Some v; l_scrub := ls; l_add := Some true |}).
  destruct (2 <=? vol_encrypt v)%Z eqn:Henc.
  - destruct (fails e DoGeliPassphrase) eqn:Hg.
    { assert (Heq : after_block e inp st0
        = (st0, Raise (ExternalError (step_name DoGeliPassphrase)))).
      { unfold st0. run. by rewrite Henc, Hg. }
      rewrite Heq. by cbn. }
    destruct (fails e SaveEncrypt) eqn:Hs.
    { assert (Heq : exists st1,
        after_block e inp st0
        = (st1, Raise (ExternalError (step_name SaveEncrypt)))
        /\ volumes st1 = rows /\ scrubs st1 = srows
        /\ deletions st1 = deletions st0).
      { eexists. unfold st0. run. rewrite Henc, Hg. run. rewrite Hs.
        split; [reflexivity|]. settled. }
      destruct Heq as (st1 & -> & H1 & H2 & H3). cbn. by rewrite H1, H2, H3. }
    assert (Heq : exists st1,
      after_block e inp st0 = append_tail e inp v v' st1
      /\ volumes st1
         = map (fun row => if bool_decide (vol_id row = vol_id v)
                           then v' else row) rows
      /\ scrubs st1 = srows /\ deletions st1 = deletions st0).
    { eexists. unfold st0, append_tail. run. rewrite Henc, Hg. run.
      rewrite Hs. split; [reflexivity|]. settled. }
    destruct Heq as (st1 & -> & H1 & H2 & H3).
    destruct (append_tail_rows e inp v v' st1) as [[H4 H5] H6].
    rewrite H4, H5, H6, H1, H2, H3. unfold v'. by rewrite Hids, Hnames.
  - assert (Heq : after_block e inp st0 = append_tail e inp v v st0).
    { unfold st0, append_tail. run. by rewrite Henc. }
    rewrite Heq.
    destruct (append_tail_rows e inp v v st0) as [[H4 H5] H6].
    by rewrite H4, H5, H6.
Qed.

(** *** What a failed [save] leaves behind *)

(** A failure inside the [try] statement while a volume is created.  The
    exception propagates; the [Volume] row that was inserted is removed
    again by [volume.delete(destroy=False, cascade=False)], so the tables
    are as they were before the call (no [Scrub] row exists yet: creating
    it is the last statement of the block).  The row's [delete] itself is
    taken not to fail. *)
Theorem failed_creation_leaves_no_row (e : env) (inp : inputs) (st : state) :
  volume_name inp ∉ names st ->
  creation_fails e inp = true ->
  fails e DeleteVolume = false ->
  raises (save e inp st).2
  /\ volumes (save e inp st).1 = volumes st
  /\ scrubs (save e inp st).1 = scrubs st
  /\ (fails e QueryVolumes = false ->
      deletions (save e inp st).1
      = deletions st ++ [(volume_name inp, false, false)]).
Proof.
  intros Hnew Hfail Hdel. rewrite save_unfold.
  destruct (protected_creation e inp st Hnew) as [Hbad _].
  destruct (Hbad Hfail Hdel) as (Hr & [Hv Hs] & Hd).
  destruct (try_except (try_block e inp) (handler e) (entered st))
    as [st' [[]|exc]]; [done|].
  by repeat split.
Qed.

Lemma failed_creation_leaves_no_row_witness :
  raises (save (failing (only DoCreateVolume)) (new_pool "tank")
            (database [] [])).2
  /\ volumes (save (failing (only DoCreateVolume)) (new_pool "tank")
               (database [] [])).1 = []
  /\ scrubs (save (failing (only DoCreateVolume)) (new_pool "tank")
              (database [] [])).1 = []
  /\ (false = false ->
      deletions (save (failing (only DoCreateVolume)) (new_pool "tank")
                   (database [] [])).1
      = [("tank", false, false)]).
Proof.
  apply (failed_creation_leaves_no_row (failing (only DoCreateVolume))
           (new_pool "tank") (database [] [])).
  - apply not_elem_of_nil.
  - reflexivity.
  - reflexivity.
Defined.

(** Appending to an existing volume never deletes a row, whatever fails:
    the [Volume] table keeps its keys and names, the [Scrub] table is
    untouched and no [volume.delete] is called. *)
Theorem append_never_deletes (e : env) (inp : inputs) (st : state) :
  volume_name inp ∈ names st ->
  NoDup (map vol_id (volumes st)) ->
  map vol_id (volumes (save e inp st).1) = map vol_id (volumes st)
  /\ names (save e inp st).1 = names st
  /\ scrubs (save e inp st).1 = scrubs st
  /\ deletions (save e inp st).1 = deletions st.
Proof.
  intros Hold Hnd. rewrite save_unfold.
  destruct (protected_append e inp st Hold) as ([Hv Hs] & Hd & Hok).
  destruct (try_except (try_block e inp) (handler e) (entered st))
    as [st' [[]|exc]]; cbn [fst snd] in *.
  - destruct (Hok eq_refl) as (v & Hin & Hlv & Hla).
    rewrite <- Hv in Hnd, Hin.
    destruct (after_block_append e inp st' v Hlv Hla Hnd Hin)
      as (H1 & H2 & H3 & H4).
    rewrite H1, H2, H3, H4. unfold names. by rewrite Hv, Hs, Hd.
  - unfold names. by rewrite Hv, Hs, Hd.
Qed.

Lemma append_never_deletes_witness :
  map vol_id (volumes (save (failing (only (AttachGroup 0))) (new_pool "tank")
     (database [{| vol_id := 3; vol_name := "tank"; vol_encrypt := 2 |}]
        [])).1) = [3]
  /\ names (save (failing (only (AttachGroup 0))) (new_pool "tank")
     (database [{| vol_id := 3; vol_name := "tank"; vol_encrypt := 2 |}]
        [])).1 = ["tank"]
  /\ scrubs (save (failing (only (AttachGroup 0))) (new_pool "tank")
     (database [{| vol_id := 3; vol_name := "tank"; vol_encrypt := 2 |}]
        [])).1 = []
  /\ deletions (save (failing (only (AttachGroup 0))) (new_pool "tank")
     (database [{| vol_id := 3; vol_name := "tank"; vol_encrypt := 2 |}]
        [])).1 = [].
Proof.
  apply (append_never_deletes (failing (only (AttachGroup 0)))
           (new_pool "tank")
           (database [{| vol_id := 3; vol_name := "tank";
                         vol_encrypt := 2 |}] [])).
  - apply elem_of_cons. by left.
  - apply NoDup_singleton.
Defined.

(** When no operation of the [try] statement fails, the new [Volume] row
    and its [Scrub] row stay in the database whatever happens afterwards:
    [save] raises exactly when one of the later operations (key file
    sync, reload of [disk], start and restart of the services, the
    [smartd] lookup) raises, and nothing is deleted then. *)
Theorem late_failure_keeps_rows (e : env) (inp : inputs) (st : state) :
  volume_name inp ∉ names st ->
  creation_fails e inp = false ->
  exists v s,
    volumes (save e inp st).1 = volumes st ++ [v]
    /\ vol_name v = volume_name inp
    /\ vol_encrypt v = (if encryption inp then 1 else 0)%Z
    /\ scrubs (save e inp st).1 = scrubs st ++ [s]
    /\ scrub_volume s = vol_id v
    /\ deletions (save e inp st).1 = deletions st
    /\ (if later_fails e inp then raises (save e inp st).2
        else (save e inp st).2 = Return v).
Proof.
  intros Hnew Hok. rewrite save_unfold.
  destruct (protected_creation e inp st Hnew) as [_ Hgood].
  destruct (Hgood Hok)
    as (v & s & st' & -> & Hv & Hs & Hd & Hlv & Hla & Hn & He & Hsv).
  destruct (after_block_create e inp st' v Hlv Hla) as ([H1 H2] & H3 & H4).
  exists v, s. rewrite H1, H2, H3. by repeat split.
Qed.

Lemma late_failure_keeps_rows_witness :
  exists v s,
    volumes (save (failing (only RestartCron)) (new_pool "tank")
               (database [] [])).1 = [] ++ [v]
    /\ vol_name v = "tank"
    /\ vol_encrypt v = 0%Z
    /\ scrubs (save (failing (only RestartCron)) (new_pool "tank")
                (database [] [])).1 = [] ++ [s]
    /\ scrub_volume s = vol_id v
    /\ deletions (save (failing (only RestartCron)) (new_pool "tank")
                   (database [] [])).1 = []
    /\ raises (save (failing (only RestartCron)) (new_pool "tank")
                 (database [] [])).2.
Proof.
  apply (late_failure_keeps_rows (failing (only RestartCron))
           (new_pool "tank") (database [] [])).
  - apply not_elem_of_nil.
  - reflexivity.
Defined.

(** When the first query raises, [add] is not bound yet: the [except]
    clause itself fails on reading it, and [save] raises
    [UnboundLocalError] in place of the query's exception.  Nothing has
    been written or called. *)
Theorem query_failure_is_masked (e : env) (inp : inputs) (st : state) :
  fails e QueryVolumes = true ->
  (save e inp st).2 = Raise (UnboundLocalError "add")
  /\ volumes (save e inp st).1 = volumes st
  /\ scrubs (save e inp st).1 = scrubs st
  /\ calls (save e inp st).1 = calls st.
Proof.
  intros Hq. rewrite save_unfold. run. by rewrite Hq.
Qed.

Lemma query_failure_is_masked_witness :
  (save (failing (only QueryVolumes)) (new_pool "tank")
     (database [] [])).2 = Raise (UnboundLocalError "add")
  /\ volumes (save (failing (only QueryVolumes)) (new_pool "tank")
               (database [] [])).1 = []
  /\ scrubs (save (failing (only QueryVolumes)) (new_pool "tank")
              (database [] [])).1 = []
  /\ calls (save (failing (only QueryVolumes)) (new_pool "tank")
             (database [] [])).1 = [].
Proof.
  apply (query_failure_is_masked (failing (only QueryVolumes))
           (new_pool "tank") (database [] [])).
  reflexivity.
Defined.

(** *** C8: the clean-up of a failed [save] *)




End VolumeManagerProofs.

(** ** The cron job service: the user check *)

Module CronUserProofs.
Import Cron CronProofs.

Lemma contains_spec (c : ascii) (s : string) :
  PyStr.contains c s = true <-> c ∈ String.list_ascii_of_string s.
Proof.
  induction s as [|d s IH]; simpl.
  - split; [done|]. by intros H%elem_of_nil.
  - rewrite orb_true_iff, IH, elem_of_cons, Ascii.eqb_eq. done.
Qed.

Lemma user_errors_spec mw data schema :
  user_errors mw data schema =
    match user data with
    | None => []
    | Some u =>
        if bool_decide (u = "") then []
        else if PyStr.contains " " u then
          [(schema +:+ ".user", "Usernames cannot have spaces")]
        else if get_user_object mw u then []
        else [(schema +:+ ".user", "Specified user does not exist")]
    end.
Proof.
  unfold user_errors, truthy. destruct (user data) as [u|]; [|done].
  cbn [default from_option]. unfold Datatypes.id.
  case_bool_decide; cbn [negb]; [done|].
  destruct (PyStr.contains " " u); [done|].
  by destruct (get_user_object mw u).
Qed.

Lemma range_errors_key value lo hi attribute invalid out_of_range entry :
  entry ∈ range_errors value lo hi attribute invalid out_of_range ->
  entry.1 = attribute.
Proof.
  unfold range_errors.
  repeat match goal with
         | |- context [if ?b then _ else _] => destruct b
         | |- context [match ?o with Some _ => _ | None => _ end] => destruct o
         end; try (by intros H%elem_of_nil);
    by intros [->|H%elem_of_nil]%elem_of_cons.
Qed.

(** The user check.  An error is recorded for the user exactly when the
    name is not empty and either has a space or is unknown to
    [notifier.get_user_object]; a name with a space is rejected without
    being looked up, an absent or empty name is neither looked up nor
    rejected, and any other name is looked up once. *)
Theorem user_checked mw (data : cron_job) (schema : string) :
  let verrors := (validate_data mw data schema).1.2 in
  let calls := (validate_data mw data schema).1.1 in
  ((exists msg, (schema +:+ ".user", msg) ∈ verrors) <->
   exists u, user data = Some u /\ u ≠ ""
     /\ (" "%char ∈ String.list_ascii_of_string u
         \/ get_user_object mw u = false)) /\
  (forall u, user data = Some u ->
     " "%char ∈ String.list_ascii_of_string u ->
     calls = []
     /\ (schema +:+ ".user", "Usernames cannot have spaces") ∈ verrors) /\
  (forall u, user data = Some u -> u ≠ "" ->
     " "%char ∉ String.list_ascii_of_string u ->
     calls = [GetUserObject u]) /\
  (user data ∈ [None; Some ""] -> calls = []).
Proof.
  cbn zeta. rewrite validate_data_errors.
  assert (Hcalls : (validate_data mw data schema).1.1 =
    match user data with
    | None => []
    | Some u =>
        if bool_decide (u = "") then []
        else if PyStr.contains " " u then [] else [GetUserObject u]
    end).
  { unfold validate_data, truthy. destruct (user data) as [u|]; [|done].
    cbn [default from_option]. unfold Datatypes.id.
    case_bool_decide; cbn [negb]; [done|].
    destruct (PyStr.contains " " u); [done|].
    by destruct (get_user_object mw u). }
  rewrite Hcalls, user_errors_spec. clear Hcalls.
  split; [|split; [|split]].
  - split.
    + intros (msg & [Hel|[Hel|Hel]%elem_of_app]%elem_of_app).
      * apply range_errors_key in Hel. apply append_inj_l in Hel.
        discriminate.
      * apply range_errors_key in Hel. apply append_inj_l in Hel.
        discriminate.
      * destruct (user data) as [u|]; [|by apply elem_of_nil in Hel].
        exists u. case_bool_decide; [by apply elem_of_nil in Hel|].
        split; [done|]. split; [done|].
        destruct (PyStr.contains " " u) eqn:Hsp;
          [left; by apply contains_spec|].
        right. destruct (get_user_object mw u); [|done].
        by apply elem_of_nil in Hel.
    + intros (u & -> & Hne & Hbad).
      rewrite (bool_decide_false _ Hne).
      destruct (PyStr.contains " " u) eqn:Hsp.
      { eexists. rewrite !elem_of_app. right. right. left. }
      destruct Hbad as [Hbad%contains_spec| ->]; [congruence|].
      eexists. rewrite !elem_of_app. right. right. left.
  - intros u -> Hsp. pose proof Hsp as Hc%contains_spec.
    assert (Hne : u ≠ "") by (intros ->; by apply elem_of_nil in Hsp).
    rewrite (bool_decide_false _ Hne), Hc. split; [done|].
    rewrite !elem_of_app. right. right. left.
  - intros u -> Hne Hsp. rewrite (bool_decide_false _ Hne).
    destruct (PyStr.contains " " u) eqn:Hc; [|done].
    by apply contains_spec in Hc.
  - intros [->|[->|H%elem_of_nil]%elem_of_cons]%elem_of_cons; done.
Qed.

Lemma user_checked_witness :
  (validate_data any_user (job None None (Some "a b")) "s").1.1 = []
  /\ ("s" +:+ ".user", "Usernames cannot have spaces")
     ∈ (validate_data any_user (job None None (Some "a b")) "s").1.2.
Proof.
  apply (proj1 (proj2 (user_checked any_user (job None None (Some "a b")) "s"))
           "a b" eq_refl).
  apply elem_of_cons. right. apply elem_of_cons. by left.
Defined.

(** At most one error is recorded for each of the three attributes, in
    the order week day, month, user. *)
Theorem errors_in_order mw (data : cron_job) (schema : string) :
  sublist (map fst (validate_data mw data schema).1.2)
    [schema +:+ ".weekday"; schema +:+ ".month"; schema +:+ ".user"].
Proof.
  rewrite validate_data_errors, user_errors_spec. unfold range_errors.
  repeat match goal with
         | |- context [if ?b then _ else _] => destruct b
         | |- context [match ?o with Some _ => _ | None => _ end] => destruct o
         end; cbn;
    repeat match goal with
           | |- sublist [] _ => apply sublist_nil_l
           | |- sublist (?x :: _) (?x :: _) => apply sublist_skip
           | |- sublist _ (_ :: _) => apply sublist_cons
           end.
Qed.

End CronUserProofs.

(** ** The cron job service: [do_update] *)

Module CronUpdateProofs.
Import Cron CronProofs CronUpdate.

Lemma cron_job_eqb_spec (a b : cron_job) : cron_job_eqb a b = true <-> a = b.
Proof.
  unfold cron_job_eqb. rewrite !andb_true_iff, !bool_decide_eq_true. split.
  - destruct a, b; simpl. intros [[[[[[[[[[[? ?] ?] ?] ?] ?] ?] ?] ?] ?] ?] ?].
    congruence.
  - intros ->. by repeat split.
Qed.

Lemma over_agrees {A : Type} (old new : option A) :
  over old new = old <-> agrees old new.
Proof.
  unfold over, agrees. destruct new as [a|]; [|split; [by left|done]].
  split; [by right|]. by intros [?|?].
Qed.

Lemma dict_update_same (task data : cron_job) :
  dict_update task data = task <-> same_fields task data.
Proof.
  unfold same_fields. rewrite <- !over_agrees. unfold dict_update.
  destruct task; simpl. split.
  - intros [= ? ? ? ? ? ? ? ? ? ? ? ?]. by repeat split.
  - intros (?&?&?&?&?&?&?&?&?&?&?&?). congruence.
Qed.

Lemma validation_calls (vcalls : list Cron.call) :
  Forall (fun c => Cron.changes_state c = false) vcalls ->
  Forall (fun c => changes_state c = false) (map Validation vcalls).
Proof. intros H. apply Forall_fmap. exact H. Qed.

Lemma do_update_unfold (w : world) (n : Z) (data task : cron_job) :
  query w [] n = Some task ->
  let merged := dict_update task data in
  let vcalls := (validate_data (mw w) merged "cron_job_update").1.1 in
  let found := (validate_data (mw w) merged "cron_job_update").1.2 in
  let calls := Query n :: map Validation vcalls in
  let calls' :=
    if negb (cron_job_eqb merged task) then
      calls ++ [DatastoreUpdate "tasks.cronjob" n merged "cron_";
                ServiceRestart "cron"]
    else calls in
  do_update w n data =
    if negb (bool_decide (found = [])) then (calls, Raised found)
    else (calls' ++ [Query n],
          match query w calls' n with
          | Some t => Updated t
          | None => QueryFailed
          end).
Proof.
  intros Hq. cbn zeta. unfold do_update. rewrite Hq.
  pose proof (validate_data_data (mw w) (dict_update task data)
                "cron_job_update") as Hd.
  destruct (validate_data (mw w) (dict_update task data) "cron_job_update")
    as [[vcalls verrors] d]. cbn [fst snd] in *. subst d.
  destruct (negb (bool_decide (verrors = []))); [done|].
  match goal with |- context [query w ?c n] => by destruct (query w c n) end.
Qed.

(** [do_update] validates the stored job with the patch applied.  When
    that finds errors it raises them, and has neither written to the
    datastore nor restarted a service. *)
Theorem rejected_update_writes_nothing (w : world) (n : Z)
    (data task : cron_job) :
  query w [] n = Some task ->
  (validate_data (mw w) (dict_update task data) "cron_job_update").1.2 ≠ [] ->
  (do_update w n data).2
  = Raised (validate_data (mw w) (dict_update task data)
              "cron_job_update").1.2
  /\ Forall (fun c => changes_state c = false) (do_update w n data).1.
Proof.
  intros Hq Hbad. rewrite (do_update_unfold w n data task Hq).
  rewrite (bool_decide_false _ Hbad). cbn [negb fst snd]. split; [done|].
  constructor; [done|]. apply validation_calls, validate_data_calls.
Qed.

Lemma rejected_update_writes_nothing_witness :
  (do_update (answering (stored (Some "9"))) 7 (patch None)).2
  = Raised [("cron_job_update.weekday",
             "The week days should be in range of 1-7 inclusive")]
  /\ Forall (fun c => changes_state c = false)
       (do_update (answering (stored (Some "9"))) 7 (patch None)).1.
Proof.
  apply (rejected_update_writes_nothing (answering (stored (Some "9"))) 7
           (patch None) (stored (Some "9")) eq_refl).
  discriminate.
Defined.

(** A valid update writes exactly when it changes something.  When every
    key of the patch has the stored value, no datastore or service call is
    made; otherwise the calls end with one [datastore.update] of the
    merged job, the restart of cron and the final query. *)
Theorem update_writes_iff_changed (w : world) (n : Z)
    (data task : cron_job) :
  query w [] n = Some task ->
  (validate_data (mw w) (dict_update task data) "cron_job_update").1.2 = [] ->
  (same_fields task data ->
   Forall (fun c => changes_state c = false) (do_update w n data).1) /\
  (~ same_fields task data ->
   exists before,
     Forall (fun c => changes_state c = false) before
     /\ (do_update w n data).1
        = before ++ [DatastoreUpdate "tasks.cronjob" n
                       (dict_update task data) "cron_";
                     ServiceRestart "cron"; Query n]).
Proof.
  intros Hq Hok. rewrite (do_update_unfold w n data task Hq).
  rewrite Hok. rewrite bool_decide_true by done. cbn [negb fst snd].
  assert (Hv : Forall (fun c => changes_state c = false)
    (Query n :: map Validation
       (validate_data (mw w) (dict_update task data) "cron_job_update").1.1)).
  { constructor; [done|]. apply validation_calls, validate_data_calls. }
  split.
  - intros Hsame%dict_update_same.
    assert (He : cron_job_eqb (dict_update task data) task = true)
      by by apply cron_job_eqb_spec.
    rewrite He. cbn [negb]. apply Forall_app. split; [done|].
    by repeat constructor.
  - intros Hdiff.
    assert (He : cron_job_eqb (dict_update task data) task = false).
    { apply not_true_is_false. intros He%cron_job_eqb_spec.
      by apply Hdiff, dict_update_same. }
    rewrite He. cbn [negb]. eexists. split; [exact Hv|].
    by rewrite <- app_assoc.
Qed.

Lemma update_writes_iff_changed_witness :
  Forall (fun c => changes_state c = false)
    (do_update (answering (stored (Some "1,2"))) 7 (patch (Some "1,2"))).1.
Proof.
  apply (proj1 (update_writes_iff_changed (answering (stored (Some "1,2"))) 7
                  (patch (Some "1,2")) (stored (Some "1,2"))
                  eq_refl eq_refl)).
  unfold same_fields, agrees. cbn. repeat split; auto.
Defined.

End CronUpdateProofs.

(** ** The volume wizard *)

Module WizardProofs.
Import Regex RegexProofs VolumeMixin VolumeMixinProofs.

Lemma wizard_name_cases (volumes : list string) (vname : string) :
  let accepted := (vname = "" \/ matches_pattern vname) /\ vname ∉ volumes in
  (Wizard.clean_volume_name volumes vname = Return vname /\ accepted) \/
  (exists msg,
     Wizard.clean_volume_name volumes vname = Raise (ValidationError msg)
     /\ clean_volume_name volumes vname = Raise (ValidationError msg)
     /\ ~ accepted).
Proof.
  cbn zeta. unfold Wizard.clean_volume_name, clean_volume_name.
  pose proof (search_NAME vname) as Hname.
  destruct (negb (bool_decide (vname = "")) && negb (search_anchored NAME vname))
    eqn:E1.
  { right. eexists. split; [done|]. split; [done|].
    apply andb_true_iff in E1 as [He%negb_true_iff Hn%negb_true_iff].
    apply bool_decide_eq_false in He.
    intros [[?|Hp%Hname] _]; [done|congruence]. }
  assert (vname = "" \/ matches_pattern vname) as Hshape.
  { apply andb_false_iff in E1 as [He%negb_false_iff|Hn%negb_false_iff].
    - left. by apply bool_decide_eq_true in He.
    - right. by apply Hname. }
  clear E1. case_bool_decide as Hv.
  { right. eexists. split; [done|]. split; [done|]. by intros [_ ?]. }
  by left.
Qed.

(** The wizard's cleaner of the volume name makes the first two checks of
    [VolumeMixin.clean_volume_name] only.  It accepts a name exactly when
    the name is empty or matches the pattern and no volume has it; it
    accepts every name the other cleaner accepts, and when it rejects a
    name the other cleaner rejects it with the same message. *)
Theorem wizard_name_checks (volumes : list string) (vname : string) :
  (Wizard.clean_volume_name volumes vname = Return vname <->
   (vname = "" \/ matches_pattern vname) /\ vname ∉ volumes) /\
  (clean_volume_name volumes vname = Return vname ->
   Wizard.clean_volume_name volumes vname = Return vname) /\
  (forall e, Wizard.clean_volume_name volumes vname = Raise e ->
             clean_volume_name volumes vname = Raise e).
Proof.
  destruct (wizard_name_cases volumes vname) as [[Hw Hacc]|(msg&Hw&Hm&Hn)].
  - split; [done|]. split; [done|]. intros e He. congruence.
  - split; [|split].
    + split; [congruence|done].
    + congruence.
    + intros e He. congruence.
Qed.

Lemma wizard_name_checks_witness :
  Wizard.clean_volume_name ["tank"] "mirror0" = Return "mirror0".
Proof.
  apply (proj1 (wizard_name_checks ["tank"] "mirror0")).
  split.
  - right. left. exists "m"%char, (String.list_ascii_of_string "irror0").
    split; [reflexivity|]. split; [reflexivity|].
    repeat constructor.
  - intros [H|H%elem_of_nil]%elem_of_cons; [discriminate H|done].
Defined.

Import Wizard.

Lemma count_zero (name : string) (volumes : list string) :
  (length (filter (fun v => v = name) volumes) =? 0)%nat = true
  <-> name ∉ volumes.
Proof.
  rewrite Nat.eqb_eq. induction volumes as [|v volumes IH]; [by split; [intros _ H%elem_of_nil|]|].
  rewrite filter_cons, not_elem_of_cons. destruct (decide (v = name)) as [->|Hne].
  - simpl. split; [done|]. by intros [? _].
  - rewrite IH. split; [by split|]. by intros [_ ?].
Qed.

Lemma reserved_spec (name : string) :
  bool_decide (name ∈ ["log"]) = false ->
  (search_start C_DIGIT name || search_start MIRROR name
   || search_start SPARE name || search_start RAIDZ name = true
   <-> reserved name).
Proof.
  intros Hlog%bool_decide_eq_false. unfold reserved.
  pose proof (search_C_DIGIT name) as Hc.
  pose proof (search_word "mirror" name) as Hm.
  pose proof (search_word "spare" name) as Hs.
  pose proof (search_word "raidz" name) as Hr.
  fold MIRROR in Hm. fold SPARE in Hs. fold RAIDZ in Hr.
  rewrite !orb_true_iff, Hc, Hm, Hs, Hr. split.
  - intros [[[?|?]|?]|?]; auto.
  - intros [->|[?|[?|[?|?]]]]; auto. exfalso. apply Hlog. left.
Qed.

(** [clean] reads the length of the disks chosen: when the field failed
    validation and its key is missing, the call raises [TypeError]. *)
Theorem clean_without_disks (volumes : list string) (f : form) :
  volume_disks (cleaned f) = None ->
  clean volumes f = Raise (TypeError "object of type 'NoneType' has no len()").
Proof.
  intros Hd. unfold clean. rewrite Hd.
  repeat match goal with
         | |- context [if ?b then _ else _] => destruct b
         end; reflexivity.
Qed.

Lemma set_error_non_empty (f : form) (key msg : string) :
  _errors (set_error f key msg) ≠ ∅.
Proof. apply insert_non_empty. Qed.

(** What a form without field errors must satisfy for [clean] to record
    no error: exactly one of the new name and the volume to append to is
    given, disks are chosen unless the volume exists, and the name is
    neither ['log'] nor starts with [c] and a digit, [mirror], [spare] or
    [raidz].  [clean] then leaves [cleaned_data] as it is. *)
Theorem clean_accepts (volumes : list string) (f : form)
    (disks : list string) :
  _errors f = ∅ ->
  volume_disks (cleaned f) = Some disks ->
  exists f',
    clean volumes f = Return f'
    /\ (_errors f' = ∅ <->
        truthy (volume_name (cleaned f)) ≠ truthy (volume_add (cleaned f))
        /\ (disks ≠ [] \/ effective_name (cleaned f) ∈ volumes)
        /\ ~ reserved (effective_name (cleaned f)))
    /\ (_errors f' = ∅ -> f' = f).
Proof.
  destruct f as [[vn va vd gt] errs]. cbn [_errors cleaned volume_disks].
  intros -> ->. unfold clean, effective_name.
  cbn [cleaned Wizard.volume_name volume_add volume_disks len bind].
  assert (Hvn : negb (bool_decide (default "" vn = "")) = truthy vn).
  { destruct vn as [s|]; [done|]. by cbn. }
  rewrite Hvn.
  assert (Hnil : (length disks =? 0)%nat = true <-> disks = []).
  { rewrite Nat.eqb_eq. by destruct disks. }
  set (f0 := {| cleaned := {| Wizard.volume_name := vn; volume_add := va;
                              volume_disks := Some disks; group_type := gt |};
                _errors := ∅ |}).
  assert (Hstep : forall (g : form) (name : string),
    exists g',
      Return
        (if bool_decide (name ∈ ["log"])
         then pop_volume_name (set_error g "volume_name" reserved_msg)
         else if search_start C_DIGIT name || search_start MIRROR name
                 || search_start SPARE name || search_start RAIDZ name
              then pop_volume_name (set_error g "volume_name" prefix_msg)
              else g) = Return g'
      /\ (_errors g' = ∅ <-> _errors g = ∅ /\ ~ reserved name)
      /\ (_errors g' = ∅ -> g' = g)).
  { intros g name. eexists. split; [reflexivity|].
    destruct (bool_decide (name ∈ ["log"])) eqn:Hlog.
    { cbn [pop_volume_name set_error _errors]. split.
      - split; [by intros H%insert_non_empty|].
        intros [_ Hr]. exfalso. apply Hr. left.
        apply bool_decide_eq_true in Hlog.
        by apply elem_of_cons in Hlog as [?|?%elem_of_nil].
      - by intros H%insert_non_empty. }
    pose proof (reserved_spec name Hlog) as Hres.
    destruct (search_start C_DIGIT name || search_start MIRROR name
              || search_start SPARE name || search_start RAIDZ name).
    - cbn [pop_volume_name set_error _errors]. split.
      + split; [by intros H%insert_non_empty|].
        intros [_ Hr]. exfalso. by apply Hr, Hres.
      + by intros H%insert_non_empty.
    - split; [|done]. split; [|by intros [? _]].
      intros He. split; [done|]. intros Hr%Hres. done. }
  assert (Hdisks : forall (g : form) (name : string),
    let g' :=
      if (length disks =? 0)%nat
         && (length (filter (fun v => v = name) volumes) =? 0)%nat
      then del_volume_disks (set_error g "volume_disks" required_msg)
      else g in
    (_errors g' = ∅ <-> _errors g = ∅ /\ (disks ≠ [] \/ name ∈ volumes))
    /\ (_errors g' = ∅ -> g' = g)).
  { intros g name. cbn zeta.
    destruct ((length disks =? 0)%nat
              && (length (filter (fun v => v = name) volumes) =? 0)%nat)
      eqn:Hc.
    - apply andb_true_iff in Hc as [Hd%Hnil Hv%count_zero].
      cbn [del_volume_disks set_error _errors]. split.
      + split; [by intros H%insert_non_empty|].
        intros [_ [?|?]]; done.
      + by intros H%insert_non_empty.
    - split; [|done]. split; [|by intros [? _]].
      intros He. split; [done|].
      apply andb_false_iff in Hc as [Hd|Hv].
      + left. intros Hd'%Hnil. congruence.
      + right. destruct (decide (name ∈ volumes)) as [?|Hn]; [done|].
        apply count_zero in Hn. congruence. }
  destruct (truthy vn) eqn:Hn, (truthy va) eqn:Ha; cbn [negb andb orb].
  - (* both given *)
    destruct (Hdisks (set_error f0 "__all__" both_msg) (default "" vn))
      as [Hd1 Hd2].
    match goal with
    | |- context [pop_volume_name (set_error ?x "volume_name" reserved_msg)] =>
        destruct (Hstep x (default "" vn)) as (g' & -> & Hs1 & Hs2)
    end.
    exists g'. split; [done|]. split.
    + split; [|by intros [? _]].
      intros He%Hs1. destruct He as [He%Hd1 _]. destruct He as [He _].
      by apply set_error_non_empty in He.
    + intros He. exfalso. apply Hs1 in He as [He%Hd1 _].
      destruct He as [He _]. by apply set_error_non_empty in He.
  - (* a new name *)
    assert (Hne : default "" vn ≠ "").
    { destruct vn as [s|]; [|done]. cbn in Hn. cbn.
      by apply negb_true_iff, bool_decide_eq_false in Hn. }
    rewrite (bool_decide_false _ Hne).
    destruct (Hdisks f0 (default "" vn)) as [Hd1 Hd2].
    match goal with
    | |- context [pop_volume_name (set_error ?x "volume_name" reserved_msg)] =>
        destruct (Hstep x (default "" vn)) as (g' & -> & Hs1 & Hs2)
    end.
    exists g'. split; [done|]. split.
    + rewrite Hs1, Hd1. cbn [f0 _errors]. split.
      * intros [[_ ?] ?]. by repeat split.
      * intros (_ & ? & ?). by repeat split.
    + intros He. rewrite (Hs2 He). apply Hd2. by apply Hs1 in He as [? _].
  - (* a volume to append to *)
    assert (He : default "" vn = "").
    { destruct vn as [s|]; [|done]. cbn in Hn. cbn.
      by apply negb_false_iff, bool_decide_eq_true in Hn. }
    rewrite (bool_decide_true _ He).
    destruct (Hdisks f0 (default "" va)) as [Hd1 Hd2].
    match goal with
    | |- context [pop_volume_name (set_error ?x "volume_name" reserved_msg)] =>
        destruct (Hstep x (default "" va)) as (g' & -> & Hs1 & Hs2)
    end.
    exists g'. split; [done|]. split.
    + rewrite Hs1, Hd1. cbn [f0 _errors]. split.
      * intros [[_ ?] ?]. by repeat split.
      * intros (_ & ? & ?). by repeat split.
    + intros He'. rewrite (Hs2 He'). apply Hd2. by apply Hs1 in He' as [? _].
  - (* neither *)
    destruct (Hdisks (set_error f0 "__all__" neither_msg) (default "" vn))
      as [Hd1 Hd2].
    match goal with
    | |- context [pop_volume_name (set_error ?x "volume_name" reserved_msg)] =>
        destruct (Hstep x (default "" vn)) as (g' & -> & Hs1 & Hs2)
    end.
    exists g'. split; [done|]. split.
    + split; [|by intros [? _]].
      intros He%Hs1. destruct He as [He%Hd1 _]. destruct He as [He _].
      by apply set_error_non_empty in He.
    + intros He. exfalso. apply Hs1 in He as [He%Hd1 _].
      destruct He as [He _]. by apply set_error_non_empty in He.
Qed.

Lemma clean_accepts_witness :
  exists f',
    clean [] (blank ["da0"]) = Return f'
    /\ (_errors f' = ∅ <->
        truthy (Wizard.volume_name (cleaned (blank ["da0"])))
        ≠ truthy (volume_add (cleaned (blank ["da0"])))
        /\ (["da0"] ≠ [] \/ effective_name (cleaned (blank ["da0"])) ∈ [])
        /\ ~ reserved (effective_name (cleaned (blank ["da0"]))))
    /\ (_errors f' = ∅ -> f' = blank ["da0"]).
Proof.
  apply (clean_accepts [] (blank ["da0"]) ["da0"] eq_refl eq_refl).
Defined.

Lemma clean_without_disks_witness :
  clean ["tank"]
    {| cleaned := {| Wizard.volume_name := None; volume_add := Some "tank";
                     volume_disks := None; group_type := Some "" |};
       _errors := {[ "volume_disks" := ["Select a valid choice."] ]} |}
  = Raise (TypeError "object of type 'NoneType' has no len()").
Proof.
  apply (clean_without_disks ["tank"]
    {| cleaned := {| Wizard.volume_name := None; volume_add := Some "tank";
                     volume_disks := None; group_type := Some "" |};
       _errors := {[ "volume_disks" := ["Select a valid choice."] ]} |}).
  reflexivity.
Defined.

End WizardProofs.

(** ** Dataset and zvol names, record size, block size *)

Module DatasetProofs.
Import Regex RegexProofs Dataset.

Lemma lang_name (p : ascii -> bool) (cs : list ascii) :
  lang (Cat (Class alnum) (Star (Class p))) cs <-> name_shape p cs.
Proof.
  unfold name_shape. rewrite lang_cat_inv. split.
  - intros (u & v & -> & (c & -> & Hc)%lang_class_inv & Hv%lang_star_class).
    by exists c, v.
  - intros (c & rest & -> & Hc & Hrest). exists [c], rest.
    split; [done|]. split; [by constructor|by apply lang_star_class].
Qed.

Lemma search_name (p : ascii -> bool) (s : string) :
  search_anchored (Cat (Class alnum) (Star (Class p))) s = true
  <-> matches p s.
Proof.
  rewrite search_anchored_spec. unfold matches. rewrite lang_name.
  apply or_iff_compat_l. split; intros (body & Heq & H); exists body;
    (split; [done|]); by apply lang_name.
Qed.

Lemma zvol_set_dataset_set (c : ascii) :
  zvol_set c = true -> dataset_set c = true.
Proof. unfold dataset_set, zvol_set. intros ->. done. Qed.

Lemma name_shape_mono (p q : ascii -> bool) (cs : list ascii) :
  (forall c, p c = true -> q c = true) -> name_shape p cs -> name_shape q cs.
Proof.
  intros Hpq (c & rest & -> & Hc & Hrest). exists c, rest.
  split; [done|]. split; [done|]. eapply Forall_impl; [exact Hrest|done].
Qed.

(** A dataset name is accepted exactly when it is an alphanumeric
    character followed by alphanumerics, ['_'], ['-'], [':'], ['.'] or
    spaces (the final [$] also admits one newline after it); a zvol name
    likewise, without spaces.  Every accepted zvol name is an accepted
    dataset name. *)
Theorem names_accepted (name : string) :
  (clean_dataset_name name = Return name <-> matches dataset_set name) /\
  (clean_zvol_name name = Return name <-> matches zvol_set name) /\
  (clean_zvol_name name = Return name -> clean_dataset_name name = Return name).
Proof.
  unfold clean_dataset_name, clean_zvol_name.
  pose proof (search_name dataset_set name) as Hd.
  pose proof (search_name zvol_set name) as Hz.
  fold DATASET_NAME in Hd. fold ZVOL_NAME in Hz.
  assert (Hincl : matches zvol_set name -> matches dataset_set name).
  { intros [H|(body & Heq & H)].
    - left. eapply name_shape_mono; [apply zvol_set_dataset_set|done].
    - right. exists body. split; [done|].
      eapply name_shape_mono; [apply zvol_set_dataset_set|done]. }
  destruct (search_anchored DATASET_NAME name) eqn:Ed,
           (search_anchored ZVOL_NAME name) eqn:Ez; cbn [negb].
  - split; [by split; [intros _; apply Hd|]|].
    split; [by split; [intros _; apply Hz|]|done].
  - split; [by split; [intros _; apply Hd|]|].
    split; [|done]. split; [done|]. intros H%Hz. done.
  - exfalso. assert (false = true) by (by apply Hd, Hincl, Hz). done.
  - split; [split; [done|by intros H%Hd]|].
    split; [|done]. split; [done|]. intros H%Hz. done.
Qed.

Lemma names_accepted_witness :
  clean_dataset_name "vm-disk0" = Return "vm-disk0".
Proof.
  apply (proj2 (names_accepted "vm-disk0")). reflexivity.
Defined.

Lemma name_shape_chars (cs : list ascii) (c : ascii) :
  name_shape dataset_set cs -> dataset_set c = false -> c ∉ cs.
Proof.
  intros (d & rest & -> & Hd & Hrest) Hc [->|Hin]%elem_of_cons.
  - unfold dataset_set in Hc. rewrite Hd in Hc. done.
  - rewrite Forall_forall in Hrest. apply Hrest in Hin. congruence.
Qed.

(** An accepted dataset or zvol name has no ['/'] and no ['@']: joined to
    its parent as [parent/name] it names a direct child, and never a
    snapshot. *)
Theorem accepted_names_have_no_separator (name : string) :
  clean_dataset_name name = Return name \/ clean_zvol_name name = Return name ->
  ("/"%char ∉ String.list_ascii_of_string name)
  /\ ("@"%char ∉ String.list_ascii_of_string name).
Proof.
  intros H.
  assert (Hd : matches dataset_set name).
  { destruct H as [H|H]; [by apply names_accepted|].
    by apply names_accepted, names_accepted. }
  assert (Hno : forall c, dataset_set c = false -> c ≠ newline ->
                          c ∉ String.list_ascii_of_string name).
  { intros c Hc Hn. destruct Hd as [Hs|(body & -> & Hs)].
    - by apply name_shape_chars.
    - intros [Hin|[Heq|Hin%elem_of_nil]%elem_of_cons]%elem_of_app; [|done..].
      by apply (name_shape_chars body c). }
  split; by apply Hno.
Qed.

Lemma accepted_names_have_no_separator_witness :
  ("/"%char ∉ String.list_ascii_of_string "vm-disk0")
  /\ ("@"%char ∉ String.list_ascii_of_string "vm-disk0").
Proof.
  apply (accepted_names_have_no_separator "vm-disk0").
  left. reflexivity.
Defined.

(** *** The record size *)

Lemma append_nil (t : string) : "" +:+ t = t.
Proof. reflexivity. Qed.

Lemma append_cons (c : ascii) (s t : string) :
  String c s +:+ t = String c (s +:+ t).
Proof. reflexivity. Qed.

Lemma chars_app (s t : string) :
  String.list_ascii_of_string (s +:+ t)
  = String.list_ascii_of_string s ++ String.list_ascii_of_string t.
Proof.
  induction s as [|c s IH]; [done|].
  rewrite append_cons. cbn. by rewrite IH.
Qed.

Lemma digits_letter (s : string) (c : ascii) (acc : Z) (b : bool) :
  PyStr.is_digit c = false -> Ascii.eqb c "_" = false ->
  PyStr.digits (s +:+ String c "") acc b = None.
Proof.
  intros Hd Hu. revert acc b.
  induction s as [|d s IH]; intros acc b;
    rewrite ?append_nil, ?append_cons; cbn [PyStr.digits].
  - by rewrite Hd, Hu.
  - destruct (PyStr.is_digit d); [apply IH|].
    destruct (Ascii.eqb d "_"); [|done]. destruct b; [apply IH|done].
Qed.

Lemma lstrip_letter (s : string) (c : ascii) :
  PyStr.is_space c = false ->
  PyStr.lstrip (s +:+ String c "") = PyStr.lstrip s +:+ String c "".
Proof.
  intros Hc.
  induction s as [|d s IH]; rewrite ?append_nil, ?append_cons;
    cbn [PyStr.lstrip]; [by rewrite Hc|].
  by destruct (PyStr.is_space d).
Qed.

Lemma rstrip_letter (s : string) (c : ascii) :
  PyStr.is_space c = false ->
  PyStr.rstrip (s +:+ String c "") = s +:+ String c "".
Proof.
  intros Hc.
  induction s as [|d s IH]; rewrite ?append_nil, ?append_cons;
    cbn [PyStr.rstrip]; [by rewrite Hc|].
  rewrite IH. by destruct s.
Qed.

Lemma int_letter (s : string) (c : ascii) :
  PyStr.is_space c = false -> PyStr.is_digit c = false ->
  Ascii.eqb c "_" = false -> c ≠ "+"%char -> c ≠ "-"%char ->
  PyStr.int (s +:+ String c "") = None.
Proof.
  intros Hs Hd Hu Hp Hm. unfold PyStr.int.
  rewrite lstrip_letter, rstrip_letter by done.
  destruct (PyStr.lstrip s) as [|d rest] eqn:E.
  - rewrite append_nil.
    assert (Hc : PyStr.digits (String c "") 0 false = None)
      by (cbn [PyStr.digits]; by rewrite Hd, Hu).
    destruct c as [[] [] [] [] [] [] [] []]; try exact Hc; done.
  - rewrite append_cons.
    pose proof (digits_letter rest c 0 false Hd Hu) as Hrest.
    pose proof (digits_letter (String d rest) c 0 false Hd Hu) as Hall.
    rewrite append_cons in Hall.
    destruct d as [[] [] [] [] [] [] [] []]; try exact Hall;
      by rewrite Hrest.
Qed.

Lemma but_last_app (s : string) (c : ascii) :
  but_last (s +:+ String c "") = s.
Proof.
  unfold but_last. rewrite chars_app.
  rewrite reverse_app.
  change (reverse (String.list_ascii_of_string (String c ""))) with [c].
  cbn [app tail]. rewrite reverse_involutive.
  apply String.string_of_list_ascii_of_string.
Qed.

Lemma last_char_app (s : string) (c : ascii) :
  last_char (s +:+ String c "") = Some c.
Proof. unfold last_char. rewrite chars_app. by rewrite reverse_app. Qed.

(** The record size.  An absent or empty value and ['inherit'] give
    ['inherit']; a value [int] reads gives that integer; a value ending
    in [k] or [K] gives 1024 times the integer before it, and lets the
    [ValueError] through when what is before is not an integer. *)
Theorem recordsize_read (s : string) :
  (clean_dataset_recordsize None = Inherit
   /\ clean_dataset_recordsize (Some "") = Inherit
   /\ clean_dataset_recordsize (Some "inherit") = Inherit) /\
  (forall n, PyStr.int s = Some n ->
     clean_dataset_recordsize (Some s) = Bytes n) /\
  (forall k, k = "k"%char \/ k = "K"%char ->
     clean_dataset_recordsize (Some (s +:+ String k ""))
     = match PyStr.int s with
       | Some n => Bytes (n * 1024)
       | None => ValueError
       end).
Proof.
  split; [done|]. split.
  - intros n Hn. unfold clean_dataset_recordsize.
    assert (Hne : s ≠ "") by (by intros ->).
    assert (Hni : s ≠ "inherit") by (by intros ->).
    cbn [truthy default from_option]. unfold Datatypes.id.
    rewrite (bool_decide_false (s = "")) by done.
    rewrite (bool_decide_false (Some s = Some "inherit")) by congruence.
    cbn [negb orb]. by rewrite Hn.
  - intros k Hk. unfold clean_dataset_recordsize.
    assert (Hint : PyStr.int (s +:+ String k "") = None).
    { apply int_letter; by destruct Hk as [-> | ->]. }
    assert (Hne : s +:+ String k "" ≠ "")
      by (destruct s; rewrite ?append_nil, ?append_cons; done).
    assert (Hni : s +:+ String k "" ≠ "inherit").
    { intros Heq. pose proof (last_char_app s k) as Hl. rewrite Heq in Hl.
      vm_compute in Hl. by destruct Hk as [-> | ->]. }
    cbn [truthy default from_option]. unfold Datatypes.id.
    rewrite (bool_decide_false (s +:+ String k "" = "")) by done.
    rewrite (bool_decide_false (Some (s +:+ String k "") = Some "inherit"))
      by congruence.
    cbn [negb orb]. rewrite Hint, last_char_app, but_last_app.
    rewrite bool_decide_true; [done|]. by destruct Hk as [-> | ->].
Qed.

Lemma recordsize_read_witness :
  clean_dataset_recordsize (Some ("128" +:+ String "K" "")) = Bytes (128 * 1024).
Proof.
  apply (proj2 (proj2 (recordsize_read "128")) "K"%char). by right.
Defined.

(** *** The block size of a new zvol *)

Lemma count_disks_spec (numdisks : Z) (data : list VdevFormSet.pool_vdev) :
  (numdisks <= count_disks numdisks data)%Z
  /\ (forall vdev, vdev ∈ data -> is_data vdev ->
        (data_disks vdev <= count_disks numdisks data)%Z)
  /\ (count_disks numdisks data = numdisks
      \/ exists vdev, vdev ∈ data /\ is_data vdev
           /\ data_disks vdev = count_disks numdisks data).
Proof.
  revert numdisks. induction data as [|vdev data IH]; intros numdisks.
  - cbn. split; [lia|]. split; [|by left]. by intros vdev H%elem_of_nil.
  - cbn [count_disks]. fold (data_disks vdev).
    destruct (decide (VdevFormSet.vdev_type vdev
                        ∈ ["cache"; "spare"; "log"; "log mirror"]))
      as [Haux|Hdata].
    + rewrite (bool_decide_true _ Haux).
      destruct (IH numdisks) as (H1 & H2 & H3). split; [done|]. split.
      * intros v [->|Hin]%elem_of_cons Hv; [done|]. by apply H2.
      * destruct H3 as [?|(v & Hin & Hv & Heq)]; [by left|].
        right. exists v. split; [by right|done].
    + rewrite (bool_decide_false _ Hdata).
      set (m := if (numdisks <? data_disks vdev)%Z
                then data_disks vdev else numdisks).
      assert (Hm : (numdisks <= m /\ data_disks vdev <= m
                    /\ (m = numdisks \/ m = data_disks vdev))%Z).
      { unfold m. destruct (Z.ltb_spec numdisks (data_disks vdev)); lia. }
      destruct (IH m) as (H1 & H2 & H3). split; [lia|]. split.
      * intros v [->|Hin]%elem_of_cons Hv; [lia|]. by apply H2.
      * destruct H3 as [Heq|(v & Hin & Hv & Heq)].
        -- destruct Hm as (_ & _ & [Hm|Hm]); [left; lia|].
           right. exists vdev. split; [left|]. split; [done|lia].
        -- right. exists v. split; [by right|done].
Qed.

(** [ZVol_CreateForm.__init__] sets the initial value of
    [zvol_blocksize] only to the size it has computed, and only when that
    size is one of the choices [ZFS_VOLBLOCKSIZE]; otherwise the initial
    value is left alone.  The size computed is a power of two of
    kilobytes: the least one that is at least four times the number of
    data disks of the widest data vdev, this number being taken as 4 at
    least (so the size is 16K at least). *)
Theorem blocksize_is_least_power (ZFS_VOLBLOCKSIZE : list (string * string))
    (data : list VdevFormSet.pool_vdev) :
  let n := count_disks 4 data in
  (4 <= n)%Z
  /\ (forall vdev, vdev ∈ data -> is_data vdev -> (data_disks vdev <= n)%Z)
  /\ (n = 4%Z
      \/ exists vdev, vdev ∈ data /\ is_data vdev /\ data_disks vdev = n)
  /\ exists k,
       (0 <= k)%Z /\ blocksize_k data = (2 ^ k)%Z
       /\ (4 * n <= 2 ^ k < 8 * n)%Z
       /\ blocksize data = pretty (2 ^ k)%Z +:+ "K"
       /\ (forall size,
             initial_blocksize ZFS_VOLBLOCKSIZE data = Some size
             <-> size = pretty (2 ^ k)%Z +:+ "K"
                 /\ size ∈ map fst ZFS_VOLBLOCKSIZE)
       /\ (initial_blocksize ZFS_VOLBLOCKSIZE data = None
           <-> pretty (2 ^ k)%Z +:+ "K" ∉ map fst ZFS_VOLBLOCKSIZE).
Proof.
  cbn zeta. destruct (count_disks_spec 4 data) as (H1 & H2 & H3).
  split; [done|]. split; [done|]. split; [done|].
  unfold initial_blocksize, blocksize, blocksize_k, bit_length.
  set (n := count_disks 4 data) in *.
  destruct (Z.eqb_spec (n * 4 - 1) 0) as [?|_]; [lia|].
  rewrite Z.abs_eq by lia.
  exists (Z.log2 (n * 4 - 1) + 1)%Z.
  pose proof (Z.log2_nonneg (n * 4 - 1)) as Hnn.
  pose proof (Z.log2_spec (n * 4 - 1) ltac:(lia)) as [Hlo Hhi].
  split; [lia|]. split; [done|]. split.
  { rewrite Z.pow_add_r in * by lia. change (2 ^ 1)%Z with 2%Z in *.
    replace (Z.succ (Z.log2 (n * 4 - 1))) with (Z.log2 (n * 4 - 1) + 1)%Z
      in Hhi by lia.
    rewrite Z.pow_add_r in Hhi by lia. change (2 ^ 1)%Z with 2%Z in Hhi.
    lia. }
  split; [done|].
  set (size := pretty (2 ^ (Z.log2 (n * 4 - 1) + 1))%Z +:+ "K").
  destruct (decide (size ∈ map fst ZFS_VOLBLOCKSIZE)) as [Hin|Hout].
  - rewrite (bool_decide_true _ Hin). split.
    + intros s. split; [by intros [= <-]|by intros [-> _]].
    + split; [done|by intros Hn].
  - rewrite (bool_decide_false _ Hout). split.
    + intros s. split; [done|]. intros [-> Hin]. by destruct Hout.
    + done.
Qed.

Lemma blocksize_is_least_power_witness :
  let data := [{| VdevFormSet.vdev_type := "raidz2";
                  VdevFormSet.vdev_devs :=
                    ["da0"; "da1"; "da2"; "da3"; "da4"; "da5"; "da6";
                     "da7"] |}] in
  let sizes := [("16K", "16K"); ("32K", "32K"); ("64K", "64K")] in
  exists k,
    (0 <= k)%Z
    /\ blocksize_k data = (2 ^ k)%Z
    /\ (4 * 6 <= 2 ^ k < 8 * 6)%Z
    /\ blocksize data = pretty (2 ^ k)%Z +:+ "K"
    /\ (forall size,
          initial_blocksize sizes data = Some size
          <-> size = pretty (2 ^ k)%Z +:+ "K" /\ size ∈ map fst sizes)
    /\ (initial_blocksize sizes data = None
        <-> pretty (2 ^ k)%Z +:+ "K" ∉ map fst sizes).
Proof.
  intros data sizes.
  exact (proj2 (proj2 (proj2 (blocksize_is_least_power sizes data)))).
Defined.

End DatasetProofs.

(** ** Dataset forms: sizes, properties and saving *)

Module DatasetFormProofs.
Import Regex RegexProofs ZfsSize ZfsSizeProofs Dataset DatasetForm.

Lemma dict_get_set_eq props prop value :
  dict_get (dict_set props prop value) prop = Some value.
Proof.
  induction props as [|[k v] rest IH]; cbn.
  - by rewrite bool_decide_true.
  - case_bool_decide as Hk; cbn; [by rewrite bool_decide_true|].
    by rewrite bool_decide_false.
Qed.

Lemma dict_get_set_ne props prop value other :
  prop ≠ other ->
  dict_get (dict_set props prop value) other = dict_get props other.
Proof.
  intros Hne. induction props as [|[k v] rest IH]; cbn.
  - by rewrite bool_decide_false.
  - case_bool_decide as Hk; cbn.
    + subst k. by rewrite !bool_decide_false.
    + case_bool_decide; [done|apply IH].
Qed.

(** What the first loop stores for a size property. *)
Definition size_value (cleaned_data : gmap string string) (prop : string)
  : prop_value :=
  match cleaned_data !! ("dataset_" +:+ prop) with
  | None => PNone
  | Some value => if bool_decide (value = "0") then PStr "none" else PStr value
  end.

Lemma size_props_get cleaned_data fields : forall props prop,
  dict_get (size_props cleaned_data props fields) prop =
    if bool_decide (prop ∈ fields) then Some (size_value cleaned_data prop)
    else dict_get props prop.
Proof.
  induction fields as [|field rest IH]; intros props prop;
    cbn [size_props].
  - by rewrite bool_decide_false by apply not_elem_of_nil.
  - rewrite IH. destruct (decide (prop ∈ rest)) as [Hin|Hnotin].
    + rewrite (bool_decide_true (prop ∈ rest)) by done.
      by rewrite (bool_decide_true (prop ∈ field :: rest))
        by (apply elem_of_cons; by right).
    + rewrite (bool_decide_false _ Hnotin).
      destruct (decide (prop = field)) as [->|Hne].
      * rewrite (bool_decide_true (field ∈ field :: rest))
          by (apply elem_of_cons; by left).
        rewrite dict_get_set_eq.
        f_equal. unfold size_value.
        destruct (cleaned_data !! ("dataset_" +:+ field)) as [v|]; [|done].
        cbn [truthy]. destruct (decide (v = "0")) as [->|Hv].
        -- done.
        -- rewrite (bool_decide_false (v = "0")) by done.
           rewrite (bool_decide_false (Some v = Some "0")) by congruence.
           by rewrite andb_false_r.
      * rewrite dict_get_set_ne by done.
        rewrite (bool_decide_false (prop ∈ field :: rest)); [done|].
        by intros [?|?]%elem_of_cons.
Qed.

Lemma more_props_get cleaned_data names : forall props props' prop,
  prop ∉ names ->
  more_props cleaned_data props names = Done props' ->
  dict_get props' prop = dict_get props prop.
Proof.
  induction names as [|name rest IH]; intros props props' prop Hnotin;
    cbn [more_props].
  - by intros [= ->].
  - apply not_elem_of_cons in Hnotin as [Hne Hnotin].
    destruct (prop_source cleaned_data name) as [value| |]; [|done..].
    intros Hrest. rewrite (IH _ _ _ Hnotin Hrest).
    destruct (prop_truthy value); [|done].
    by rewrite dict_get_set_ne.
Qed.

Lemma more_props_done cleaned_data names : forall props,
  match clean_dataset_recordsize (cleaned_data !! "dataset_recordsize") with
  | Inherit | Bytes _ =>
      exists props', more_props cleaned_data props names = Done props'
  | Dataset.Invalid msg =>
      "recordsize" ∈ names ->
      more_props cleaned_data props names = Invalid msg
  | Dataset.ValueError =>
      "recordsize" ∈ names ->
      more_props cleaned_data props names = ValueError
  end.
Proof.
  induction names as [|name rest IH]; intros props; cbn [more_props].
  - destruct (clean_dataset_recordsize _); eauto;
      by intros H%elem_of_nil.
  - unfold prop_source.
    destruct (decide (name = "recordsize")) as [->|Hne].
    + rewrite bool_decide_false by done. rewrite bool_decide_true by done.
      pose proof (IH (if prop_truthy (PStr "inherit")
                      then dict_set props "recordsize" (PStr "inherit")
                      else props)) as IH1.
      destruct (clean_dataset_recordsize _) as [|n| |] eqn:E; [done| |done..].
      apply IH.
    + rewrite (bool_decide_false (name = "recordsize")) by done.
      repeat case_bool_decide;
        match goal with
        | |- context [more_props _ ?p rest] => specialize (IH p)
        end;
        destruct (clean_dataset_recordsize _); try done;
        intros [?|?]%elem_of_cons; auto; done.
Qed.

Lemma zfssize_run (f : form) (attrs : list string) (prefix : string) :
  NoDup attrs ->
  exists f',
    _clean_zfssize_fields f attrs prefix = Return f'
    /\ (forall k, (forall attr, attr ∈ attrs -> k ≠ prefix +:+ attr) ->
          cleaned_data f' !! k = cleaned_data f !! k
          /\ _errors f' !! k = _errors f !! k)
    /\ (forall attr, attr ∈ attrs ->
          acceptable (default "" (cleaned_data f !! (prefix +:+ attr))) ->
          cleaned_data f' !! (prefix +:+ attr)
          = Some (normalized
                    (default "" (cleaned_data f !! (prefix +:+ attr))))
          /\ _errors f' !! (prefix +:+ attr) = _errors f !! (prefix +:+ attr)).
Proof.
  intros Hnd. unfold _clean_zfssize_fields.
  set (f0 := {| cleaned_data := fill_missing (cleaned_data f)
                                  (map (fun x => prefix +:+ x) attrs);
                _errors := _errors f |}).
  assert (Hfilled : forall attr, attr ∈ attrs ->
            cleaned_data f0 !! (prefix +:+ attr)
            = Some (default "" (cleaned_data f !! (prefix +:+ attr)))).
  { intros attr Hin. cbn. rewrite fill_missing_lookup.
    rewrite bool_decide_true; [done|].
    apply list_elem_of_fmap. by exists attr. }
  destruct (clean_fields_spec prefix attrs f0 Hnd) as (f'&Hf'&Hother&Heach).
  { intros attr Hin. rewrite (Hfilled attr Hin). eauto. }
  exists f'. split; [done|]. split.
  - intros k Hk. destruct (Hother k Hk) as [-> ->]. split; [|done].
    cbn. rewrite fill_missing_lookup. rewrite bool_decide_false; [done|].
    intros (attr & -> & Hin)%list_elem_of_fmap. by apply (Hk attr).
  - intros attr Hin Hacc.
    destruct (Heach attr Hin) as (g&g'&Hc&He&Hg&Hc'&He').
    rewrite (Hfilled attr Hin) in Hc. cbn in He.
    rewrite Hc', He'.
    rewrite (clean_field_accepted _ _ _ _ Hc Hacc) in Hg.
    injection Hg as <-. cbn. by rewrite lookup_insert_eq.
Qed.

(** [_clean_zfssize_fields] touches the named fields only: every other
    key keeps its value in [cleaned_data] and its errors. *)
Theorem zfssize_touches_named_fields_only (f : form) (attrs : list string)
    (prefix : string) :
  NoDup attrs ->
  exists f',
    _clean_zfssize_fields f attrs prefix = Return f'
    /\ forall k, k ∉ map (fun x => prefix +:+ x) attrs ->
         cleaned_data f' !! k = cleaned_data f !! k
         /\ _errors f' !! k = _errors f !! k.
Proof.
  intros Hnd. destruct (zfssize_run f attrs prefix Hnd) as (f'&Hf'&Hother&_).
  exists f'. split; [done|]. intros k Hk. apply Hother.
  intros attr Hin ->. apply Hk. apply list_elem_of_fmap. by exists attr.
Qed.

Lemma zfssize_touches_named_fields_only_witness :
  exists f',
    _clean_zfssize_fields
      (empty_form [("dataset_quota", "x"); ("dataset_comments", "x")])
      ["quota"] "dataset_" = Return f'
    /\ cleaned_data f' !! "dataset_comments" = Some "x"
    /\ _errors f' !! "dataset_comments" = None.
Proof.
  destruct (zfssize_touches_named_fields_only
              (empty_form [("dataset_quota", "x"); ("dataset_comments", "x")])
              ["quota"] "dataset_") as (f'&Hf'&Hother).
  { apply NoDup_singleton. }
  exists f'. split; [exact Hf'|].
  apply (Hother "dataset_comments").
  intros [H|H%elem_of_nil]%elem_of_cons; [discriminate H|done].
Defined.

(** From the cleaned sizes to the properties.  When the four size fields
    are acceptable, [_clean_zfssize_fields] records no error, and
    [clean_data_to_props] then gives each size property the normalized
    value, ['none'] standing for ['0']; it fails only with the exception
    of [clean_dataset_recordsize]. *)
Theorem cleaned_sizes_to_props (f : form) :
  (forall prop, prop ∈ zfs_size_fields ->
     acceptable (default "" (cleaned_data f !! ("dataset_" +:+ prop)))) ->
  exists f',
    _clean_zfssize_fields f zfs_size_fields "dataset_" = Return f'
    /\ (forall k, _errors f' !! k = _errors f !! k)
    /\ match clean_dataset_recordsize
               (cleaned_data f !! "dataset_recordsize") with
       | Inherit | Bytes _ =>
           exists props,
             clean_data_to_props (cleaned_data f') = Done props
             /\ forall prop, prop ∈ zfs_size_fields ->
                  let value :=
                    normalized
                      (default "" (cleaned_data f !! ("dataset_" +:+ prop))) in
                  dict_get props prop
                  = Some (PStr (if bool_decide (value = "0") then "none"
                                else value))
       | Dataset.Invalid msg =>
           clean_data_to_props (cleaned_data f') = Invalid msg
       | Dataset.ValueError =>
           clean_data_to_props (cleaned_data f') = ValueError
       end.
Proof.
  intros Hacc.
  destruct (zfssize_run f zfs_size_fields "dataset_") as (f'&Hf'&Hother&Hsize).
  { apply (bool_decide_unpack _). by vm_compute. }
  exists f'. split; [done|]. split.
  - intros k.
    destruct (decide (k ∈ map (fun x => "dataset_" +:+ x) zfs_size_fields))
      as [(prop & -> & Hin)%list_elem_of_fmap|Hk].
    + by apply Hsize, Hacc.
    + apply Hother. intros attr Hin ->. apply Hk.
      apply list_elem_of_fmap. by exists attr.
  - assert (Hrs : cleaned_data f' !! "dataset_recordsize"
                  = cleaned_data f !! "dataset_recordsize").
    { apply Hother. intros attr Hin Heq.
      change "dataset_recordsize" with ("dataset_" +:+ "recordsize") in Heq.
      apply CronProofs.append_inj_l in Heq. subst attr.
      revert Hin. apply (bool_decide_eq_false_1 _). by vm_compute. }
    unfold clean_data_to_props.
    pose proof (more_props_done (cleaned_data f') other_props
                  (size_props (cleaned_data f') [] zfs_size_fields)) as Hdone.
    rewrite Hrs in Hdone.
    assert (Hrec : "recordsize" ∈ other_props).
    { apply (bool_decide_unpack _). by vm_compute. }
    assert (Hsep : forall prop, prop ∈ zfs_size_fields -> prop ∉ other_props).
    { unfold zfs_size_fields, other_props. intros prop Hin Hin'.
      repeat (apply elem_of_cons in Hin as [->|Hin]);
        try (by apply elem_of_nil in Hin);
        revert Hin'; apply (bool_decide_eq_false_1 _); by vm_compute. }
    destruct (clean_dataset_recordsize _) as [|n|msg|]; [| |by apply Hdone..].
    + destruct Hdone as (props & Hp). exists props. split; [done|].
      intros prop Hin. cbn zeta.
      rewrite (more_props_get _ _ _ _ prop (Hsep prop Hin) Hp).
      rewrite size_props_get, (bool_decide_true _ Hin). unfold size_value.
      destruct (Hsize prop Hin (Hacc prop Hin)) as [-> _].
      by case_bool_decide.
    + destruct Hdone as (props & Hp). exists props. split; [done|].
      intros prop Hin. cbn zeta.
      rewrite (more_props_get _ _ _ _ prop (Hsep prop Hin) Hp).
      rewrite size_props_get, (bool_decide_true _ Hin). unfold size_value.
      destruct (Hsize prop Hin (Hacc prop Hin)) as [-> _].
      by case_bool_decide.
Qed.

Lemma cleaned_sizes_to_props_witness :
  exists f' props,
    _clean_zfssize_fields
      (empty_form [("dataset_quota", "10 GiB"); ("dataset_refquota", "0");
                   ("dataset_reservation", "1T");
                   ("dataset_refreservation", "0")])
      zfs_size_fields "dataset_" = Return f'
    /\ clean_data_to_props (cleaned_data f') = Done props
    /\ dict_get props "quota" = Some (PStr "10G")
    /\ dict_get props "refquota" = Some (PStr "none").
Proof.
  destruct (cleaned_sizes_to_props
    (empty_form [("dataset_quota", "10 GiB"); ("dataset_refquota", "0");
                 ("dataset_reservation", "1T");
                 ("dataset_refreservation", "0")])) as (f' & Hf' & _ & Hp).
  { intros prop Hin. unfold zfs_size_fields in Hin.
    repeat (apply elem_of_cons in Hin as [->|Hin]);
      try (by apply elem_of_nil in Hin);
      right; apply lang_SIZE, accepts_spec; reflexivity. }
  destruct Hp as (props & Hd & Hsizes).
  exists f', props. split; [exact Hf'|]. split; [exact Hd|]. split.
  - apply (Hsizes "quota"). apply elem_of_cons. by left.
  - apply (Hsizes "refquota"). apply elem_of_cons. right.
    apply elem_of_cons. by left.
Defined.

(** *** Saving an edited dataset *)

Fixpoint errors_get (errors : list (string * string)) (field : string)
  : option string :=
  match errors with
  | [] => None
  | (k, v) :: rest => if bool_decide (k = field) then Some v
                      else errors_get rest field
  end.

Lemma errors_get_none errors field :
  field ∉ map fst errors -> errors_get errors field = None.
Proof.
  induction errors as [|[k v] rest IH]; [done|]. cbn.
  intros [Hne Hrest]%not_elem_of_cons.
  rewrite bool_decide_false by done. by apply IH.
Qed.

Lemma errors_get_set errors field msg other :
  errors_get (errors_set errors field msg) other =
    if bool_decide (field = other) then Some msg else errors_get errors other.
Proof.
  induction errors as [|[k v] rest IH]; cbn.
  - done.
  - destruct (decide (k = field)) as [->|Hk].
    + rewrite (bool_decide_true (field = field)) by done. cbn.
      by case_bool_decide.
    + rewrite (bool_decide_false (k = field)) by done. cbn. rewrite IH.
      destruct (decide (k = other)) as [->|Hko].
      * rewrite (bool_decide_true (other = other)) by done.
        by rewrite (bool_decide_false (field = other)) by done.
      * by rewrite (bool_decide_false (k = other)) by done.
Qed.

Lemma errors_set_keys errors field msg :
  map fst (errors_set errors field msg) =
    if bool_decide (field ∈ map fst errors) then map fst errors
    else map fst errors ++ [field].
Proof.
  induction errors as [|[k v] rest IH]; cbn.
  - by rewrite bool_decide_false by apply not_elem_of_nil.
  - destruct (decide (k = field)) as [->|Hk].
    + rewrite (bool_decide_true (field = field)) by done. cbn.
      by rewrite bool_decide_true by (apply elem_of_cons; by left).
    + rewrite (bool_decide_false (k = field)) by done. cbn. rewrite IH.
      destruct (decide (field ∈ map fst rest)) as [Hin|Hnotin].
      * rewrite (bool_decide_true _ Hin).
        by rewrite bool_decide_true by (apply elem_of_cons; by right).
      * rewrite (bool_decide_false _ Hnotin).
        rewrite bool_decide_false; [done|].
        intros [?|?]%elem_of_cons; congruence.
Qed.

Lemma errors_set_nodup errors field msg :
  NoDup (map fst errors) -> NoDup (map fst (errors_set errors field msg)).
Proof.
  intros Hnd. rewrite errors_set_keys. case_bool_decide as Hin; [done|].
  apply NoDup_app. split; [done|]. split; [|apply NoDup_singleton].
  intros k Hk [->|H%elem_of_nil]%elem_of_cons; done.
Qed.

Lemma errors_recorded errors : forall (errs : gmap string (list string)) field,
  NoDup (map fst errors) ->
  fold_left (fun errs '(field, err) => <[field := [err]]> errs) errors errs
    !! field
  = match errors_get errors field with
    | Some msg => Some [msg]
    | None => errs !! field
    end.
Proof.
  induction errors as [|[k v] rest IH]; intros errs field Hnd; [done|].
  cbn in Hnd. apply NoDup_cons in Hnd as [Hk Hnd].
  cbn [fold_left errors_get]. rewrite (IH _ _ Hnd).
  destruct (decide (k = field)) as [->|Hne].
  - rewrite bool_decide_true by done.
    by rewrite (errors_get_none rest field Hk), lookup_insert_eq.
  - rewrite bool_decide_false by done.
    by rewrite lookup_insert_ne by done.
Qed.

(** The errors of the loop, as the entries refused so far. *)
Lemma set_options_spec n name props : forall p,
  NoDup (map fst (errors p)) ->
  let q := set_options n name props p in
  calls q = calls p ++ map (option_call name) props
  /\ (error q = false <->
      error p = false
      /\ forall e, e ∈ props -> (n (option_call name e)).1 = true)
  /\ NoDup (map fst (errors q))
  /\ (forall e, e ∈ props -> (n (option_call name e)).1 = false ->
        NoDup (map fst props) ->
        errors_get (errors q) ("dataset_" +:+ e.1)
        = Some (n (option_call name e)).2)
  /\ (forall k,
        (forall e, e ∈ props -> (n (option_call name e)).1 = false ->
                   k ≠ "dataset_" +:+ e.1) ->
        errors_get (errors q) k = errors_get (errors p) k).
Proof.
  induction props as [|[item value] rest IH]; intros p Hnd; cbn zeta.
  - cbn. rewrite app_nil_r. split; [done|]. split.
    + split; [|by intros [? _]]. intros Herr. split; [done|].
      by intros e Hel%elem_of_nil.
    + split; [done|]. split; [|done]. by intros e Hel%elem_of_nil.
  - cbn [set_options].
    change (if is_inherit value then ZfsInheritOption name item
            else ZfsSetOption name item value)
      with (option_call name (item, value)).
    destruct (n (option_call name (item, value))) as [success msg] eqn:Hn.
    destruct success; cbn [negb].
    + rewrite orb_false_r.
      match goal with |- context [set_options n name rest ?p'] =>
        destruct (IH p' Hnd) as (H1 & H2 & H3 & H4 & H5) end.
      cbn [calls error errors] in *.
      split; [by rewrite H1, <- app_assoc|]. split.
      { rewrite H2. split.
        - intros [? Hall]. split; [done|].
          intros e [->|Hin]%elem_of_cons; [by rewrite Hn|by apply Hall].
        - intros [? Hall]. split; [done|]. intros e Hin. apply Hall.
          by right. }
      split; [done|]. split.
      { intros e [->|Hin]%elem_of_cons Hfail Hdup; [by rewrite Hn in Hfail|].
        apply H4; [done..|]. cbn in Hdup. by apply NoDup_cons in Hdup as [_ ?]. }
      intros k Hk. apply H5. intros e Hin. apply Hk. by right.
    + match goal with |- context [set_options n name rest ?p'] =>
        destruct (IH p') as (H1 & H2 & H3 & H4 & H5) end.
      { by apply errors_set_nodup. }
      cbn [calls error errors] in *.
      split; [by rewrite H1, <- app_assoc|]. split.
      { split; [by intros [? _]%H2|].
        intros [_ Hall]. specialize (Hall (item, value)).
        rewrite Hn in Hall. discriminate Hall. left. }
      split; [done|]. split.
      { intros e [->|Hin]%elem_of_cons Hfail Hdup.
        - rewrite Hn. cbn [fst snd]. rewrite H5.
          + rewrite errors_get_set. by rewrite bool_decide_true.
          + intros e Hin Hf Heq%CronProofs.append_inj_l.
            cbn in Hdup. apply NoDup_cons in Hdup as [Hitem _].
            apply Hitem. rewrite Heq. by apply (list_elem_of_fmap_2 fst).
        - apply H4; [done..|]. cbn in Hdup.
          by apply NoDup_cons in Hdup as [_ ?]. }
      intros k Hk. rewrite H5.
      * rewrite errors_get_set. rewrite bool_decide_false; [done|].
        intros <-. apply (Hk (item, value)); [left|by rewrite Hn|done].
      * intros e Hin. apply Hk. by right.
Qed.

(** [ZFSDatasetEditForm.save] sets or inherits every property, in the
    order of [props], also after a failure, and then changes the share
    type.  It returns [True] exactly when the notifier accepted every
    property; each refused property has its message as the only error of
    its field, and no other error is touched. *)
Theorem edit_save_tries_every_property (n : notifier) (name : string)
    (cleaned_data : gmap string string) (props : list (string * prop_value))
    (errs : gmap string (list string)) :
  NoDup (map fst props) ->
  (save n name cleaned_data props errs).1.1
  = map (option_call name) props
    ++ [ChangeDatasetShareType name (cleaned_data !! "dataset_share_type")]
  /\ ((save n name cleaned_data props errs).2 = true <->
      forall e, e ∈ props -> (n (option_call name e)).1 = true)
  /\ (forall e, e ∈ props -> (n (option_call name e)).1 = false ->
        (save n name cleaned_data props errs).1.2 !! ("dataset_" +:+ e.1)
        = Some [(n (option_call name e)).2])
  /\ (forall k,
        (forall e, e ∈ props -> (n (option_call name e)).1 = false ->
                   k ≠ "dataset_" +:+ e.1) ->
        (save n name cleaned_data props errs).1.2 !! k = errs !! k).
Proof.
  intros Hdup. unfold save. cbn [fst snd].
  destruct (set_options_spec n name props
              {| calls := []; error := false; errors := [] |})
    as (H1 & H2 & H3 & H4 & H5); [constructor|].
  cbn zeta in *. cbn [calls error errors] in *.
  split; [by rewrite H1|]. split.
  { rewrite negb_true_iff, H2. split; [by intros [_ ?]|done]. }
  split.
  - intros e Hin Hfail. rewrite (errors_recorded _ _ _ H3).
    by rewrite (H4 e Hin Hfail Hdup).
  - intros k Hk. rewrite (errors_recorded _ _ _ H3). by rewrite (H5 k Hk).
Qed.

Lemma edit_save_tries_every_property_witness :
  (save (refusing ["quota"]) "tank/ds" ∅
     [("quota", PStr "1x"); ("sync", PStr "inherit")] ∅).1.1
  = [ZfsSetOption "tank/ds" "quota" (PStr "1x");
     ZfsInheritOption "tank/ds" "sync";
     ChangeDatasetShareType "tank/ds" None].
Proof.
  apply (proj1 (edit_save_tries_every_property (refusing ["quota"]) "tank/ds"
                  ∅ [("quota", PStr "1x"); ("sync", PStr "inherit")] ∅
                  ltac:(apply (bool_decide_unpack _); by vm_compute))).
Defined.

End DatasetFormProofs.

(** ** Editing disks in bulk *)

Module DiskBulkProofs.
Import DiskBulk.

(** The value the first loop leaves for a string attribute. *)
Lemma merge_fold (attr : disk -> string) (disks : list disk) :
  forall current,
    fold_left (fun i d => merge i (attr d)) disks (Some current)
    = Some (if bool_decide (Forall (fun d => attr d = current) disks)
            then current else "").
Proof.
  assert (Hempty : forall l,
    fold_left (fun i d => merge i (attr d)) l (Some "")
    = Some "").
  { induction l as [|d l IH]; [done|]. cbn. by case_bool_decide. }
  induction disks as [|d disks IH]; intros current.
  - cbn [fold_left]. by rewrite bool_decide_true by constructor.
  - cbn [fold_left merge]. destruct (decide (current = attr d)) as [He|Hne].
    + rewrite (bool_decide_true _ He). cbn [negb]. rewrite IH.
      f_equal. destruct (decide (Forall (fun d => attr d = current) disks)).
      * rewrite !bool_decide_true; [done| |done]. by constructor.
      * rewrite !bool_decide_false; [done| |done].
        by intros [_ ?]%Forall_cons.
    + rewrite (bool_decide_false _ Hne). cbn [negb]. rewrite Hempty.
      rewrite bool_decide_false; [done|].
      by intros [? _]%Forall_cons.
Qed.

Lemma merge_smart_fold (disks : list disk) :
  forall current,
    fold_left (fun i d => merge_smart i (disk_togglesmart d)) disks
      (Some current)
    = Some (if bool_decide
                 (Forall (fun d => disk_togglesmart d = current) disks)
            then current else true).
Proof.
  assert (Hon : forall l,
    fold_left (fun i d => merge_smart i (disk_togglesmart d)) l (Some true)
    = Some true).
  { induction l as [|d l IH]; [done|]. cbn.
    by destruct (disk_togglesmart d). }
  induction disks as [|d disks IH]; intros current.
  - cbn [fold_left]. by rewrite bool_decide_true by constructor.
  - cbn [fold_left merge_smart].
    destruct (decide (disk_togglesmart d = current)) as [He|Hne].
    + rewrite He, Bool.eqb_reflx. cbn [negb]. rewrite IH.
      f_equal. destruct (decide (Forall (fun d => disk_togglesmart d = current)
                                   disks)).
      * rewrite !bool_decide_true; [done| |done]. by constructor.
      * rewrite !bool_decide_false; [done| |done].
        by intros [_ ?]%Forall_cons.
    + assert (Hb : Bool.eqb current (disk_togglesmart d) = false).
      { apply Bool.eqb_false_iff. congruence. }
      rewrite Hb. cbn [negb]. rewrite Hon.
      rewrite bool_decide_false; [|by intros [? _]%Forall_cons].
      done.
Qed.

Lemma fold_fields (disks : list disk) (i : initials) :
  fold_left init_step disks i =
  {| i_hddstandby :=
       fold_left (fun i d => merge i (disk_hddstandby d)) disks
         (i_hddstandby i);
     i_advpowermgmt :=
       fold_left (fun i d => merge i (disk_advpowermgmt d)) disks
         (i_advpowermgmt i);
     i_acousticlevel :=
       fold_left (fun i d => merge i (disk_acousticlevel d)) disks
         (i_acousticlevel i);
     i_smartoptions :=
       fold_left (fun i d => merge i (disk_smartoptions d)) disks
         (i_smartoptions i);
     i_togglesmart :=
       fold_left (fun i d => merge_smart i (disk_togglesmart d)) disks
         (i_togglesmart i) |}.
Proof.
  revert i. induction disks as [|d disks IH]; intros i; [by destruct i|].
  cbn [fold_left]. by rewrite IH.
Qed.

(** What the form shows for disks [d :: rest]: the value the disks share,
    and, where they differ, the empty choice ([True] for S.M.A.R.T.). *)
Lemma bulk_initials_cons (d : disk) (rest : list disk) :
  bulk_initials (d :: rest) =
  let shared (attr : disk -> string) :=
    Some (if bool_decide (Forall (fun d' => attr d' = attr d) rest)
          then attr d else "") in
  {| i_hddstandby := shared disk_hddstandby;
     i_advpowermgmt := shared disk_advpowermgmt;
     i_acousticlevel := shared disk_acousticlevel;
     i_smartoptions := shared disk_smartoptions;
     i_togglesmart :=
       Some (if bool_decide
                  (Forall (fun d' => disk_togglesmart d' = disk_togglesmart d)
                     rest)
             then disk_togglesmart d else true) |}.
Proof.
  unfold bulk_initials. cbn [fold_left]. rewrite fold_fields.
  unfold init_step.
  cbn [i_hddstandby i_advpowermgmt i_acousticlevel i_smartoptions
       i_togglesmart merge merge_smart].
  by rewrite !merge_fold, merge_smart_fold.
Qed.

Lemma agree_cons {A : Type} (attr : disk -> A) (d : disk) (rest : list disk) :
  agree attr (d :: rest) <-> Forall (fun d' => attr d' = attr d) rest.
Proof.
  unfold agree. rewrite Forall_forall. split.
  - intros H x Hx. apply H; [by right|left].
  - intros H x y [->|Hx]%elem_of_cons [->|Hy]%elem_of_cons.
    + done.
    + symmetry. by apply H.
    + by apply H.
    + rewrite (H x Hx). symmetry. by apply H.
Qed.

(** What the form shows for several disks: for each option the value the
    disks share and, when they differ, the empty choice; S.M.A.R.T. is
    shown enabled when the disks differ. *)
Theorem initials_show_shared_values (d : disk) (rest : list disk) :
  let i := bulk_initials (d :: rest) in
  let shows (attr : disk -> string) (shown : option string) :=
    (agree attr (d :: rest) -> shown = Some (attr d))
    /\ (~ agree attr (d :: rest) -> shown = Some "") in
  shows disk_hddstandby (i_hddstandby i)
  /\ shows disk_advpowermgmt (i_advpowermgmt i)
  /\ shows disk_acousticlevel (i_acousticlevel i)
  /\ shows disk_smartoptions (i_smartoptions i)
  /\ (agree disk_togglesmart (d :: rest) ->
      i_togglesmart i = Some (disk_togglesmart d))
  /\ (~ agree disk_togglesmart (d :: rest) -> i_togglesmart i = Some true).
Proof.
  cbn zeta. rewrite bulk_initials_cons. cbn zeta.
  cbn [i_hddstandby i_advpowermgmt i_acousticlevel i_smartoptions
       i_togglesmart].
  rewrite !agree_cons.
  repeat split; intros H;
    first [by rewrite bool_decide_true by done
          |by rewrite bool_decide_false by done].
Qed.

Lemma initials_show_shared_values_witness :
  i_hddstandby (bulk_initials [a_disk "ada0" "5" "" true;
                               a_disk "ada1" "10" "" true]) = Some "".
Proof.
  apply (proj2 (proj1 (initials_show_shared_values
                         (a_disk "ada0" "5" "" true)
                         [a_disk "ada1" "10" "" true]))).
  intros H. specialize (H (a_disk "ada0" "5" "" true)
                          (a_disk "ada1" "10" "" true)).
  discriminate H.
  - apply elem_of_cons. by left.
  - apply elem_of_cons. right. apply elem_of_cons. by left.
Defined.

Lemma set_if_shared (attr : disk -> string) (d x : disk) (rest : list disk) :
  x ∈ d :: rest ->
  set_if (if bool_decide (Forall (fun d' => attr d' = attr d) rest)
          then attr d else "") (attr x) = attr x.
Proof.
  intros Hx. unfold set_if.
  destruct (decide (Forall (fun d' => attr d' = attr d) rest)) as [Hall|Hno].
  - rewrite (bool_decide_true _ Hall).
    destruct (decide (attr d = "")) as [He|Hne].
    + by rewrite (bool_decide_true _ He).
    + rewrite (bool_decide_false _ Hne). cbn [negb].
      apply elem_of_cons in Hx as [->|Hx]; [done|].
      rewrite Forall_forall in Hall. symmetry. by apply Hall.
  - rewrite (bool_decide_false _ Hno).
    by rewrite (bool_decide_true ("" = "")).
Qed.

(** Posting the bulk form as it was shown.  The name, the standby, the
    power management and the acoustic level of every disk are kept.  When
    the disks share their S.M.A.R.T. options and setting, the disks are
    saved as they were; when they differ in the options, every disk ends
    with empty options, and when they differ in the setting, every disk
    ends with S.M.A.R.T. enabled. *)
Theorem untouched_form_saved (disks : list disk) :
  let saved := save (untouched (bulk_initials disks)) disks in
  (map disk_name saved = map disk_name disks
   /\ map disk_hddstandby saved = map disk_hddstandby disks
   /\ map disk_advpowermgmt saved = map disk_advpowermgmt disks
   /\ map disk_acousticlevel saved = map disk_acousticlevel disks)
  /\ (agree disk_smartoptions disks -> agree disk_togglesmart disks ->
      saved = disks)
  /\ (~ agree disk_smartoptions disks ->
      Forall (fun d => disk_smartoptions d = "") saved)
  /\ (~ agree disk_togglesmart disks ->
      Forall (fun d => disk_togglesmart d = true) saved).
Proof.
  cbn zeta. destruct disks as [|d rest].
  { cbn. repeat split; try done; intros H; exfalso; apply H;
      intros x y Hx; by apply elem_of_nil in Hx. }
  rewrite bulk_initials_cons. cbn zeta. unfold save, untouched.
  cbn [i_hddstandby i_advpowermgmt i_acousticlevel i_smartoptions
       i_togglesmart default from_option]. unfold Datatypes.id.
  rewrite !map_map. split; [|split; [|split]].
  - repeat split; apply map_ext_in; intros x Hx%list_elem_of_In;
      cbn [save_disk disk_name disk_hddstandby disk_advpowermgmt
           disk_acousticlevel c_hddstandby c_advpowermgmt c_acousticlevel];
      first [done | by apply set_if_shared].
  - intros Ho%agree_cons Ht%agree_cons.
    rewrite <- (map_id (d :: rest)) at 2.
    apply map_ext_in. intros x Hx%list_elem_of_In. unfold save_disk.
    cbn [c_hddstandby c_advpowermgmt c_acousticlevel c_togglesmart
         c_smartoptions].
    rewrite !set_if_shared by done.
    rewrite (bool_decide_true _ Ho), (bool_decide_true _ Ht).
    assert (Hxo : disk_smartoptions x = disk_smartoptions d).
    { apply elem_of_cons in Hx as [->|Hx]; [done|].
      rewrite Forall_forall in Ho. by apply Ho. }
    assert (Hxt : disk_togglesmart x = disk_togglesmart d).
    { apply elem_of_cons in Hx as [->|Hx]; [done|].
      rewrite Forall_forall in Ht. by apply Ht. }
    rewrite <- Hxo, <- Hxt. by destruct x.
  - intros Ho. rewrite agree_cons in Ho. rewrite (bool_decide_false _ Ho).
    apply Forall_forall. intros x (y & -> & Hy)%list_elem_of_fmap. done.
  - intros Ht. rewrite agree_cons in Ht. rewrite (bool_decide_false _ Ht).
    apply Forall_forall. intros x (y & -> & Hy)%list_elem_of_fmap. done.
Qed.

Lemma untouched_form_saved_witness :
  save (untouched (bulk_initials [a_disk "ada0" "5" "-q" true;
                                  a_disk "ada1" "10" "-q" true]))
    [a_disk "ada0" "5" "-q" true; a_disk "ada1" "10" "-q" true]
  = [a_disk "ada0" "5" "-q" true; a_disk "ada1" "10" "-q" true].
Proof.
  apply (proj1 (proj2 (untouched_form_saved
                         [a_disk "ada0" "5" "-q" true;
                          a_disk "ada1" "10" "-q" true]))).
  - intros x y Hx Hy.
    repeat (apply elem_of_cons in Hx as [->|Hx]);
      repeat (apply elem_of_cons in Hy as [->|Hy]);
      try done; by apply elem_of_nil in Hx || by apply elem_of_nil in Hy.
  - intros x y Hx Hy.
    repeat (apply elem_of_cons in Hx as [->|Hx]);
      repeat (apply elem_of_cons in Hy as [->|Hy]);
      try done; by apply elem_of_nil in Hx || by apply elem_of_nil in Hy.
Defined.

End DiskBulkProofs.

(** ** Removing a passphrase *)

Module PassphraseProofs.
Import Passphrase.

(** Removing the passphrase.  With [remove] set, [clean] returns exactly
    when both passphrase fields have errors, which it then deletes,
    leaving every other entry alone; when one of them has no error the
    [del] raises [KeyError].  Without [remove] the errors are returned as
    they are. *)
Theorem remove_needs_both_errors (errs : gmap string (list string)) :
  clean false errs = Return errs
  /\ ((exists errs', clean true errs = Return errs') <->
      is_Some (errs !! "passphrase") /\ is_Some (errs !! "passphrase2"))
  /\ (forall errs', clean true errs = Return errs' ->
        errs' !! "passphrase" = None /\ errs' !! "passphrase2" = None
        /\ forall k, k ≠ "passphrase" -> k ≠ "passphrase2" ->
                     errs' !! k = errs !! k)
  /\ (errs !! "passphrase" = None ->
      clean true errs = Raise (KeyError "passphrase"))
  /\ (is_Some (errs !! "passphrase") -> errs !! "passphrase2" = None ->
      clean true errs = Raise (KeyError "passphrase2")).
Proof.
  split; [done|]. unfold clean.
  rewrite (lookup_delete_ne errs "passphrase" "passphrase2") by done.
  destruct (errs !! "passphrase") as [e1|] eqn:H1,
           (errs !! "passphrase2") as [e2|] eqn:H2.
  - split; [split; [by eauto|by eauto]|]. split.
    + intros errs' [= <-]. rewrite lookup_delete_eq.
      split; [by rewrite lookup_delete_ne, lookup_delete_eq by done|].
      split; [done|]. intros k Hk1 Hk2.
      by rewrite !lookup_delete_ne by done.
    + split; [done|]. by intros _ [=].
  - split; [split; [by intros [? [=]]|by intros [_ [? [=]]]]|].
    split; [by intros ? [=]|]. split; [done|]. done.
  - split; [split; [by intros [? [=]]|by intros [[? [=]] _]]|].
    split; [by intros ? [=]|]. split; [done|]. by intros [? [=]].
  - split; [split; [by intros [? [=]]|by intros [[? [=]] _]]|].
    split; [by intros ? [=]|]. split; [done|]. by intros [? [=]].
Qed.

Lemma remove_needs_both_errors_witness :
  clean true {[ "passphrase2" := ["The passphrases do not match"] ]}
  = Raise (KeyError "passphrase").
Proof.
  apply (proj1 (proj2 (proj2 (proj2 (remove_needs_both_errors
    {[ "passphrase2" := ["The passphrases do not match"] ]}))))).
  reflexivity.
Defined.

End PassphraseProofs.

(** ** Scrub schedules *)

Module ScrubProofs.
Import Scrub.

Lemma split_before (sep : ascii) (item rest : string) :
  PyStr.contains sep item = false ->
  PyStr.split sep (item +:+ String sep rest) = item :: PyStr.split sep rest.
Proof.
  intros Hno. induction item as [|c item IH].
  - rewrite DatasetProofs.append_nil. cbn [PyStr.split]. by rewrite Ascii.eqb_refl.
  - rewrite DatasetProofs.append_cons. cbn [PyStr.split PyStr.contains] in *.
    apply orb_false_iff in Hno as [Hc Hitem].
    rewrite Ascii.eqb_sym, Hc. by rewrite (IH Hitem).
Qed.

Lemma split_alone (sep : ascii) (item : string) :
  PyStr.contains sep item = false -> PyStr.split sep item = [item].
Proof.
  intros Hno. induction item as [|c item IH]; [done|].
  cbn [PyStr.split PyStr.contains] in *.
  apply orb_false_iff in Hno as [Hc Hitem].
  rewrite Ascii.eqb_sym, Hc. by rewrite (IH Hitem).
Qed.

Lemma split_join (items : list string) :
  items ≠ [] ->
  Forall (fun item => PyStr.contains "," item = false) items ->
  PyStr.split "," (join "," items) = items.
Proof.
  induction items as [|item rest IH]; [done|]. intros _ Hall.
  apply Forall_cons in Hall as [Hitem Hrest].
  destruct rest as [|next rest]; [by apply split_alone|].
  change (join "," (item :: next :: rest))
    with (item +:+ String "," (join "," (next :: rest))).
  rewrite split_before by done. f_equal. by apply IH.
Qed.

(** The months chosen, as the form stores them.  Twelve entries give
    ['*'], whatever they are; fewer are joined with commas, and splitting
    the result at the commas gives the choice back, provided something
    was chosen and no entry has a comma; nothing chosen gives the empty
    string.  The days of the week likewise, with seven. *)
Theorem schedule_round_trip (items : list string) :
  (length items = 12%nat -> clean_scrub_month items = "*")
  /\ (length items = 7%nat -> clean_scrub_dayweek items = "*")
  /\ (items ≠ [] ->
      Forall (fun item => PyStr.contains "," item = false) items ->
      (length items ≠ 12%nat ->
       PyStr.split "," (clean_scrub_month items) = items)
      /\ (length items ≠ 7%nat ->
          PyStr.split "," (clean_scrub_dayweek items) = items))
  /\ clean_scrub_month [] = "" /\ clean_scrub_dayweek [] = "".
Proof.
  unfold clean_scrub_month, clean_scrub_dayweek.
  split; [by intros ->|]. split; [by intros ->|]. split; [|done].
  intros Hne Hall. split; intros Hlen.
  - apply Nat.eqb_neq in Hlen. rewrite Hlen. by apply split_join.
  - apply Nat.eqb_neq in Hlen. rewrite Hlen. by apply split_join.
Qed.

Lemma schedule_round_trip_witness :
  PyStr.split "," (clean_scrub_month ["1"; "6"; "12"]) = ["1"; "6"; "12"].
Proof.
  apply (proj1 (proj2 (proj2 (schedule_round_trip ["1"; "6"; "12"])))).
  - discriminate.
  - repeat constructor.
  - cbn. lia.
Defined.

End ScrubProofs.

(** ** The volume manager, from [clean] to [save] *)

Module ManagerCleanProofs.
Import VolumeManager VolumeManagerSave VolumeManagerProofs.

Lemma created_row (e : env) (inp : inputs) (st : state) :
  VolumeManager.volume_name inp ∉ names st ->
  creation_fails e inp = false ->
  exists v,
    volumes (save e inp st).1 = volumes st ++ [v]
    /\ vol_name v = VolumeManager.volume_name inp
    /\ deletions (save e inp st).1 = deletions st.
Proof.
  intros Hnew Hok. rewrite save_unfold.
  destruct (protected_creation e inp st Hnew) as [_ Hgood].
  destruct (Hgood Hok)
    as (v & s & st' & -> & Hv & Hs & Hd & Hlv & Hla & Hn & He & Hsv).
  destruct (after_block_create e inp st' v Hlv Hla) as ([H1 H2] & H3 & H4).
  exists v. by rewrite H1, H3.
Qed.

Lemma appended_rows (e : env) (inp : inputs) (st : state) :
  VolumeManager.volume_name inp ∈ names st ->
  NoDup (map vol_id (volumes st)) ->
  names (save e inp st).1 = names st
  /\ deletions (save e inp st).1 = deletions st.
Proof.
  intros Hold Hnd. rewrite save_unfold.
  destruct (protected_append e inp st Hold) as ([Hv Hs] & Hd & Hok).
  destruct (try_except (try_block e inp) (handler e) (entered st))
    as [st' [[]|exc]]; cbn [fst snd] in *.
  - destruct (Hok eq_refl) as (v & Hin & Hlv & Hla).
    rewrite <- Hv in Hnd, Hin.
    destruct (after_block_append e inp st' v Hlv Hla Hnd Hin)
      as (H1 & H2 & H3 & H4).
    rewrite H2, H4. unfold names. by rewrite Hv, Hd.
  - unfold names. by rewrite Hv, Hd.
Qed.

(** From the form to the database.  A new name that
    [clean_volume_name] accepted is the name [clean] keeps, also when a
    volume to append to was chosen as well, and [save] then creates a
    row of that name when nothing fails while creating.  With no new
    name, [clean] takes the volume chosen, and [save] appends to it when
    it exists, adding and deleting no row.  With neither, [clean] records
    the error and leaves [cleaned_data] alone. *)
Theorem manager_clean_feeds_save (e : env) (inp : inputs) (st : state)
    (cd : ManagerClean.cleaned_data) (errs : gmap string (list string)) :
  (forall n,
     ManagerClean.volume_name cd = Some n -> n ≠ "" ->
     VolumeMixin.clean_volume_name (names st) n = Return n ->
     ManagerClean.clean cd errs = (cd, errs)
     /\ (VolumeManager.volume_name inp = n ->
         creation_fails e inp = false ->
         exists v,
           volumes (save e inp st).1 = volumes st ++ [v]
           /\ vol_name v = n
           /\ deletions (save e inp st).1 = deletions st))
  /\ (forall a,
       truthy (ManagerClean.volume_name cd) = false ->
       ManagerClean.volume_add cd = Some a -> a ≠ "" ->
       ManagerClean.clean cd errs
       = ({| ManagerClean.volume_name := Some a;
             ManagerClean.volume_add := Some a |}, errs)
       /\ (VolumeManager.volume_name inp = a -> a ∈ names st ->
           NoDup (map vol_id (volumes st)) ->
           names (save e inp st).1 = names st
           /\ deletions (save e inp st).1 = deletions st))
  /\ (truthy (ManagerClean.volume_name cd) = false ->
      truthy (ManagerClean.volume_add cd) = false ->
      ManagerClean.clean cd errs
      = (cd, <["__all__" := [ManagerClean.missing_msg]]> errs)).
Proof.
  split; [|split].
  - intros n Hn Hne Hok. split.
    + unfold ManagerClean.clean, ManagerClean.or_else. rewrite Hn.
      do 2 (cbn [truthy negb]; rewrite ?(bool_decide_false _ Hne)).
      cbn [negb]. destruct cd as [vn va]. cbn in Hn. by subst vn.
    + intros <- Hcreate. apply created_row; [|done].
      destruct (VolumeMixinProofs.clean_volume_name_cases (names st)
                  (VolumeManager.volume_name inp))
        as [[_ (_ & Hnew & _)]|(msg & Hraise & _)]; [done|congruence].
  - intros a Hn Ha Hne. split.
    + unfold ManagerClean.clean, ManagerClean.or_else. rewrite Hn, Ha.
      do 2 (cbn [truthy negb]; rewrite ?(bool_decide_false _ Hne)).
      done.
    + intros <- Hold Hnd. by apply appended_rows.
  - intros Hn Ha. unfold ManagerClean.clean, ManagerClean.or_else.
    by rewrite Hn, Ha.
Qed.

Lemma manager_clean_feeds_save_witness :
  ManagerClean.clean
    {| ManagerClean.volume_name := Some "tank";
       ManagerClean.volume_add := Some "pool0" |} ∅
  = ({| ManagerClean.volume_name := Some "tank";
        ManagerClean.volume_add := Some "pool0" |}, ∅).
Proof.
  apply (proj1 (manager_clean_feeds_save (failing (fun _ => false))
                  (new_pool "tank")
                  (database [{| vol_id := 1; vol_name := "pool0";
                                vol_encrypt := 0 |}] [])
                  {| ManagerClean.volume_name := Some "tank";
                     ManagerClean.volume_add := Some "pool0" |} ∅)
           "tank" eq_refl).
  - discriminate.
  - reflexivity.
Defined.

End ManagerCleanProofs.

(** ** The volume wizard: [done] *)

Module WizardDoneProofs.
Import Py VolumeManager WizardDone WizardDoneRun.

Lemma has_key_get (grouped : list (string * group)) (key : string) :
  has_key grouped key = bool_decide (is_Some (get_group grouped key)).
Proof.
  induction grouped as [|[k g] rest IH]; cbn [has_key get_group].
  - symmetry. apply bool_decide_false. by intros [? ?].
  - destruct (decide (k = key)) as [He|He].
    + rewrite !(bool_decide_true (k = key)) by done. cbn [orb].
      symmetry. by apply bool_decide_true.
    + by rewrite !(bool_decide_false (k = key)).
Qed.

Lemma get_add_disk_same (grouped : list (string * group))
    (key disk : string) (g : group) :
  get_group grouped key = Some g ->
  get_group (add_disk grouped key disk) key =
    Some {| g_type := if bool_decide (key = "log") then "log mirror"
                      else g_type g;
            g_disks := g_disks g ++ [disk] |}.
Proof.
  induction grouped as [|[k g0] rest IH]; cbn [add_disk get_group]; [done|].
  destruct (decide (k = key)) as [He|He].
  - rewrite !(bool_decide_true (k = key)) by done. cbn [get_group].
    rewrite (bool_decide_true (k = key)) by done. by intros [= ->].
  - rewrite !(bool_decide_false (k = key)) by done. cbn [get_group].
    rewrite (bool_decide_false (k = key)) by done. apply IH.
Qed.

Lemma get_add_disk_other (grouped : list (string * group))
    (gtype key disk : string) :
  gtype ≠ key ->
  get_group (add_disk grouped gtype disk) key = get_group grouped key.
Proof.
  intros Hne. induction grouped as [|[k g0] rest IH];
    cbn [add_disk get_group]; [done|].
  destruct (decide (k = gtype)) as [He|He].
  - rewrite (bool_decide_true (k = gtype)) by done. cbn [get_group].
    subst k. by rewrite !(bool_decide_false (gtype = key)).
  - rewrite (bool_decide_false (k = gtype)) by done. cbn [get_group].
    by rewrite IH.
Qed.

Lemma get_group_app (grouped : list (string * group)) (gtype key : string)
    (g : group) :
  get_group (grouped ++ [(gtype, g)]) key =
    match get_group grouped key with
    | Some x => Some x
    | None => if bool_decide (gtype = key) then Some g else None
    end.
Proof.
  induction grouped as [|[k g0] rest IH]; cbn [app get_group]; [done|].
  by destruct (bool_decide (k = key)).
Qed.

Lemma disks_of_cons (i gtype : string) (rest : list (string * string))
    (key : string) :
  disks_of ((i, gtype) :: rest) key =
    match (if bool_decide (gtype = key) && negb (bool_decide (gtype = "none"))
           then zpool_disk i else None) with
    | Some disk => disk :: disks_of rest key
    | None => disks_of rest key
    end.
Proof. reflexivity. Qed.

(** What the loop leaves under a key, from what was there and the disks
    posted for the key. *)
Lemma get_group_fields (grouped : list (string * group))
    (post : list (string * string)) (key : string) :
  get_group (group_fields grouped post) key =
    match get_group grouped key, disks_of post key with
    | old, [] => old
    | Some g, ds =>
        Some {| g_type := if bool_decide (key = "log") then "log mirror"
                          else g_type g;
                g_disks := g_disks g ++ ds |}
    | None, [d] => Some {| g_type := key; g_disks := [d] |}
    | None, ds =>
        Some {| g_type := if bool_decide (key = "log") then "log mirror"
                          else key;
                g_disks := ds |}
    end.
Proof.
  revert grouped. induction post as [|[i gtype] rest IH]; intros grouped.
  - cbn [group_fields]. change (disks_of [] key) with (@nil string).
    by destruct (get_group grouped key).
  - cbn [group_fields]. rewrite disks_of_cons.
    destruct (zpool_disk i) as [disk|] eqn:Hd.
    2:{ rewrite IH.
        by destruct (bool_decide (gtype = key)
                     && negb (bool_decide (gtype = "none"))). }
    destruct (decide (gtype = "none")) as [Hn|Hn].
    { rewrite (bool_decide_true (gtype = "none")) by done.
      rewrite andb_false_r. apply IH. }
    rewrite (bool_decide_false (gtype = "none")) by done.
    rewrite andb_true_r. cbn [negb].
    destruct (decide (gtype = key)) as [Hk|Hk].
    + rewrite (bool_decide_true (gtype = key)) by done. subst gtype.
      rewrite has_key_get.
      destruct (get_group grouped key) as [g|] eqn:Hg.
      * rewrite bool_decide_true by done. rewrite IH.
        rewrite (get_add_disk_same _ _ _ _ Hg). cbn [g_type g_disks].
        destruct (disks_of rest key) as [|d ds]; [done|].
        rewrite <- app_assoc. cbn [app].
        by destruct (bool_decide (key = "log")).
      * rewrite bool_decide_false by (by intros [? ?]). rewrite IH.
        rewrite get_group_app, Hg, bool_decide_true by done.
        cbn [g_type g_disks app].
        by destruct (disks_of rest key) as [|d ds].
    + rewrite (bool_decide_false (gtype = key)) by done.
      destruct (has_key grouped gtype); rewrite IH.
      * by rewrite get_add_disk_other.
      * rewrite get_group_app, (bool_decide_false (gtype = key)) by done.
        by destruct (get_group grouped key).
Qed.

(** [ZFSVolumeWizardForm.done], the loop over the posted fields: the disk
    list of the form is the head of the root group and the fields posted
    with the value [root] extend it; any other group holds the disks
    posted for it, in the order of the fields, and a log group of two
    disks or more is mirrored. *)
Theorem posted_fields_grouped (inp : inputs) (key : string) :
  key ≠ "root" ->
  get_group (grouped inp) "root" =
    Some {| g_type := root_type inp;
            g_disks := volume_disks inp ++ disks_of (post inp) "root" |}
  /\ get_group (grouped inp) key =
       match disks_of (post inp) key with
       | [] => None
       | [d] => Some {| g_type := key; g_disks := [d] |}
       | ds => Some {| g_type := if bool_decide (key = "log")
                                 then "log mirror" else key;
                       g_disks := ds |}
       end.
Proof.
  intros Hne. unfold grouped. rewrite !get_group_fields. cbn [get_group].
  rewrite (bool_decide_true ("root" = "root")) by done.
  rewrite (bool_decide_false ("root" = key)) by done.
  split; [|done]. cbn [g_type g_disks].
  rewrite (bool_decide_false ("root" = "log")) by done.
  destruct (disks_of (post inp) "root"); [|done]. by rewrite app_nil_r.
Qed.

Lemma posted_fields_grouped_witness :
  let inp := {| volume_name := "tank"; volume_disks := ["da0"; "da1"];
                group_type := "mirror"; enc := false; encini := false;
                dedup := None;
                post := [("zpool_da2", "log"); ("volume_name", "tank");
                         ("zpool_da3", "none"); ("zpool_da4", "log");
                         ("zpool_da5", "root")] |} in
  "log" ≠ "root"
  /\ get_group (grouped inp) "root" =
       Some {| g_type := "mirror"; g_disks := ["da0"; "da1"; "da5"] |}
  /\ get_group (grouped inp) "log" =
       Some {| g_type := "log mirror"; g_disks := ["da2"; "da4"] |}.
Proof.
  intros inp. split; [done|]. exact (posted_fields_grouped inp "log" ltac:(done)).
Defined.


Ltac walk :=
  cbv [done try_except try_block handler mbind attempt notify get update
       set_locals set_volumes set_scrubs ret raise];
  cbn [volumes scrubs calls l_volume l_scrub l_add fst snd
       vol_id vol_name vol_encrypt scrub_id scrub_volume step_name].

Ltac walk_in H :=
  cbv [done try_except try_block handler mbind attempt notify get update
       set_locals set_volumes set_scrubs ret raise] in H;
  cbn [volumes scrubs calls l_volume l_scrub l_add fst snd
       vol_id vol_name vol_encrypt scrub_id scrub_volume step_name] in H.

Ltac called :=
  repeat match goal with
  | |- ?c ∈ _ ++ [?c] => apply elem_of_app; right; apply elem_of_cons; by left
  | |- _ ∈ _ ++ _ => apply elem_of_app; left
  end.

Ltac removed :=
  unfold deletions; cbn [calls]; rewrite ?omap_app; cbn [omap];
  rewrite ?app_nil_r; try reflexivity.

Lemma attach_aux_spec (fails : step -> bool) (vol : string)
    (groups keys : list (string * group)) (st : state) :
  let r := attach_aux fails vol groups keys st in
  volumes r.1 = volumes st /\ scrubs r.1 = scrubs st
  /\ deletions r.1 = deletions st
  /\ l_volume r.1 = l_volume st /\ l_scrub r.1 = l_scrub st
  /\ r.2 = if aux_fails fails keys
           then Raise (ExternalError "zfs_volume_attach_group")
           else Return tt.
Proof.
  revert st. induction keys as [|[key g] rest IH]; intros st; [done|].
  cbn [attach_aux aux_fails existsb]. fold (aux_fails fails rest).
  destruct (bool_decide (key ∈ ["log"; "cache"; "spare"])); cbn [andb orb].
  - destruct (fails (Attach key)) eqn:Hf; cbn [orb]; walk; rewrite Hf.
    + done.
    + match goal with |- context [attach_aux _ _ _ _ ?s] =>
        specialize (IH s) end.
      cbn zeta in IH. destruct IH as (-> & -> & -> & -> & -> & ->).
      repeat split; removed.
  - walk. apply IH.
Qed.


Lemma after_try_spec (fails : step -> bool) (st : state) :
  let r := after_try fails st in
  volumes r.1 = volumes st /\ scrubs r.1 = scrubs st
  /\ deletions r.1 = deletions st
  /\ (closing_fails fails = false -> r.2 = Return tt).
Proof.
  unfold after_try, closing_fails. walk.
  destruct (fails ReloadDisk); walk; [done|].
  destruct (fails RestartCron); walk; [by repeat split; removed|].
  destruct (fails DoSuperDone); walk; by repeat split; removed.
Qed.

Lemma deletions_attach (rows : list volume) (srows : list scrub)
    (cs : list call) (lv : option volume) (ls : option scrub)
    (la : option bool) (vol key : string) (g : option group) :
  deletions {| volumes := rows; scrubs := srows;
               calls := cs ++ [ZfsVolumeAttachGroup vol key g];
               l_volume := lv; l_scrub := ls; l_add := la |}
  = omap (fun c => match c with
                   | VolumeDelete vol destroy cascade =>
                       Some (vol, destroy, cascade)
                   | _ => None
                   end) cs.
Proof. removed. Qed.

(** The append branch from the first attach call on. *)
Lemma attach_tail (fails : step -> bool) (groups : list (string * group))
    (st : state) (v : volume) :
  l_volume st = Some v -> l_scrub st = None ->
  let r := (run! _ := try_except (attach_aux fails (vol_name v) groups groups)
                        (handler fails) in after_try fails) st in
  if aux_fails fails groups then
    if fails DeleteVolume then
      r.2 = Raise (ExternalError "volume.delete")
      /\ volumes r.1 = volumes st
      /\ deletions r.1 = deletions st
    else
      r.2 = Raise (ExternalError "zfs_volume_attach_group")
      /\ volumes r.1 = filter (fun row => vol_id row ≠ vol_id v) (volumes st)
      /\ deletions r.1 = deletions st ++ [(vol_name v, false, false)]
  else
    volumes r.1 = volumes st /\ deletions r.1 = deletions st.
Proof.
  intros Hlv Hls. cbn zeta.
  pose proof (attach_aux_spec fails (vol_name v) groups groups st) as Ha.
  cbn zeta in Ha. destruct Ha as (Hrows & _ & Hdel & Hlv' & Hls' & Hres).
  unfold mbind, try_except.
  destruct (attach_aux fails (vol_name v) groups groups st) as [st' res].
  cbn [fst snd] in *. subst res.
  destruct (aux_fails fails groups).
  - walk. rewrite Hlv', Hlv. walk. destruct (fails DeleteVolume); walk.
    + by rewrite Hrows, Hdel.
    + rewrite Hls', Hls. walk. rewrite Hrows. repeat split.
      unfold deletions in *. cbn [calls]. rewrite omap_app, Hdel. removed.
  - pose proof (after_try_spec fails st') as Hc. cbn zeta in Hc.
    destruct Hc as (-> & _ & -> & _). by rewrite Hrows, Hdel.
Qed.

(** [ZFSVolumeWizardForm.done] appending to a pool: when one of the
    attach calls raises, the handler calls [volume.delete] on the pool
    that was there before the call.  If the deletion goes through, the row
    of the pool is gone and the exception of the attach call leaves
    [done]; if the deletion raises, the row stays and it is the exception
    of the deletion that leaves [done].  When no attach call raises, the
    table is as it was and nothing is deleted. *)
Theorem failed_append_deletes_pool_row (fails : step -> bool) (inp : inputs)
    (st : state) (v : volume) :
  filter (fun row => vol_name row = volume_name inp) (volumes st) = [v] ->
  fails QueryVolumes = false ->
  let r := done fails inp st in
  v ∈ volumes st
  /\ if attach_fails fails inp then
       if fails DeleteVolume then
         r.2 = Raise (ExternalError "volume.delete")
         /\ volumes r.1 = volumes st
         /\ deletions r.1 = deletions st
       else
         r.2 = Raise (ExternalError "zfs_volume_attach_group")
         /\ volumes r.1
            = filter (fun row => vol_id row ≠ vol_id v) (volumes st)
         /\ (v ∉ volumes r.1)
         /\ deletions r.1 = deletions st ++ [(vol_name v, false, false)]
     else
       volumes r.1 = volumes st /\ deletions r.1 = deletions st.
Proof.
  intros Hv Hq. cbn zeta. split.
  { assert (Hin : v ∈ [v]) by (apply elem_of_cons; by left).
    rewrite <- Hv in Hin. by apply list_elem_of_filter in Hin as [_ ?]. }
  assert (Hgone : v ∉ filter (fun row => vol_id row ≠ vol_id v) (volumes st)).
  { intros Hin. by apply list_elem_of_filter in Hin as [? _]. }
  unfold attach_fails. destruct st as [rows srows cs lv ls la].
  cbn [volumes] in *. walk. rewrite Hq. walk. rewrite Hv. walk.
  destruct (0 <? length (default [] (g_disks <$> get_group (grouped inp) "root")))%nat;
    cbn [andb orb].
  - destruct (fails (Attach "root")) eqn:Hr; cbn [orb]; walk.
    + destruct (fails DeleteVolume); walk; [done|].
      repeat split; try done. removed.
    + match goal with |- context [attach_aux _ _ _ _ ?s] =>
        pose proof (attach_tail fails (grouped inp) s v eq_refl eq_refl)
          as Ht end.
      cbn zeta in Ht. rewrite deletions_attach in Ht. walk_in Ht.
      destruct (aux_fails fails (grouped inp)); [|done].
      destruct (fails DeleteVolume); [done|].
      destruct Ht as (Hres & Hrows & Hdel). rewrite Hrows. by repeat split.
  - walk.
    match goal with |- context [attach_aux _ _ _ _ ?s] =>
      pose proof (attach_tail fails (grouped inp) s v eq_refl eq_refl)
        as Ht end.
    cbn zeta in Ht. walk_in Ht.
    destruct (aux_fails fails (grouped inp)); [|done].
    destruct (fails DeleteVolume); [done|].
    destruct Ht as (Hres & Hrows & Hdel). rewrite Hrows. by repeat split.
Qed.

Lemma failed_append_deletes_pool_row_witness :
  let v := {| vol_id := 1; vol_name := "tank"; vol_encrypt := 0 |} in
  let r := done (only (Attach "root")) (wizard_pool "tank" ["da1"])
             (database [v]) in
  v ∈ volumes (database [v])
  /\ r.2 = Raise (ExternalError "zfs_volume_attach_group")
  /\ volumes r.1 = []
  /\ (v ∉ volumes r.1)
  /\ deletions r.1 = [("tank", false, false)].
Proof.
  intros v r.
  exact (failed_append_deletes_pool_row (only (Attach "root"))
           (wizard_pool "tank" ["da1"]) (database [v]) v eq_refl eq_refl).
Defined.


Lemma not_single {A B : Type} (vols : list A) (x : A -> B) (y : B) :
  length vols ≠ 1 ->
  match vols with
  | [] => y
  | [v0] => x v0
  | _ :: _ :: _ => y
  end = y.
Proof. by destruct vols as [|a [|b l]]. Qed.

(** [ZFSVolumeWizardForm.done] creating a pool: when saving the row,
    [create_volume], [zfs_set_option] or the creation of the scrub raises,
    the handler calls [volume.delete] without [destroy] and [cascade] -
    also when it was the saving of the row that failed.  If the deletion
    goes through, the first exception leaves [done] and both tables are
    as before the call; if the deletion raises, its exception leaves
    [done] and the new row stays in the table when it had been saved.
    No scrub is left in either case. *)
Theorem failed_wizard_creation_leaves_no_row (fails : step -> bool)
    (inp : inputs) (st : state) :
  length (filter (fun row => vol_name row = volume_name inp) (volumes st)) ≠ 1 ->
  fails QueryVolumes = false ->
  creation_fails fails inp = true ->
  let r := done fails inp st in
  let v := {| vol_id := VolumeManagerSave.fresh_id (map vol_id (volumes st));
              vol_name := volume_name inp;
              vol_encrypt := if enc inp then 1%Z else 0%Z |} in
  scrubs r.1 = scrubs st
  /\ if fails DeleteVolume then
       r.2 = Raise (ExternalError "volume.delete")
       /\ volumes r.1 = (if fails SaveVolume then volumes st
                         else volumes st ++ [v])
       /\ deletions r.1 = deletions st
     else
       (exists s : step,
          s ∈ [SaveVolume; DoCreateVolume; SetDedup; CreateScrub]
          /\ fails s = true
          /\ r.2 = Raise (ExternalError (step_name s)))
       /\ volumes r.1 = volumes st
       /\ deletions r.1 = deletions st ++ [(volume_name inp, false, false)].
Proof.
  intros Hlen Hq Hc. cbn zeta. destruct st as [rows srows cs lv ls la].
  cbn [volumes scrubs] in *. unfold creation_fails in Hc.
  set (v := {| vol_id := VolumeManagerSave.fresh_id (map vol_id rows);
               vol_name := volume_name inp;
               vol_encrypt := if enc inp then 1%Z else 0%Z |}).
  destruct (VolumeManagerProofs.delete_new_volume rows v eq_refl)
    as [Hnew Hold].
  walk. rewrite Hq. walk. rewrite (not_single _ _ _ Hlen). fold v.
  destruct (fails SaveVolume) eqn:Hs; walk.
  { destruct (fails DeleteVolume); walk; [by repeat split; removed|].
    rewrite Hold. repeat split; try done; [|removed].
    exists SaveVolume. repeat split; [|done]. apply elem_of_cons. by left. }
  destruct (fails DoCreateVolume) eqn:Hcv; walk.
  { destruct (fails DeleteVolume); walk; [by repeat split; removed|].
    rewrite Hnew. repeat split; try done; [|removed].
    exists DoCreateVolume. repeat split; [|done].
    apply elem_of_cons; right. apply elem_of_cons. by left. }
  cbn [orb] in Hc.
  destruct (truthy (dedup inp)); cbn [andb orb] in Hc; walk.
  - destruct (fails SetDedup) eqn:Hsd; walk.
    { destruct (fails DeleteVolume); walk; [by repeat split; removed|].
      rewrite Hnew. repeat split; try done; [|removed].
      exists SetDedup. repeat split; [|done].
      do 2 (apply elem_of_cons; right). apply elem_of_cons. by left. }
    cbn [orb] in Hc. rewrite Hc. walk.
    destruct (fails DeleteVolume); walk; [by repeat split; removed|].
    rewrite Hnew. repeat split; try done; [|removed].
    exists CreateScrub. repeat split; [|done].
    do 3 (apply elem_of_cons; right). apply elem_of_cons. by left.
  - rewrite Hc. walk.
    destruct (fails DeleteVolume); walk; [by repeat split; removed|].
    rewrite Hnew. repeat split; try done; [|removed].
    exists CreateScrub. repeat split; [|done].
    do 3 (apply elem_of_cons; right). apply elem_of_cons. by left.
Qed.

Lemma failed_wizard_creation_leaves_no_row_witness :
  let r := done (only SaveVolume) (wizard_pool "tank" ["da1"; "da2"])
             (database []) in
  scrubs r.1 = []
  /\ (exists s : step,
        s ∈ [SaveVolume; DoCreateVolume; SetDedup; CreateScrub]
        /\ only SaveVolume s = true
        /\ r.2 = Raise (ExternalError (step_name s)))
  /\ volumes r.1 = []
  /\ deletions r.1 = [] ++ [("tank", false, false)].
Proof.
  exact (failed_wizard_creation_leaves_no_row (only SaveVolume)
           (wizard_pool "tank" ["da1"; "da2"]) (database [])
           ltac:(cbn; lia) eq_refl eq_refl).
Defined.

(** [ZFSVolumeWizardForm.done]: when the query of the pools raises,
    [volume] is still [None], the handler deletes nothing and the
    exception of the query leaves [done]; no call has been made. *)
Theorem wizard_query_failure_is_raised (fails : step -> bool) (inp : inputs)
    (st : state) :
  fails QueryVolumes = true ->
  let r := done fails inp st in
  r.2 = Raise (ExternalError "Volume.objects.filter")
  /\ volumes r.1 = volumes st
  /\ scrubs r.1 = scrubs st
  /\ calls r.1 = calls st.
Proof.
  intros Hq. cbn zeta. walk. rewrite Hq. by walk.
Qed.

Lemma wizard_query_failure_is_raised_witness :
  let r := done (only QueryVolumes) (wizard_pool "tank" ["da1"])
             (database []) in
  r.2 = Raise (ExternalError "Volume.objects.filter")
  /\ volumes r.1 = []
  /\ scrubs r.1 = []
  /\ calls r.1 = [].
Proof.
  apply (wizard_query_failure_is_raised (only QueryVolumes)
           (wizard_pool "tank" ["da1"]) (database [])).
  reflexivity.
Defined.

(** [ZFSVolumeWizardForm.done] creating a pool: when no operation but
    [zpool_enclosure_sync] raises, [done] returns, whatever that call
    does: the row of the pool and its scrub are the last of their tables,
    [create_volume] has received the groups of the posted fields, and
    nothing is deleted. *)
Theorem enclosure_failure_is_swallowed (fails : step -> bool) (inp : inputs)
    (st : state) :
  length (filter (fun row => vol_name row = volume_name inp) (volumes st)) ≠ 1 ->
  fails QueryVolumes = false ->
  creation_fails fails inp = false ->
  closing_fails fails = false ->
  let r := done fails inp st in
  r.2 = Return tt
  /\ (exists v s,
        volumes r.1 = volumes st ++ [v]
        /\ vol_name v = volume_name inp
        /\ vol_encrypt v = (if enc inp then 1 else 0)%Z
        /\ scrubs r.1 = scrubs st ++ [s]
        /\ scrub_volume s = vol_id v)
  /\ CreateVolume (volume_name inp) (grouped inp) (encini inp) ∈ calls r.1
  /\ deletions r.1 = deletions st.
Proof.
  intros Hlen Hq Hc Hclose. cbn zeta. destruct st as [rows srows cs lv ls la].
  cbn [volumes scrubs] in *. unfold creation_fails in Hc.
  apply orb_false_iff in Hc as [Hc Hscrub].
  apply orb_false_iff in Hc as [Hc Hdedup].
  apply orb_false_iff in Hc as [Hsave Hcreate].
  assert (Hend : forall st0 : state,
    (after_try fails st0).2 = Return tt
    /\ volumes (after_try fails st0).1 = volumes st0
    /\ scrubs (after_try fails st0).1 = scrubs st0
    /\ deletions (after_try fails st0).1 = deletions st0
    /\ forall c, c ∈ calls st0 -> c ∈ calls (after_try fails st0).1).
  { intros st0. unfold closing_fails in Hclose.
    apply orb_false_iff in Hclose as [Hclose Hsuper].
    apply orb_false_iff in Hclose as [Hreload Hrestart].
    unfold after_try. walk. rewrite Hreload. walk. rewrite Hrestart. walk.
    rewrite Hsuper. walk. repeat split; [removed|].
    intros c Hin. rewrite !elem_of_app. by do 3 left. }
  walk. rewrite Hq. walk. rewrite (not_single _ _ _ Hlen).
  rewrite Hsave. walk. rewrite Hcreate. walk.
  destruct (truthy (dedup inp)); cbn [andb] in Hdedup; walk.
  - rewrite Hdedup. walk. rewrite Hscrub. walk.
    destruct (fails EnclosureSync); walk;
      match goal with |- context [after_try fails ?s] =>
        destruct (Hend s) as (Hr & Hvs & Hss & Hds & Hcalls);
        rewrite Hr, Hvs, Hss, Hds end;
      (repeat split; [by eexists _, _| |removed]);
      apply Hcalls; cbn [calls]; called.
  - rewrite Hscrub. walk.
    destruct (fails EnclosureSync); walk;
      match goal with |- context [after_try fails ?s] =>
        destruct (Hend s) as (Hr & Hvs & Hss & Hds & Hcalls);
        rewrite Hr, Hvs, Hss, Hds end;
      (repeat split; [by eexists _, _| |removed]);
      apply Hcalls; cbn [calls]; called.
Qed.

Lemma enclosure_failure_is_swallowed_witness :
  let r := done (only EnclosureSync) (wizard_pool "tank" ["da1"; "da2"])
             (database []) in
  r.2 = Return tt
  /\ (exists v s,
        volumes r.1 = [] ++ [v]
        /\ vol_name v = "tank"
        /\ vol_encrypt v = 0%Z
        /\ scrubs r.1 = [] ++ [s]
        /\ scrub_volume s = vol_id v)
  /\ CreateVolume "tank" (grouped (wizard_pool "tank" ["da1"; "da2"])) false
       ∈ calls r.1
  /\ deletions r.1 = [].
Proof.
  apply (enclosure_failure_is_swallowed (only EnclosureSync)
           (wizard_pool "tank" ["da1"; "da2"]) (database [])).
  - cbn. lia.
  - reflexivity.
  - reflexivity.
  - reflexivity.
Defined.


(** [ZFSVolumeWizardForm.clean_group_type] and [done]: a value that the
    cleaner lets through gives the root group a type that is not empty:
    [stripe] below two disks, whatever was chosen, and the value itself
    from two disks on. *)
Theorem accepted_group_type_reaches_root (cd : Wizard.cleaned_data)
    (value : string) (inp : inputs) :
  Wizard.clean_group_type cd value = Return (group_type inp) ->
  Wizard.volume_disks cd = Some (volume_disks inp) ->
  exists g,
    get_group (grouped inp) "root" = Some g
    /\ g_type g ≠ ""
    /\ g_type g = (if (length (volume_disks inp) <? 2)%nat then "stripe"
                   else value).
Proof.
  unfold Wizard.clean_group_type. intros Hc Hd. rewrite Hd in Hc.
  cbn [default from_option id] in Hc.
  rewrite bool_decide_true in Hc by done.
  cbn [negb orb] in Hc.
  unfold grouped. rewrite get_group_fields. cbn [get_group].
  rewrite (bool_decide_true ("root" = "root")) by done.
  rewrite (bool_decide_false ("root" = "log")) by done.
  assert (Ht : root_type inp ≠ ""
               /\ root_type inp
                   = (if (length (volume_disks inp) <? 2)%nat then "stripe"
                      else value)).
  { unfold root_type.
    destruct (length (volume_disks inp) <? 2)%nat eqn:Hl; [done|].
    apply Nat.ltb_ge in Hl.
    assert (Hl' : (1 <? length (volume_disks inp))%nat = true)
      by (apply Nat.ltb_lt; lia).
    rewrite Hl' in Hc. cbn [andb] in Hc.
    destruct (decide (value = "")) as [He|He].
    - by rewrite (bool_decide_true _ He) in Hc.
    - rewrite (bool_decide_false _ He) in Hc. injection Hc as Hc.
      by rewrite <- Hc. }
  destruct (disks_of (post inp) "root"); eexists; (split; [done|exact Ht]).
Qed.

Lemma accepted_group_type_reaches_root_witness :
  let cd := {| Wizard.volume_name := Some "tank";
               Wizard.volume_add := None;
               Wizard.volume_disks := Some ["da1"];
               Wizard.group_type := Some "mirror" |} in
  exists g,
    get_group (grouped (wizard_pool "tank" ["da1"])) "root" = Some g
    /\ g_type g ≠ ""
    /\ g_type g = "stripe".
Proof.
  intros cd.
  exact (accepted_group_type_reaches_root cd "mirror"
           (wizard_pool "tank" ["da1"]) eq_refl eq_refl).
Defined.

(** [ZFSVolumeWizardForm.__init__]: posting more disks never withdraws a
    choice of [group_type] nor changes the order of the choices. *)
Theorem choices_grow_with_disks (few many : list string) :
  length few <= length many ->
  Wizard.grouptype_choices few `prefix_of` Wizard.grouptype_choices many.
Proof.
  intros Hle. unfold Wizard.grouptype_choices.
  destruct (Nat.leb_spec 3 (length few)), (Nat.leb_spec 4 (length few)),
    (Nat.leb_spec 5 (length few)), (Nat.leb_spec 3 (length many)),
    (Nat.leb_spec 4 (length many)), (Nat.leb_spec 5 (length many));
    try lia; cbn [app]; by eexists.
Qed.

Lemma choices_grow_with_disks_witness :
  Wizard.grouptype_choices ["da1"; "da2"]
    `prefix_of` Wizard.grouptype_choices ["da1"; "da2"; "da3"; "da4"].
Proof.
  apply (choices_grow_with_disks ["da1"; "da2"] ["da1"; "da2"; "da3"; "da4"]).
  cbn. lia.
Defined.

End WizardDoneProofs.
